(** * tax_agent: the XML-to-Markdown converter, the retrieval helpers and the
    paragraph splitter, embedded in Rocq.

    Sources embedded here:
    - [src/xml_to_markdown.py]: [get_tag_name], [get_child_text],
      [should_process_children], [process_xml_tree], [element_to_markdown],
      [table_to_markdown], [convert_list] and the clean-up pass at the end of
      [convert_xml_to_markdown];
    - [src/agent.py]: [_extract_key_terms], [_extract_citation],
      [_find_relevant_sections];
    - [src/format_markdown.py]: [split_by_paragraphs].

    A Python [str] is a [string]; one [ascii] stands for one character (one
    code point below 256, which is enough for every character the program
    looks at, the section sign U+00A7 included).

    The table converter goes through [etree.tostring] and BeautifulSoup's
    [html.parser]; the soup is modelled on the element tree, with the names
    the parser gives the tags.  The model is that of the libraries for the
    trees made of ordinary tags ([html_plain]). *)

From Stdlib Require Import String Ascii List Bool Arith PeanoNat ZArith Lia Sorted.
Import ListNotations.
Open Scope string_scope.

(* ================================================================== *)
(** * Python string operations *)
(* ================================================================== *)

Module PyStr.

(** Characters the sources name. *)
Definition nl : ascii := "010"%char.
Definition space : ascii := " "%char.
Definition hash : ascii := "#"%char.
Definition sect : ascii := "167"%char.  (* the section sign *)

Definition NL : string := String nl "".
Definition SECT : string := String sect "".

(** [str.isspace] on one character, for the code points below 256:
    TAB..CR, FS..US, SPACE, NEL and NBSP.  The regular-expression class
    [\s] of a [str] pattern is the same set. *)
Definition isspace (c : ascii) : bool :=
  let n := nat_of_ascii c in
  (Nat.leb 9 n && Nat.leb n 13) || (Nat.leb 28 n && Nat.leb n 32)
  || Nat.eqb n 133 || Nat.eqb n 160.

(** The class [\d] of a [str] pattern, below 256: the ASCII digits. *)
Definition isdigit (c : ascii) : bool :=
  let n := nat_of_ascii c in Nat.leb 48 n && Nat.leb n 57.

(** [bool(s)]: a string is true when it is not empty. *)
Definition truthy (s : string) : bool :=
  match s with EmptyString => false | String _ _ => true end.

Fixpoint lstrip (s : string) : string :=
  match s with
  | String c s' => if isspace c then lstrip s' else s
  | EmptyString => EmptyString
  end.

Fixpoint rstrip (s : string) : string :=
  match s with
  | EmptyString => EmptyString
  | String c s' =>
      match rstrip s' with
      | EmptyString => if isspace c then EmptyString else String c EmptyString
      | r => String c r
      end
  end.

(** [s.strip()] *)
Definition strip (s : string) : string := rstrip (lstrip s).

(** [s.startswith(p)] *)
Fixpoint startswith (p s : string) : bool :=
  match p, s with
  | EmptyString, _ => true
  | String a p', String b s' => Ascii.eqb a b && startswith p' s'
  | String _ _, EmptyString => false
  end.

(** [sub in s] *)
Fixpoint contains (sub s : string) : bool :=
  startswith sub s ||
  match s with
  | EmptyString => false
  | String _ s' => contains sub s'
  end.

(** [s[n:]] *)
Fixpoint drop (n : nat) (s : string) : string :=
  match n, s with
  | S n', String _ s' => drop n' s'
  | _, _ => s
  end.

(** [s[:n]] *)
Fixpoint take (n : nat) (s : string) : string :=
  match n, s with
  | S n', String c s' => String c (take n' s')
  | _, _ => EmptyString
  end.

(** Put a character in front of the first piece of a split. *)
Definition cons_head (c : ascii) (l : list string) : list string :=
  match l with
  | [] => [String c EmptyString]
  | x :: r => String c x :: r
  end.

(** [s.split(sep)] for a non-empty separator: the leftmost occurrences, not
    overlapping.  [skip] counts the characters of a separator just found that
    are still to be passed over. *)
Fixpoint split_from (sep : string) (skip : nat) (s : string) : list string :=
  match s with
  | EmptyString => [EmptyString]
  | String c s' =>
      match skip with
      | S k => split_from sep k s'
      | O =>
          if startswith sep s
          then EmptyString :: split_from sep (String.length sep - 1) s'
          else cons_head c (split_from sep 0 s')
      end
  end.

Definition split (sep s : string) : list string := split_from sep 0 s.

(** [sep.join(l)] *)
Definition join (sep : string) (l : list string) : string := String.concat sep l.

(** [s.split()]: the maximal runs of characters that are not white space. *)
Fixpoint split_ws_from (cur : option string) (s : string) : list string :=
  match s with
  | EmptyString => match cur with Some w => [w] | None => [] end
  | String c s' =>
      if isspace c
      then match cur with
           | Some w => w :: split_ws_from None s'
           | None => split_ws_from None s'
           end
      else split_ws_from
             (Some (match cur with Some w => w ++ String c "" | None => String c "" end))
             s'
  end.

Definition split_ws (s : string) : list string := split_ws_from None s.

(** [str.lower] on one character below 256: A..Z and the accented capitals
    U+00C0..U+00DE (the multiplication sign U+00D7 apart) move up by 32. *)
Definition lower_char (c : ascii) : ascii :=
  let n := nat_of_ascii c in
  if (Nat.leb 65 n && Nat.leb n 90)
     || (Nat.leb 192 n && Nat.leb n 222 && negb (Nat.eqb n 215))
  then ascii_of_nat (n + 32) else c.

Fixpoint lower (s : string) : string :=
  match s with
  | EmptyString => EmptyString
  | String c s' => String (lower_char c) (lower s')
  end.

(** [x in l] for a list of strings. *)
Definition mem (x : string) (l : list string) : bool :=
  existsb (String.eqb x) l.

(** [c * n] for a one-character string pattern, as a list of copies. *)
Definition copies {A : Type} (n : nat) (x : A) : list A := repeat x n.

(** ** Regular expressions

    A pattern is embedded as a matcher: what the pattern matches at the very
    start of a string, as the value the caller wants and the number of
    characters matched.  Every pattern of the sources matches at least one
    character. *)

(** [re.sub(pattern, repl, s)]: from the left, replace what matches and go
    on behind it; a character where nothing matches is copied.  The matcher
    gives the replacement text.  [skip] counts the characters of a match that
    are still to be passed over. *)
Fixpoint re_sub_from (m : string -> option (string * nat)) (skip : nat) (s : string)
  : string :=
  match s with
  | EmptyString => EmptyString
  | String c s' =>
      match skip with
      | S k => re_sub_from m k s'
      | O =>
          match m s with
          | Some (repl, n) => repl ++ re_sub_from m (n - 1) s'
          | None => String c (re_sub_from m 0 s')
          end
      end
  end.

Definition re_sub (m : string -> option (string * nat)) (s : string) : string :=
  re_sub_from m 0 s.

(** [re.findall(pattern, s)]: the values of the matches from the left, not
    overlapping. *)
Fixpoint re_findall_from {A : Type} (m : string -> option (A * nat)) (skip : nat)
         (s : string) : list A :=
  match s with
  | EmptyString => []
  | String c s' =>
      match skip with
      | S k => re_findall_from m k s'
      | O =>
          match m s with
          | Some (v, n) => v :: re_findall_from m (n - 1) s'
          | None => re_findall_from m 0 s'
          end
      end
  end.

Definition re_findall {A : Type} (m : string -> option (A * nat)) (s : string)
  : list A := re_findall_from m 0 s.

(** [re.search(pattern, s)]: the value of the leftmost match. *)
Fixpoint re_search {A : Type} (m : string -> option (A * nat)) (s : string)
  : option A :=
  match m s with
  | Some (v, _) => Some v
  | None =>
      match s with
      | EmptyString => None
      | String _ s' => re_search m s'
      end
  end.

(** The longest prefix whose characters satisfy [p], and what follows it. *)
Fixpoint span (p : ascii -> bool) (s : string) : string * string :=
  match s with
  | EmptyString => (EmptyString, EmptyString)
  | String c s' =>
      if p c then let '(a, b) := span p s' in (String c a, b)
      else (EmptyString, s)
  end.

Definition is_nl (c : ascii) : bool := Ascii.eqb c nl.
Definition is_space (c : ascii) : bool := Ascii.eqb c space.
Definition is_hash (c : ascii) : bool := Ascii.eqb c hash.

(** Every character of the string satisfies [p]. *)
Fixpoint all_chars (p : ascii -> bool) (s : string) : bool :=
  match s with
  | EmptyString => true
  | String c s' => p c && all_chars p s'
  end.

(** [s[-1]], and a space for the empty string. *)
Fixpoint last_char (s : string) : ascii :=
  match s with
  | EmptyString => space
  | String c EmptyString => c
  | String _ s' => last_char s'
  end.

(** [c * n] *)
Fixpoint repeat_char (n : nat) (c : ascii) : string :=
  match n with
  | O => EmptyString
  | S n' => String c (repeat_char n' c)
  end.

(** The characters of the string that satisfy [p], in their order. *)
Fixpoint filter_chars (p : ascii -> bool) (s : string) : string :=
  match s with
  | EmptyString => EmptyString
  | String c s' => if p c then String c (filter_chars p s') else filter_chars p s'
  end.

Definition not_space (c : ascii) : bool := negb (isspace c).

End PyStr.

Import PyStr.

(* ================================================================== *)
(** * src/xml_to_markdown.py *)
(* ================================================================== *)

Module XmlToMarkdown.

(** An lxml element: its tag (with the namespace in braces in front, when it
    has one), the prefix its namespace is written with (none for an element
    with no namespace or in the default namespace), its attributes, the text
    before its first child, its children in document order, and the tail
    text that follows its end tag. *)
#[warnings="-register-all"]
Inductive Element : Type :=
| Elem (tag : string) (prefix : option string) (attrib : list (string * string))
       (text : option string) (children : list Element)
       (tail : option string).

Definition etag (e : Element) : string :=
  match e with Elem t _ _ _ _ _ => t end.
Definition eprefix (e : Element) : option string :=
  match e with Elem _ p _ _ _ _ => p end.
Definition eattrib (e : Element) : list (string * string) :=
  match e with Elem _ _ a _ _ _ => a end.
Definition etext (e : Element) : option string :=
  match e with Elem _ _ _ x _ _ => x end.
Definition echildren (e : Element) : list Element :=
  match e with Elem _ _ _ _ cs _ => cs end.
Definition etail (e : Element) : option string :=
  match e with Elem _ _ _ _ _ tl => tl end.

(** [x or ""] for an optional text. *)
Definition or_empty (o : option string) : string :=
  match o with Some s => s | None => "" end.

(** [element.get(key, "")] *)
Fixpoint attr_get (a : list (string * string)) (key : string) : string :=
  match a with
  | [] => ""
  | (k, v) :: a' => if String.eqb k key then v else attr_get a' key
  end.

(** [get_tag_name]: the tag without its namespace. *)
Definition get_tag_name_of (tag : string) : string :=
  if contains "}" tag then nth 1 (split "}" tag) "" else tag.

Definition get_tag_name (e : Element) : string := get_tag_name_of (etag e).

(** [get_child_text]: the stripped text of the first child that has the tag
    and a text that is not empty. *)
Fixpoint get_child_text_in (cs : list Element) (child_tag : string) : string :=
  match cs with
  | [] => ""
  | child :: cs' =>
      if String.eqb (get_tag_name child) child_tag
         && truthy (or_empty (etext child))
      then strip (or_empty (etext child))
      else get_child_text_in cs' child_tag
  end.

Definition get_child_text (e : Element) (child_tag : string) : string :=
  get_child_text_in (echildren e) child_tag.

(** The elements below an element, in document order. *)
Fixpoint descendants (e : Element) : list Element :=
  match e with
  | Elem _ _ _ _ cs _ => flat_map (fun c => c :: descendants c) cs
  end.

(** ** The table converter

    [table_to_markdown] writes the element with [etree.tostring] and reads
    the text back with BeautifulSoup's [html.parser]; the soup it searches is
    the element as that parser sees it.

    The element is written under its qualified name: the local name, after
    the prefix and a colon when the element has a prefix.  The parser
    lower-cases the names of the tags, and does not split a prefix off, so a
    soup tag is named after the qualified name in lower case. *)

(** The local name of an lxml tag: what follows the namespace in braces. *)
Definition local_name_of (tag : string) : string :=
  match tag with
  | String "{" rest => drop 1 (snd (span (fun c => negb (Ascii.eqb c "}")) rest))
  | _ => tag
  end.

Definition qname (e : Element) : string :=
  match eprefix e with
  | Some p => p ++ ":" ++ local_name_of (etag e)
  | None => local_name_of (etag e)
  end.

(** [tag.name] of the soup tag made from the element. *)
Definition soup_name (e : Element) : string := lower (qname e).

(** [CDATA_CONTENT_ELEMENTS] of [html.parser]: between the start and the end
    of such an element the parser looks for no tag, and the soup tag has no
    tag below it. *)
Definition cdata_content_elements : list string := ["script"; "style"].

(** The tags BeautifulSoup keeps strings of a class of their own in; the
    strings below them are not among those [get_text] joins for a tag
    outside. *)
Definition string_containers : list string :=
  ["rt"; "rp"; "style"; "script"; "template"].

(** [tag.descendants], the strings left out: the soup tags below a tag, in
    document order. *)
Fixpoint soup_descendants (e : Element) : list Element :=
  match e with
  | Elem _ _ _ _ cs _ =>
      if mem (soup_name e) cdata_content_elements then []
      else flat_map (fun c => c :: soup_descendants c) cs
  end.

(** [tag.find_all(name)] *)
Definition find_all (name : string) (e : Element) : list Element :=
  filter (fun d => String.eqb (soup_name d) name) (soup_descendants e).

(** [tag.find(name)] *)
Definition find (name : string) (e : Element) : option Element :=
  hd_error (find_all name e).

(** [soup.find(name)]: the soup holds the element itself. *)
Definition soup_find (name : string) (e : Element) : option Element :=
  hd_error (filter (fun d => String.eqb (soup_name d) name)
                   (e :: soup_descendants e)).

Definition opt_list (o : option string) : list string :=
  match o with Some s => [s] | None => [] end.

(** The strings below a soup tag that [get_text] joins, in document order:
    the text of the element, then for each child its strings and its tail;
    the strings of a string container are left out. *)
Fixpoint strings (e : Element) : list string :=
  match e with
  | Elem _ _ _ tx cs _ =>
      if mem (soup_name e) string_containers then []
      else (opt_list tx ++ flat_map (fun c => strings c ++ opt_list (etail c)) cs)%list
  end.

(** [tag.get_text(strip=True)]: every string stripped, the empty ones left
    out, joined with nothing between them. *)
Definition get_text_strip (e : Element) : string :=
  join "" (filter truthy (map strip (strings e))).

(** A row of a Markdown table. *)
Definition md_row (cells : list string) : string :=
  "| " ++ join " | " cells ++ " |".

Definition table_header (table : Element) : list string :=
  match find "thead" table with
  | Some thead => map get_text_strip (find_all "th" thead)
  | None => []
  end.

Definition table_body (table : Element) : list (list string) :=
  match find "tbody" table with
  | Some tbody =>
      map (fun tr => map get_text_strip (find_all "td" tr)) (find_all "tr" tbody)
  | None => []
  end.

Definition header_rows (headers : list string) : list string :=
  match headers with
  | [] => []
  | _ => [md_row headers; md_row (copies (List.length headers) "---")]
  end.

Definition body_rows (rows : list (list string)) : list string :=
  map md_row (filter (fun row => match row with [] => false | _ => true end) rows).

Definition table_to_markdown (table_element : Element) : string :=
  match soup_find "table" table_element with
  | None => ""
  | Some table =>
      join NL (header_rows (table_header table) ++ body_rows (table_body table))%list
  end.

(** *** The trees the parser reads as they are written

    The soup above has the shape of the element when every element of the
    tree is an ordinary tag for the parser.  A name is read as the name of a
    tag, where the element starts and where it ends, when it is a letter
    followed by letters, digits and [-], [.], [:], [_]. *)
Definition is_ascii_letter (c : ascii) : bool :=
  let n := nat_of_ascii c in
  (Nat.leb 65 n && Nat.leb n 90) || (Nat.leb 97 n && Nat.leb n 122).

Definition is_name_char (c : ascii) : bool :=
  is_ascii_letter c || isdigit c
  || Ascii.eqb c "-" || Ascii.eqb c "." || Ascii.eqb c ":" || Ascii.eqb c "_".

Definition is_tag_name (s : string) : bool :=
  match s with
  | String c rest => is_ascii_letter c && all_chars is_name_char rest
  | EmptyString => false
  end.

(** The void elements of BeautifulSoup's HTML tree builders: such a tag is
    closed where it opens, whatever the element holds. *)
Definition empty_element_tags : list string :=
  ["area"; "base"; "br"; "col"; "embed"; "hr"; "img"; "input"; "keygen"; "link";
   "menuitem"; "meta"; "param"; "source"; "track"; "wbr";
   "basefont"; "bgsound"; "command"; "frame"; "image"; "isindex"; "nextid";
   "spacer"].

(** The elements whose contents one version or another of [html.parser]
    does not read as tags. *)
Definition raw_text_elements : list string :=
  ["script"; "style"; "textarea"; "title"; "plaintext"; "xmp"; "iframe";
   "noembed"; "noframes"; "noscript"].

Definition ordinary_tag (e : Element) : bool :=
  is_tag_name (qname e)
  && negb (mem (soup_name e)
               (empty_element_tags ++ raw_text_elements ++ string_containers)).

(** Every element of the tree is an ordinary tag. *)
Definition html_plain (e : Element) : bool :=
  forallb ordinary_tag (e :: descendants e).

(** *** Tables of the plain shape, and the lines the specification asks for *)


(** A cell of the given name with no element in it. *)
Definition leaf_cell (name : string) (c : Element) : Prop :=
  soup_name c = name /\ echildren c = [].

(** A row, [tr], whose children are such cells. *)
Definition cell_row (name : string) (row : Element) : Prop :=
  soup_name row = "tr" /\ Forall (leaf_cell name) (echildren row).

(** A header group: a [thead] with one row of [th] cells. *)
Definition header_group (thead hrow : Element) : Prop :=
  soup_name thead = "thead" /\ echildren thead = [hrow] /\ cell_row "th" hrow.

(** A body group: a [tbody] whose children are rows of [td] cells. *)
Definition body_group (tbody : Element) : Prop :=
  soup_name tbody = "tbody" /\ Forall (cell_row "td") (echildren tbody).




(** ** The list converter

    [xpath(".//item")] and [xpath(".//content")] select the descendants whose
    tag is the bare name, with no namespace. *)
Definition xpath_descendants (name : string) (e : Element) : list Element :=
  filter (fun d => String.eqb (etag d) name) (descendants e).

Definition item_text (item : Element) : string :=
  (match etext item with
   | Some t => if truthy t then strip t else ""
   | None => ""
   end)
  ++ join "" (map (fun content =>
                     match etext content with
                     | Some t => if truthy t then " " ++ strip t else ""
                     | None => ""
                     end)
                  (xpath_descendants "content" item)).

Definition convert_list (list_element : Element) : string :=
  join NL (map (fun t => "* " ++ t)
               (filter truthy (map item_text (xpath_descendants "item" list_element)))).

(** ** The tree walker and the element renderer *)

(** Tags whose renderer takes care of the children itself. *)
Definition skip_children_tags : list string :=
  ["section"; "subsection"; "paragraph"; "subparagraph"; "table"; "list";
   "note"; "notes"].

Definition should_process_children (e : Element) : bool :=
  negb (mem (get_tag_name e) skip_children_tags).

(** Tags that are rendered even when their text is empty. *)
Definition structural_tags : list string :=
  ["section"; "subsection"; "paragraph"; "subparagraph"; "table"; "list";
   "title"; "note"; "notes"].

(** The tail rule at the end of [element_to_markdown]. *)
Definition tail_text (e : Element) : string :=
  match etail e with
  | Some tl => if truthy (strip tl) then strip tl ++ " " else ""
  | None => ""
  end.

(** The lines of a child's rendering that a note keeps, each quoted. *)
Definition blockquote_lines (child_result : string) : list string :=
  map (fun line => "> " ++ line)
      (filter (fun line => truthy (strip line)) (split NL child_result)).

Section Renderer.

(** The tree walker, as the renderer calls it on a child: the parent's tag,
    the child and the level. *)
Variable walk : option string -> Element -> nat -> string.

(** [for child in element: if keep(child): content += walk(child)] *)
Fixpoint walk_children (parent : option string) (keep : Element -> bool)
         (level : nat) (cs : list Element) : string :=
  match cs with
  | [] => ""
  | child :: cs' =>
      if keep child
      then walk parent child level ++ walk_children parent keep level cs'
      else walk_children parent keep level cs'
  end.

(** The loop of the note branch: every kept child adds its quoted lines and
    a newline, when it has any. *)
Fixpoint walk_note_children (parent : option string) (keep : Element -> bool)
         (level : nat) (cs : list Element) : string :=
  match cs with
  | [] => ""
  | child :: cs' =>
      if keep child
      then
        let child_result := walk parent child level in
        (if truthy child_result
         then match blockquote_lines child_result with
              | [] => ""
              | ls => join NL ls ++ NL
              end
         else "")
        ++ walk_note_children parent keep level cs'
      else walk_note_children parent keep level cs'
  end.

Definition tag_not_in (tags : list string) (child : Element) : bool :=
  negb (mem (get_tag_name child) tags).

(** The header line of a section or subsection. *)
Definition header_of (num heading : string) : string :=
  (if truthy num then num ++ " " else "") ++ (if truthy heading then heading else "").

Definition render_section (marker : string) (element : Element) (level : nat) : string :=
  let num := get_child_text element "num" in
  let heading := get_child_text element "heading" in
  let content :=
    walk_children (Some (etag element)) (tag_not_in ["num"; "heading"])
                  (S level) (echildren element) in
  let header := header_of num heading in
  (if truthy header then NL ++ marker ++ " " ++ header ++ NL ++ NL else "")
  ++ content.

Definition render_paragraph (prefix : string) (element : Element) (level : nat) : string :=
  let num := get_child_text element "num" in
  let content_text := get_child_text element "content" in
  let additional_content :=
    walk_children (Some (etag element)) (tag_not_in ["num"; "content"])
                  (S level) (echildren element) in
  let result :=
    (if truthy num then prefix ++ "**" ++ num ++ "** " else "")
    ++ (if truthy content_text then content_text ++ " " else "")
    ++ strip additional_content in
  if truthy (strip result) then result ++ NL else result.

Definition render_note (element : Element) (level : nat) : string :=
  let text := or_empty (etext element) in
  let heading := get_child_text element "heading" in
  (if truthy heading then "> **" ++ heading ++ "**" ++ NL else "")
  ++ (if truthy (strip text)
      then join NL (map (fun line => "> " ++ line) (split NL (strip text))) ++ NL
      else "")
  ++ walk_note_children (Some (etag element)) (tag_not_in ["heading"])
                        (S level) (echildren element).

(** The branch of [element_to_markdown] for the tag. *)
Definition render_tag (parent : option string) (element : Element) (level : nat) : string :=
  let tag := get_tag_name element in
  let text := or_empty (etext element) in
  if String.eqb tag "title"
     && match parent with
        | Some ptag => String.eqb (get_tag_name_of ptag) "uscDoc"
        | None => false
        end
  then
    let num := get_child_text element "num" in
    let heading := get_child_text element "heading" in
    (if truthy num then "# " ++ num ++ NL ++ NL else "")
    ++ (if truthy heading then "# " ++ heading ++ NL ++ NL else "")
  else if String.eqb tag "section" then render_section "##" element level
  else if String.eqb tag "subsection" then render_section "###" element level
  else if String.eqb tag "paragraph" then render_paragraph "" element level
  else if String.eqb tag "subparagraph" then render_paragraph "  - " element level
  else if String.eqb tag "p" then
    (if truthy (strip text) then strip text ++ " " else "")
  else if String.eqb tag "content" || String.eqb tag "chapeau" then
    (if truthy (strip text) then strip text ++ " " else "")
  else if String.eqb tag "table" then
    let table_content := table_to_markdown element in
    (if truthy table_content then table_content ++ NL else "")
  else if String.eqb tag "note" || String.eqb tag "notes" then
    render_note element level
  else if String.eqb tag "ref" then
    let href := attr_get (eattrib element) "href" in
    if truthy href && truthy (strip text)
    then "[" ++ strip text ++ "](" ++ href ++ ")"
    else if truthy (strip text) then "*" ++ strip text ++ "*" else ""
  else if String.eqb tag "list" then
    let list_content := convert_list element in
    (if truthy list_content then list_content ++ NL else "")
  else if mem tag ["num"; "heading"] then ""
  else if String.eqb tag "meta" || String.eqb tag "main" then ""
  else if truthy (strip text) then strip text ++ " "
  else "".

(** [element_to_markdown] for an element that is there, with the walker it
    calls on the children left open. *)
Definition element_to_markdown_open (parent : option string) (element : Element)
           (level : nat) : string :=
  let tag := get_tag_name element in
  let text := or_empty (etext element) in
  if negb (truthy (strip text)) && negb (mem tag structural_tags)
  then ""
  else render_tag parent element level ++ tail_text element.

End Renderer.

(** [process_xml_tree] on an element that is there.  [parent] is the tag of
    [element.getparent()], when the element has a parent. *)
Fixpoint process_xml_tree (parent : option string) (element : Element) (level : nat)
  {struct element} : string :=
  element_to_markdown_open process_xml_tree parent element level
  ++ (if should_process_children element
      then walk_children process_xml_tree (Some (etag element)) (fun _ => true)
                         (S level) (echildren element)
      else "").

Definition element_to_markdown : option string -> Element -> nat -> string :=
  element_to_markdown_open process_xml_tree.

(** The two entry points with their [None] test. *)
Definition process_xml_tree_opt (parent : option string) (element : option Element)
           (level : nat) : string :=
  match element with
  | None => ""
  | Some e => process_xml_tree parent e level
  end.

Definition element_to_markdown_opt (parent : option string) (element : option Element)
           (level : nat) : string :=
  match element with
  | None => ""
  | Some e => element_to_markdown parent e level
  end.

(** ** The walk with a log of the renderer's calls

    The same two functions, returning next to the text the nodes on which
    [element_to_markdown] was entered, in the order of the calls.  A node is
    named by the positions of the children on the way from the root. *)

Definition path : Type := list nat.

Section RendererLog.

Variable walk : path -> option string -> Element -> nat -> string * list path.

Fixpoint walk_children_log (here : path) (i : nat) (parent : option string)
         (keep : Element -> bool) (level : nat) (cs : list Element)
  : string * list path :=
  match cs with
  | [] => ("", [])
  | child :: cs' =>
      let rest := walk_children_log here (S i) parent keep level cs' in
      if keep child
      then
        let r := walk (here ++ [i])%list parent child level in
        (fst r ++ fst rest, (snd r ++ snd rest)%list)
      else rest
  end.

Fixpoint walk_note_children_log (here : path) (i : nat) (parent : option string)
         (keep : Element -> bool) (level : nat) (cs : list Element)
  : string * list path :=
  match cs with
  | [] => ("", [])
  | child :: cs' =>
      let rest := walk_note_children_log here (S i) parent keep level cs' in
      if keep child
      then
        let r := walk (here ++ [i])%list parent child level in
        ((if truthy (fst r)
          then match blockquote_lines (fst r) with
               | [] => ""
               | ls => join NL ls ++ NL
               end
          else "")
         ++ fst rest,
         (snd r ++ snd rest)%list)
      else rest
  end.

Definition render_section_log (marker : string) (here : path) (element : Element)
           (level : nat) : string * list path :=
  let num := get_child_text element "num" in
  let heading := get_child_text element "heading" in
  let content :=
    walk_children_log here 0 (Some (etag element)) (tag_not_in ["num"; "heading"])
                      (S level) (echildren element) in
  let header := header_of num heading in
  ((if truthy header then NL ++ marker ++ " " ++ header ++ NL ++ NL else "")
   ++ fst content,
   snd content).

Definition render_paragraph_log (prefix : string) (here : path) (element : Element)
           (level : nat) : string * list path :=
  let num := get_child_text element "num" in
  let content_text := get_child_text element "content" in
  let additional_content :=
    walk_children_log here 0 (Some (etag element)) (tag_not_in ["num"; "content"])
                      (S level) (echildren element) in
  let result :=
    (if truthy num then prefix ++ "**" ++ num ++ "** " else "")
    ++ (if truthy content_text then content_text ++ " " else "")
    ++ strip (fst additional_content) in
  (if truthy (strip result) then result ++ NL else result, snd additional_content).

Definition render_note_log (here : path) (element : Element) (level : nat)
  : string * list path :=
  let text := or_empty (etext element) in
  let heading := get_child_text element "heading" in
  let rest :=
    walk_note_children_log here 0 (Some (etag element)) (tag_not_in ["heading"])
                           (S level) (echildren element) in
  ((if truthy heading then "> **" ++ heading ++ "**" ++ NL else "")
   ++ (if truthy (strip text)
       then join NL (map (fun line => "> " ++ line) (split NL (strip text))) ++ NL
       else "")
   ++ fst rest,
   snd rest).

(** The branches that walk children log what the walk logs; the others
    call nothing and are the branches of [render_tag]. *)
Definition render_tag_log (here : path) (parent : option string) (element : Element)
           (level : nat) : string * list path :=
  let tag := get_tag_name element in
  if String.eqb tag "title"
     && match parent with
        | Some ptag => String.eqb (get_tag_name_of ptag) "uscDoc"
        | None => false
        end
  then (render_tag (fun _ _ _ => "") parent element level, [])
  else if String.eqb tag "section" then render_section_log "##" here element level
  else if String.eqb tag "subsection" then render_section_log "###" here element level
  else if String.eqb tag "paragraph" then render_paragraph_log "" here element level
  else if String.eqb tag "subparagraph" then render_paragraph_log "  - " here element level
  else if String.eqb tag "p" then (render_tag (fun _ _ _ => "") parent element level, [])
  else if String.eqb tag "content" || String.eqb tag "chapeau"
  then (render_tag (fun _ _ _ => "") parent element level, [])
  else if String.eqb tag "table"
  then (render_tag (fun _ _ _ => "") parent element level, [])
  else if String.eqb tag "note" || String.eqb tag "notes"
  then render_note_log here element level
  else (render_tag (fun _ _ _ => "") parent element level, []).

Definition element_to_markdown_log (here : path) (parent : option string)
           (element : Element) (level : nat) : string * list path :=
  let tag := get_tag_name element in
  let text := or_empty (etext element) in
  if negb (truthy (strip text)) && negb (mem tag structural_tags)
  then ("", [here])
  else
    let r := render_tag_log here parent element level in
    (fst r ++ tail_text element, here :: snd r).

End RendererLog.

Fixpoint process_xml_tree_log (here : path) (parent : option string) (element : Element)
         (level : nat) {struct element} : string * list path :=
  let r := element_to_markdown_log process_xml_tree_log here parent element level in
  let c :=
    if should_process_children element
    then walk_children_log process_xml_tree_log here 0 (Some (etag element))
                           (fun _ => true) (S level) (echildren element)
    else ("", []) in
  (fst r ++ fst c, (snd r ++ snd c)%list).

(** The nodes the renderer was called on when the tree under [root] is
    converted. *)
Definition renderer_calls (root : Element) : list path :=
  snd (process_xml_tree_log [] None root 0).

(** The node at the end of a path. *)
Fixpoint node_at (e : Element) (p : path) : option Element :=
  match p with
  | [] => Some e
  | i :: p' =>
      match nth_error (echildren e) i with
      | Some c => node_at c p'
      | None => None
      end
  end.

(** The children of [e] that one of the two loops hands to the walker: the
    walker's own loop for the tags outside [skip_children_tags], the loop of
    the renderer's branch for the others. *)
Definition walked_child (e child : Element) : bool :=
  let tag := get_tag_name e in
  if should_process_children e then true
  else if String.eqb tag "section" || String.eqb tag "subsection"
  then tag_not_in ["num"; "heading"] child
  else if String.eqb tag "paragraph" || String.eqb tag "subparagraph"
  then tag_not_in ["num"; "content"] child
  else if String.eqb tag "note" || String.eqb tag "notes"
  then tag_not_in ["heading"] child
  else false.

(** The paths that lead from [e] to a node through walked children only. *)
Fixpoint reached (e : Element) (p : path) : bool :=
  match p with
  | [] => true
  | i :: p' =>
      match nth_error (echildren e) i with
      | Some c => walked_child e c && reached c p'
      | None => false
      end
  end.

Definition path_eq_dec : forall p q : path, {p = q} + {p <> q} :=
  list_eq_dec Nat.eq_dec.

(** [q] names a node at or below the node that [h] names. *)
Definition has_prefix (h q : path) : Prop := exists p, q = (h ++ p)%list.

(** ** Sample trees *)

Definition leaf (tag text : string) : Element := Elem tag None [] (Some text) [] None.

Definition sample_section : Element :=
  Elem "{http://xml.house.gov/schemas/uslm/1.0}section" None [] None
       [leaf "num" (SECT ++ "63"); leaf "heading" "Taxable Income Defined"] None.



Definition sample_main : Element :=
  Elem "main" None [] None [leaf "p" "hi"; leaf "p" "there"] None.

Definition sample_section_content : Element :=
  Elem "{http://xml.house.gov/schemas/uslm/1.0}section" None [] None
       [leaf "num" (SECT ++ "63"); leaf "heading" "Taxable Income Defined";
        leaf "content" " Gross income minus deductions. "] None.

Definition sample_paragraph : Element :=
  Elem "paragraph" None [] None
       [leaf "num" "(1)"; leaf "content" "In general";
        Elem "ref" None [("href", "https://x")] (Some "see note") [] None] None.

Definition sample_namespaced_list : Element :=
  Elem "{http://xml.house.gov/schemas/uslm/1.0}list" None [] None
       [leaf "{http://xml.house.gov/schemas/uslm/1.0}item" "first"] None.



(** A table in the XHTML namespace, once as the default namespace and once
    under the prefix [h]. *)
Definition sample_table_default_namespace : Element :=
  Elem "{http://www.w3.org/1999/xhtml}table" None [] None
       [Elem "{http://www.w3.org/1999/xhtml}tbody" None [] None
             [Elem "{http://www.w3.org/1999/xhtml}tr" None [] None
                   [Elem "{http://www.w3.org/1999/xhtml}td" None [] (Some "1") [] None]
                   None] None] None.



End XmlToMarkdown.

(* ================================================================== *)
(** * The clean-up pass of [convert_xml_to_markdown] *)
(* ================================================================== *)

Module PostProcess.

(** The pattern [\n{3,}]: three newlines or more, as many as there are. *)
Definition newlines3 (s : string) : option (string * nat) :=
  let n := String.length (fst (span is_nl s)) in
  if Nat.leb 3 n then Some (NL ++ NL, n) else None.

(** The pattern [\n\n(#+\s)] with the replacement [\n\1]: two newlines, all
    the hashes that follow (one at least) and one white-space character. *)
Definition blank_before_heading (s : string) : option (string * nat) :=
  match s with
  | String a (String b rest) =>
      if is_nl a && is_nl b
      then
        let '(hashes, after) := span is_hash rest in
        match hashes, after with
        | String _ _, String w _ =>
            if isspace w
            then Some (NL ++ hashes ++ String w "", String.length hashes + 3)
            else None
        | _, _ => None
        end
      else None
  | _ => None
  end.

(** The pattern [ {2,}]: two spaces or more. *)
Definition spaces2 (s : string) : option (string * nat) :=
  let n := String.length (fst (span is_space s)) in
  if Nat.leb 2 n then Some (" ", n) else None.

Definition collapse_newlines (s : string) : string := re_sub newlines3 s.

Definition strip_lines (s : string) : string := join NL (map strip (split NL s)).

Definition tighten_headings (s : string) : string := re_sub blank_before_heading s.

Definition collapse_spaces (s : string) : string := re_sub spaces2 s.

(** The four steps, in the order of the source. *)
Definition postprocess (markdown_content : string) : string :=
  collapse_spaces (tighten_headings (strip_lines (collapse_newlines markdown_content))).

(** ** What the clean-up pass leaves behind *)

(** The pattern matches nowhere in the text. *)
Definition never (m : string -> option (string * nat)) (s : string) : Prop :=
  forall k, m (drop k s) = None.

(** [squeeze d s s']: [s'] is [s] without some of its characters, each of
    them a character that [d] allows to go and that stands in front of a
    copy of itself.  The three substitutions of the pass are of this kind. *)
Inductive squeeze (d : ascii -> bool) : string -> string -> Prop :=
| squeeze_nil : squeeze d "" ""
| squeeze_keep (c : ascii) (s s' : string) :
    squeeze d s s' -> squeeze d (String c s) (String c s')
| squeeze_drop (c : ascii) (s s' : string) :
    d c = true -> squeeze d (String c s) s' -> squeeze d (String c (String c s)) s'.

(** A line of white space only, and not empty. *)
Definition whitespace_only (line : string) : bool :=
  truthy line && negb (truthy (strip line)).

(** A line that is, white space around it apart, made of hashes only. *)
Definition hash_only (line : string) : bool :=
  truthy (strip line) && all_chars is_hash (strip line).

(** Two newlines, hashes and a newline: a blank line before a line of bare
    hashes that is not the last line. *)
Definition blank_before_bare_hashes (s : string) : option (string * nat) :=
  match blank_before_heading s with
  | Some (repl, n) => if is_nl (last_char repl) then Some (repl, n) else None
  | None => None
  end.

(** A line with no white space at either end. *)
Definition is_stripped (line : string) : bool :=
  match line with
  | EmptyString => true
  | String c _ => negb (isspace c) && negb (isspace (last_char line))
  end.

(** A text with no newline in it, as every line is. *)
Definition nl_free (line : string) : bool :=
  all_chars (fun c => negb (is_nl c)) line.

(** The two lines are both empty or both not. *)
Definition same_blank (l l' : string) : Prop := l = "" <-> l' = "".

End PostProcess.

(* ================================================================== *)
(** * src/agent.py *)
(* ================================================================== *)

Module Agent.

Definition tax_terms : list string :=
  ["deduction"; "credit"; "income"; "tax"; "filing"; "return"; "dependent";
   "exemption"; "liability"; "asset"; "charitable"; "business"; "expense";
   "capital"; "gain"; "loss"; "dividend"; "interest"; "retirement"; "IRA";
   "401k"; "estate"; "gift"].

Definition question_words : list string :=
  ["what"; "where"; "when"; "which"; "there"; "their"; "about"].

Definition _extract_key_terms (question : string) : list string :=
  let found_terms :=
    filter (fun term => contains (lower term) (lower question)) tax_terms in
  match found_terms with
  | [] =>
      filter (fun word => Nat.ltb 4 (String.length word)
                          && negb (mem (lower word) question_words))
             (split_ws question)
  | _ => found_terms
  end.

(** The optional group [(?:\(([^)]+)\))?] at the start of [s]: the text
    between the parentheses and the length of the group, when it is there. *)
Definition paren_group (s : string) : option (string * nat) :=
  match s with
  | String "("%char rest =>
      let '(body, after) := span (fun c => negb (Ascii.eqb c ")"%char)) rest in
      match body, after with
      | String _ _, String _ _ => Some (body, String.length body + 2)
      | _, _ => None
      end
  | _ => None
  end.

(** The pattern [§(\d+)(?:\(([^)]+)\))?]: the two groups, the second one
    absent when the parentheses are. *)
Definition section_number (s : string) : option ((string * option string) * nat) :=
  match s with
  | String c rest =>
      if Ascii.eqb c sect
      then
        let '(digits, after) := span isdigit rest in
        match digits with
        | EmptyString => None
        | _ =>
            match paren_group after with
            | Some (sub, n) => Some ((digits, Some sub), 1 + String.length digits + n)
            | None => Some ((digits, None), 1 + String.length digits)
            end
        end
      else None
  | EmptyString => None
  end.

(** The pattern [#{1,4}\s+]: a run of one to four hashes that a white-space
    character follows, with all the white space behind it.  In a longer run
    the match starts at the fourth hash from its end. *)
Definition hashes_space (s : string) : option (string * nat) :=
  let '(hashes, after) := span is_hash s in
  let '(ws, _) := span isspace after in
  if Nat.leb 1 (String.length hashes) && Nat.leb (String.length hashes) 4
     && Nat.leb 1 (String.length ws)
  then Some ("", String.length hashes + String.length ws)
  else None.

(** The pattern [#{1,4}\s+§\d+(?:\([^)]+\))?] *)
Definition hashes_section_number (s : string) : option (string * nat) :=
  let '(hashes, after) := span is_hash s in
  let '(ws, after') := span isspace after in
  if Nat.leb 1 (String.length hashes) && Nat.leb (String.length hashes) 4
     && Nat.leb 1 (String.length ws)
  then
    match section_number after' with
    | Some (_, n) => Some ("", String.length hashes + String.length ws + n)
    | None => None
    end
  else None.

Definition or_empty_sub (g : option string) : string :=
  match g with Some x => x | None => "" end.

Definition _extract_citation (heading : string) : string :=
  match re_search section_number heading with
  | Some (section, group2) =>
      let subsection := or_empty_sub group2 in
      let heading_text := strip (re_sub hashes_section_number heading) in
      "26 USC " ++ SECT ++ section
      ++ (if truthy subsection then "(" ++ subsection ++ ")" else "")
      ++ " [" ++ heading_text ++ "]"
  | None =>
      let clean_heading := strip (re_sub hashes_space heading) in
      "US Tax Code [" ++ clean_heading ++ "]"
  end.

(** The pattern of [_find_relevant_sections], read with [re.DOTALL]:
    [(#{1,4}\s[^\n]+)(?:\n\n)((?:.+?)(?=\n#{1,4}\s|\Z))]. *)

(** The look-ahead [\n#{1,4}\s]. *)
Definition heading_ahead (s : string) : bool :=
  match s with
  | String a rest =>
      is_nl a &&
      (let '(hashes, after) := span is_hash rest in
       Nat.leb 1 (String.length hashes) && Nat.leb (String.length hashes) 4
       && match after with String w _ => isspace w | EmptyString => false end)
  | EmptyString => false
  end.

(** What [.+?] takes behind its first character: the characters up to the
    first place where the look-ahead holds, or up to the end. *)
Fixpoint lazy_until_heading (s : string) : string :=
  match s with
  | EmptyString => EmptyString
  | String c s' => if heading_ahead s then EmptyString else String c (lazy_until_heading s')
  end.

Definition section_block (s : string) : option ((string * string) * nat) :=
  let '(hashes, a1) := span is_hash s in
  if Nat.leb 1 (String.length hashes) && Nat.leb (String.length hashes) 4
  then
    match a1 with
    | String w a2 =>
        if isspace w
        then
          let '(line, a3) := span (fun c => negb (is_nl c)) a2 in
          match line, a3 with
          | String _ _, String _ (String n2 (String c a5)) =>
              if is_nl n2
              then
                let heading := hashes ++ String w line in
                let content := String c (lazy_until_heading a5) in
                Some ((heading, content),
                      String.length heading + 2 + String.length content)
              else None
          | _, _ => None
          end
        else None
    | EmptyString => None
    end
  else None.

Record RelevantSection : Type := mkRelevantSection {
  heading : string;
  content : string;
  citation : string;
  relevance : nat
}.

(** The score of a section: the key terms found in its content or heading. *)
Definition relevance_score (key_terms : list string) (h c : string) : nat :=
  List.length
    (filter (fun term => contains (lower term) (lower c)
                         || contains (lower term) (lower h))
            key_terms).

(** [list.sort(key=relevance, reverse=True)]: stable, the greater first. *)
Fixpoint insert_by_relevance (x : RelevantSection) (l : list RelevantSection)
  : list RelevantSection :=
  match l with
  | [] => [x]
  | y :: l' =>
      if Nat.ltb (relevance x) (relevance y)
      then y :: insert_by_relevance x l'
      else x :: l
  end.

Definition sort_by_relevance (l : list RelevantSection) : list RelevantSection :=
  fold_right insert_by_relevance [] l.

(** The records before they are sorted. *)
Definition scored_sections (key_terms : list string) (sections : list (string * string))
  : list RelevantSection :=
  flat_map
    (fun '(h, c) =>
       let relevance_score := relevance_score key_terms h c in
       if Nat.ltb 0 relevance_score
       then [mkRelevantSection h (take 500 c) (_extract_citation h) relevance_score]
       else [])
    sections.

Definition _find_relevant_sections (tax_code_content question : string)
  : list RelevantSection :=
  let key_terms := _extract_key_terms question in
  let sections := re_findall section_block tax_code_content in
  firstn 3 (sort_by_relevance (scored_sections key_terms sections)).

(** The heading of claim C8 in the claim's own words: the leading hashes
    removed, the rest trimmed. *)
Definition without_leading_hashes (heading : string) : string :=
  strip (snd (span is_hash heading)).

(** The order of the result: a record comes before the records that are not
    more relevant than it is. *)
Definition by_relevance (a b : RelevantSection) : Prop := relevance b <= relevance a.

(** ** Answering *)

Definition not_found_message : string :=
  "I couldn't find specific information about that in the tax code. Please try rephrasing your question or ask something more specific about tax regulations.".

Definition trouble_message : string :=
  "I'm having trouble processing your question right now. Please try again later.".

(** The context of the prompt: heading and the first 300 characters of the
    content of every section, a blank line between two sections. *)
Definition prompt_context (relevant_sections : list RelevantSection) : string :=
  join (NL ++ NL)
       (map (fun section =>
               "Section: " ++ heading section ++ NL ++ take 300 (content section) ++ "...")
            relevant_sections).

Definition build_prompt (question context : string) : string :=
  NL
  ++ "        You are a tax expert assistant. Answer the following tax question using ONLY the provided sections of the US Tax Code." ++ NL
  ++ "        If the answer is not clear from these sections, admit that you don't have enough information." ++ NL
  ++ "        Always cite your sources using the citation format at the end of each relevant section." ++ NL
  ++ NL
  ++ "        Question: " ++ question ++ NL
  ++ NL
  ++ "        Relevant Tax Code Sections:" ++ NL
  ++ "        " ++ context ++ NL
  ++ NL
  ++ "        Answer the question concisely and accurately, citing the specific sections of the tax code that support your answer." ++ NL
  ++ "        ".

(** [any(section["citation"] for section in relevant_sections)] *)
Definition any_citation (relevant_sections : list RelevantSection) : bool :=
  existsb (fun section => truthy (citation section)) relevant_sections.

(** The end of the [try] block: the answer, with a source line when no
    section has a citation and the answer names no source. *)
Definition with_source (relevant_sections : list RelevantSection) (answer : string)
  : string :=
  if negb (any_citation relevant_sections)
  then
    let citation :=
      match relevant_sections with
      | first :: _ => citation first
      | [] => "US Tax Code"
      end in
    if negb (contains "Source:" answer)
    then answer ++ NL ++ NL ++ "Source: " ++ citation
    else answer
  else answer.

Section Answering.

(** The language model, as [_generate_response] sees it: the text of
    [response["message"]["content"]] for a prompt, or nothing when the call
    or the look-up raises. *)
Variable chat : string -> option string.

Definition _generate_response (question : string)
           (relevant_sections : list RelevantSection) : string :=
  match relevant_sections with
  | [] => not_found_message
  | _ =>
      let context := prompt_context relevant_sections in
      let prompt := build_prompt question context in
      match chat prompt with
      | Some answer => with_source relevant_sections answer
      | None => trouble_message
      end
  end.

(** [query], on the agent's tax code and conversation history: the response
    and the history afterwards. *)
Definition query (tax_code_content : string) (conversation_history : list (string * string))
           (question : string) : string * list (string * string) :=
  let history1 := (conversation_history ++ [("user", question)])%list in
  let relevant_sections := _find_relevant_sections tax_code_content question in
  let response := _generate_response question relevant_sections in
  (response, (history1 ++ [("assistant", response)])%list).

End Answering.

(** The file at [tax_code_path] as [_load_tax_code] finds it. *)
Inductive TaxCodeFile : Type :=
| FileMissing
| FileUnreadable
| FileContent (content : string).

Definition _load_tax_code (file : TaxCodeFile) : string :=
  match file with
  | FileMissing => "Tax code document not available."
  | FileUnreadable => "Error loading tax code document."
  | FileContent content => content
  end.

(** The subsection of a citation as it is written: in parentheses, or not
    at all. *)
Definition subsection_text (group2 : option string) : string :=
  match group2 with
  | Some subsection => "(" ++ subsection ++ ")"
  | None => ""
  end.

Definition sample_record : RelevantSection :=
  mkRelevantSection "## Income" "Gross income means all income." "US Tax Code [Income]" 1.

End Agent.

(* ================================================================== *)
(** * src/format_markdown.py *)
(* ================================================================== *)

Module FormatMarkdown.

(** One turn of the loop of [split_by_paragraphs], on the chunks made so far
    and the chunk being filled. *)
Definition add_paragraph (max_chunk_size : Z) (st : list string * string) (para : string)
  : list string * string :=
  let '(chunks, current_chunk) := st in
  if Z.ltb max_chunk_size
           (Z.of_nat (String.length current_chunk) + Z.of_nat (String.length para) + 2)
     && truthy current_chunk
  then ((chunks ++ [current_chunk])%list, para)
  else (chunks,
        (if truthy current_chunk then current_chunk ++ NL ++ NL else current_chunk)
        ++ para).

(** The end of [split_by_paragraphs]: the chunk in hand is added when it is
    not empty. *)
Definition close_chunks (st : list string * string) : list string :=
  let '(chunks, current_chunk) := st in
  if truthy current_chunk then (chunks ++ [current_chunk])%list else chunks.

Definition split_by_paragraphs (text : string) (max_chunk_size : Z) : list string :=
  let paragraphs := split (NL ++ NL) text in
  close_chunks (fold_left (add_paragraph max_chunk_size) paragraphs ([], "")).

End FormatMarkdown.

(* ================================================================== *)
(** * Properties of the string operations *)
(* ================================================================== *)

Import XmlToMarkdown PostProcess Agent FormatMarkdown.

Section StringFacts.

Lemma append_nil_r (s : string) : s ++ "" = s.
Proof. induction s as [|c s IH]; simpl; [reflexivity | now rewrite IH]. Qed.

Lemma append_assoc (a b c : string) : (a ++ b) ++ c = a ++ (b ++ c).
Proof. induction a as [|x a IH]; simpl; [reflexivity | now rewrite IH]. Qed.

Lemma length_append (a b : string) :
  String.length (a ++ b) = String.length a + String.length b.
Proof. induction a as [|x a IH]; simpl; [reflexivity | now rewrite IH]. Qed.

Lemma truthy_false (s : string) : truthy s = false -> s = "".
Proof. destruct s; simpl; [reflexivity | discriminate]. Qed.

Lemma truthy_true (s : string) : truthy s = true -> s <> "".
Proof. destruct s; simpl; [discriminate | intros _ H; discriminate]. Qed.

End StringFacts.

(* ================================================================== *)
(** * The element renderer and the tree walker *)
(* ================================================================== *)

Section RendererFacts.

(** The walker's equation, as the source writes it. *)
Lemma process_xml_tree_eq (parent : option string) (e : Element) (level : nat) :
  process_xml_tree parent e level =
  element_to_markdown parent e level
  ++ (if should_process_children e
      then walk_children process_xml_tree (Some (etag e)) (fun _ => true)
                         (S level) (echildren e)
      else "").
Proof. destruct e; reflexivity. Qed.

(** The tags of the renderer's allow-list hold the walker's container
    tags: a tag outside the first is outside the second. *)
Lemma not_structural_not_container (tag : string) :
  mem tag structural_tags = false -> mem tag skip_children_tags = false.
Proof.
  unfold mem, structural_tags, skip_children_tags; simpl.
  repeat (destruct (String.eqb tag _); simpl; try discriminate);
    reflexivity.
Qed.

(** Nothing in a branch reads the tail of the element it renders. *)
Lemma table_to_markdown_tail tag pre a tx cs tl1 tl2 :
  table_to_markdown (Elem tag pre a tx cs tl1) = table_to_markdown (Elem tag pre a tx cs tl2).
Proof.
  assert (Hh : table_header (Elem tag pre a tx cs tl1)
               = table_header (Elem tag pre a tx cs tl2)) by reflexivity.
  assert (Hb : table_body (Elem tag pre a tx cs tl1)
               = table_body (Elem tag pre a tx cs tl2)) by reflexivity.
  unfold table_to_markdown, soup_find. cbn [filter].
  change (soup_name (Elem tag pre a tx cs tl1)) with (soup_name (Elem tag pre a tx cs tl2)).
  change (soup_descendants (Elem tag pre a tx cs tl1))
    with (soup_descendants (Elem tag pre a tx cs tl2)).
  destruct (String.eqb (soup_name (Elem tag pre a tx cs tl2)) "table");
    [cbn [hd_error]; now rewrite Hh, Hb | reflexivity].
Qed.

Lemma concat_empty_cons (x : string) (l : list string) :
  String.concat "" (x :: l) = x ++ String.concat "" l.
Proof. destruct l; simpl; [now rewrite append_nil_r | reflexivity]. Qed.

(** The loop over the children gives the walks of the children it keeps,
    one after the other. *)
Lemma walk_children_concat walk parent keep level cs :
  walk_children walk parent keep level cs =
  String.concat "" (map (fun child => walk parent child level) (filter keep cs)).
Proof.
  induction cs as [|child cs IH]; [reflexivity|].
  cbn [walk_children filter]. destruct (keep child); [|exact IH].
  cbn [map]. now rewrite concat_empty_cons, IH.
Qed.

Lemma render_tag_tail walk parent tag pre a tx cs tl1 tl2 level :
  render_tag walk parent (Elem tag pre a tx cs tl1) level =
  render_tag walk parent (Elem tag pre a tx cs tl2) level.
Proof.
  unfold render_tag, get_tag_name; simpl.
  rewrite (table_to_markdown_tail tag pre a tx cs tl1 tl2).
  reflexivity.
Qed.

End RendererFacts.

(** C1, as the claim states it, fails: the walker goes into the children of
    a [main] element that has no text, and their text is in the output. *)
Lemma C1_counterexample :
  ~ (forall parent e level,
        truthy (strip (or_empty (etext e))) = false ->
        mem (get_tag_name e) structural_tags = false ->
        process_xml_tree parent e level = "").
Proof.
  intros H.
  specialize (H None sample_main 0 eq_refl eq_refl).
  vm_compute in H. discriminate H.
Qed.

(** C1 (amended): an element with blank text and a tag outside the allow-list
    gets the empty string from the element renderer, and the tree walk of it
    is the tree walk of each of its children, one level down, one after the
    other in document order. *)
Theorem C1_textless_element_walk (parent : option string) (e : Element) (level : nat) :
  truthy (strip (or_empty (etext e))) = false ->
  mem (get_tag_name e) structural_tags = false ->
  element_to_markdown parent e level = ""
  /\ process_xml_tree parent e level =
     String.concat ""
       (map (fun child => process_xml_tree (Some (etag e)) child (S level))
            (echildren e)).
Proof.
  intros Htext Htag.
  assert (Hr : element_to_markdown parent e level = "").
  { unfold element_to_markdown, element_to_markdown_open.
    now rewrite Htext, Htag. }
  split; [exact Hr|].
  rewrite process_xml_tree_eq, Hr.
  unfold should_process_children.
  rewrite (not_structural_not_container _ Htag). cbn [negb append].
  rewrite walk_children_concat. f_equal. f_equal.
  induction (echildren e) as [|c cs IH]; [reflexivity|].
  cbn [filter]. now rewrite IH.
Qed.

Lemma C1_textless_element_walk_witness :
  element_to_markdown None sample_main 0 = ""
  /\ process_xml_tree None sample_main 0 = "hi there ".
Proof. exact (C1_textless_element_walk None sample_main 0 eq_refl eq_refl). Defined.

(** C2, as the claim states it, fails: an [i] element with no text is left
    by the empty-element test before the tail rule, and its tail is lost. *)
Lemma C2_counterexample :
  ~ (forall parent e level tl,
        etail e = Some tl -> truthy (strip tl) = true ->
        exists fragment,
          element_to_markdown parent e level = fragment ++ strip tl ++ " ").
Proof.
  intros H.
  destruct (H None (Elem "i" None [] None [] (Some "more")) 0 "more" eq_refl eq_refl)
    as [fragment Hf].
  vm_compute in Hf.
  destruct fragment; discriminate Hf.
Qed.

(** C2 (amended): for a node with a tail that is not blank, the fragment is
    the fragment of the same node without its tail, then the tail stripped
    and one space, whatever the tag; except that a node the empty-element
    test leaves out (blank text, tag outside the allow-list) gives the empty
    string, tail and all. *)
Theorem C2_tail_suffix (parent : option string) (tag : string)
        (pre : option string) (a : list (string * string)) (tx : option string) (cs : list Element)
        (tl : string) (level : nat) :
  truthy (strip tl) = true ->
  element_to_markdown parent (Elem tag pre a tx cs (Some tl)) level =
  if negb (truthy (strip (or_empty tx)))
     && negb (mem (get_tag_name_of tag) structural_tags)
  then ""
  else element_to_markdown parent (Elem tag pre a tx cs None) level ++ strip tl ++ " ".
Proof.
  intros Htl.
  unfold element_to_markdown, element_to_markdown_open, get_tag_name.
  cbn [etag etext etail].
  destruct (negb (truthy (strip (or_empty tx)))
            && negb (mem (get_tag_name_of tag) structural_tags)); [reflexivity|].
  unfold tail_text; cbn [etail]. rewrite Htl.
  rewrite (render_tag_tail _ parent tag pre a tx cs (Some tl) None).
  now rewrite append_nil_r.
Qed.

Lemma C2_tail_suffix_witness :
  element_to_markdown None (Elem "num" None [] (Some "(a)") [] (Some " and ")) 0 =
  element_to_markdown None (Elem "num" None [] (Some "(a)") [] None) 0 ++ "and" ++ " ".
Proof.
  exact (C2_tail_suffix None "num" None [] (Some "(a)") [] " and " 0 eq_refl).
Defined.

Section SectionFacts.

Lemma element_to_markdown_section (parent : option string) (e : Element) (level : nat) :
  get_tag_name e = "section" ->
  element_to_markdown parent e level =
  render_section process_xml_tree "##" e level ++ tail_text e.
Proof.
  intros Htag.
  unfold element_to_markdown, element_to_markdown_open, render_tag.
  rewrite Htag. cbn. now rewrite andb_false_r.
Qed.

Lemma process_xml_tree_section (parent : option string) (e : Element) (level : nat) :
  get_tag_name e = "section" ->
  process_xml_tree parent e level = element_to_markdown parent e level.
Proof.
  intros Htag. rewrite process_xml_tree_eq.
  unfold should_process_children. rewrite Htag. cbn.
  apply append_nil_r.
Qed.

Lemma get_child_text_in_hit (c : Element) (cs : list Element) (child_tag t : string) :
  get_tag_name c = child_tag -> etext c = Some t -> truthy t = true ->
  get_child_text_in (c :: cs) child_tag = strip t.
Proof.
  intros Htag Htext Ht. cbn [get_child_text_in].
  now rewrite Htag, String.eqb_refl, Htext; cbn [or_empty]; rewrite Ht.
Qed.

Lemma get_child_text_in_other (c : Element) (cs : list Element) (child_tag : string) :
  String.eqb (get_tag_name c) child_tag = false ->
  get_child_text_in (c :: cs) child_tag = get_child_text_in cs child_tag.
Proof. intros Htag. cbn [get_child_text_in]. now rewrite Htag. Qed.

(** A [content] element with a text and no child is its text, stripped,
    and a space. *)
Lemma process_xml_tree_content (parent : option string) (c : Element) (level : nat)
      (tc : string) :
  get_tag_name c = "content" -> etext c = Some tc -> truthy (strip tc) = true ->
  echildren c = [] -> tail_text c = "" ->
  process_xml_tree parent c level = strip tc ++ " ".
Proof.
  intros Htag Htext Htruthy Hleaf Htail.
  rewrite process_xml_tree_eq. unfold should_process_children. rewrite Htag, Hleaf.
  cbn [mem existsb skip_children_tags String.eqb Ascii.eqb Bool.eqb orb negb
       walk_children].
  unfold element_to_markdown, element_to_markdown_open, render_tag.
  rewrite Htag, Htext, Htail. cbn [or_empty]. rewrite Htruthy.
  cbn. now rewrite !append_nil_r.
Qed.

End SectionFacts.

(** C4: a section is rendered as its header line, a level-2 heading made of
    the number, a space and the heading (left out when there is neither),
    then the tree walk one level down of every child that is neither [num]
    nor [heading], one after the other, then its tail; the walker adds
    nothing to it.  With the number [§63], the heading
    [Taxable Income Defined], no other child and no tail, that is the line
    of the claim between a newline and two; with a [content] child behind
    them, the text of that child and a space follow. *)
Theorem C4_section_rendering (parent : option string) (e : Element) (level : nat) :
  get_tag_name e = "section" ->
  let num := get_child_text e "num" in
  let heading := get_child_text e "heading" in
  process_xml_tree parent e level = element_to_markdown parent e level
  /\ element_to_markdown parent e level =
     (if truthy num || truthy heading
      then NL ++ "## " ++ (if truthy num then num ++ " " else "") ++ heading ++ NL ++ NL
      else "")
     ++ String.concat ""
          (map (fun child => process_xml_tree (Some (etag e)) child (S level))
               (filter (fun child =>
                          negb (String.eqb (get_tag_name child) "num"
                                || String.eqb (get_tag_name child) "heading"))
                       (echildren e)))
     ++ tail_text e
  /\ (forall n h : Element,
         echildren e = [n; h] ->
         get_tag_name n = "num" -> etext n = Some (SECT ++ "63") ->
         get_tag_name h = "heading" -> etext h = Some "Taxable Income Defined" ->
         tail_text e = "" ->
         process_xml_tree parent e level =
         NL ++ "## " ++ SECT ++ "63 Taxable Income Defined" ++ NL ++ NL)
  /\ (forall (n h c : Element) (tc : string),
         echildren e = [n; h; c] ->
         get_tag_name n = "num" -> etext n = Some (SECT ++ "63") ->
         get_tag_name h = "heading" -> etext h = Some "Taxable Income Defined" ->
         get_tag_name c = "content" -> etext c = Some tc ->
         truthy (strip tc) = true -> echildren c = [] -> tail_text c = "" ->
         tail_text e = "" ->
         process_xml_tree parent e level =
         NL ++ "## " ++ SECT ++ "63 Taxable Income Defined" ++ NL ++ NL
         ++ strip tc ++ " ").
Proof.
  intros Htag num heading.
  assert (Hgen : element_to_markdown parent e level =
     (if truthy num || truthy heading
      then NL ++ "## " ++ (if truthy num then num ++ " " else "") ++ heading ++ NL ++ NL
      else "")
     ++ String.concat ""
          (map (fun child => process_xml_tree (Some (etag e)) child (S level))
               (filter (fun child =>
                          negb (String.eqb (get_tag_name child) "num"
                                || String.eqb (get_tag_name child) "heading"))
                       (echildren e)))
     ++ tail_text e).
  { rewrite (element_to_markdown_section parent e level Htag).
    unfold render_section, header_of. fold num. fold heading.
    rewrite walk_children_concat.
    rewrite (filter_ext (tag_not_in ["num"; "heading"])
               (fun child => negb (String.eqb (get_tag_name child) "num"
                                   || String.eqb (get_tag_name child) "heading")))
      by (intros child; unfold tag_not_in, mem; cbn [existsb];
          now rewrite orb_false_r).
    rewrite append_assoc. f_equal.
    destruct num as [|c1 num']; destruct heading as [|c2 heading']; cbn;
      rewrite ?append_assoc; reflexivity. }
  assert (Hnum : forall n cs, echildren e = n :: cs -> get_tag_name n = "num" ->
                              etext n = Some (SECT ++ "63") -> num = SECT ++ "63").
  { intros n cs Hcs Hn Htn. unfold num, get_child_text. rewrite Hcs.
    rewrite (get_child_text_in_hit n cs "num" _ Hn Htn eq_refl). reflexivity. }
  assert (Hheading : forall n h cs, echildren e = n :: h :: cs ->
                       get_tag_name n = "num" -> get_tag_name h = "heading" ->
                       etext h = Some "Taxable Income Defined" ->
                       heading = "Taxable Income Defined").
  { intros n h cs Hcs Hn Hh Hth. unfold heading, get_child_text. rewrite Hcs.
    rewrite get_child_text_in_other by (now rewrite Hn).
    rewrite (get_child_text_in_hit h cs "heading" _ Hh Hth eq_refl). reflexivity. }
  split; [now apply process_xml_tree_section|].
  split; [exact Hgen|].
  split.
  - intros n h Hcs Hn Htn Hh Hth Htail.
    rewrite (process_xml_tree_section parent e level Htag), Hgen, Htail.
    rewrite (Hnum n [h] Hcs Hn Htn), (Hheading n h [] Hcs Hn Hh Hth), Hcs.
    cbn [filter]. rewrite Hn, Hh. reflexivity.
  - intros n h c tc Hcs Hn Htn Hh Hth Hc Htc Htruthy Hleaf Htailc Htail.
    rewrite (process_xml_tree_section parent e level Htag), Hgen, Htail.
    rewrite (Hnum n [h; c] Hcs Hn Htn), (Hheading n h [c] Hcs Hn Hh Hth), Hcs.
    cbn [filter]. rewrite Hn, Hh, Hc. cbn [String.eqb Ascii.eqb Bool.eqb orb negb map].
    rewrite (process_xml_tree_content (Some (etag e)) c (S level) tc
               Hc Htc Htruthy Hleaf Htailc).
    cbn [String.concat]. now rewrite !append_nil_r.
Qed.

Lemma C4_section_rendering_witness :
  process_xml_tree None sample_section 0
  = NL ++ "## " ++ SECT ++ "63 Taxable Income Defined" ++ NL ++ NL
  /\ process_xml_tree None sample_section_content 0
     = NL ++ "## " ++ SECT ++ "63 Taxable Income Defined" ++ NL ++ NL
       ++ "Gross income minus deductions. ".
Proof.
  split.
  - exact (proj1 (proj2 (proj2 (C4_section_rendering None sample_section 0 eq_refl)))
                 (leaf "num" (SECT ++ "63")) (leaf "heading" "Taxable Income Defined")
                 eq_refl eq_refl eq_refl eq_refl eq_refl eq_refl).
  - exact (proj2 (proj2 (proj2 (C4_section_rendering None sample_section_content 0
                                                     eq_refl)))
                 (leaf "num" (SECT ++ "63")) (leaf "heading" "Taxable Income Defined")
                 (leaf "content" " Gross income minus deductions. ")
                 " Gross income minus deductions. "
                 eq_refl eq_refl eq_refl eq_refl eq_refl eq_refl eq_refl eq_refl
                 eq_refl eq_refl eq_refl).
Defined.

(* ================================================================== *)
(** * Regular expressions, spans and [strip] *)
(* ================================================================== *)

Section RegexFacts.

Lemma drop_0 (s : string) : drop 0 s = s.
Proof. destruct s; reflexivity. Qed.

Lemma drop_empty (n : nat) : drop n "" = "".
Proof. destruct n; reflexivity. Qed.

Lemma drop_append (a b : string) : drop (String.length a) (a ++ b) = b.
Proof. induction a as [|c a IH]; simpl; [apply drop_0 | exact IH]. Qed.

Lemma drop_drop (n k : nat) (s : string) : drop n (drop k s) = drop (k + n) s.
Proof.
  revert s; induction k as [|k IH]; intros s; simpl.
  - reflexivity.
  - destruct s as [|c s]; [now rewrite drop_empty | apply IH].
Qed.

Lemma length_drop (n : nat) (s : string) :
  String.length (drop n s) = String.length s - n.
Proof.
  revert s; induction n as [|n IH]; intros [|c s]; simpl; try reflexivity.
  apply IH.
Qed.

Variable m : string -> option (string * nat).

Lemma re_sub_from_drop (k : nat) (s : string) :
  re_sub_from m k s = re_sub m (drop k s).
Proof.
  revert k; induction s as [|c s IH]; intros [|k]; try reflexivity.
  simpl. apply IH.
Qed.

(** Where the pattern matches, the replacement is written and the scan goes
    on behind the match. *)
Lemma re_sub_match (c : ascii) (s : string) (repl : string) (n : nat) :
  m (String c s) = Some (repl, n) ->
  re_sub m (String c s) = repl ++ re_sub m (drop (n - 1) s).
Proof.
  intros Hm. unfold re_sub at 1. simpl. rewrite Hm.
  now rewrite re_sub_from_drop.
Qed.

(** Where it does not, the character is copied. *)
Lemma re_sub_copy (c : ascii) (s : string) :
  m (String c s) = None ->
  re_sub m (String c s) = String c (re_sub m s).
Proof. intros Hm. unfold re_sub. simpl. now rewrite Hm. Qed.

Lemma re_sub_empty : re_sub m "" = "".
Proof. reflexivity. Qed.

(** A text in which the pattern matches nowhere is left as it is. *)
Lemma re_sub_no_match (s : string) :
  (forall k, m (drop k s) = None) -> re_sub m s = s.
Proof.
  induction s as [|c s IH]; intros H; [reflexivity|].
  rewrite re_sub_copy by exact (H 0).
  f_equal. apply IH. intros k. exact (H (S k)).
Qed.

End RegexFacts.

Section SpanFacts.

Variable p : ascii -> bool.

Lemma span_append (s : string) : fst (span p s) ++ snd (span p s) = s.
Proof.
  induction s as [|c s IH]; simpl; [reflexivity|].
  destruct (p c); [|reflexivity].
  destruct (span p s) as [a b]; simpl in *. now rewrite IH.
Qed.

Lemma span_all (s : string) : all_chars p (fst (span p s)) = true.
Proof.
  induction s as [|c s IH]; simpl; [reflexivity|].
  destruct (p c) eqn:E; [|reflexivity].
  destruct (span p s) as [a b]; simpl in *. now rewrite E.
Qed.

(** The span of a run of [p] characters followed by something that does
    not start with one. *)
Lemma span_run (a b : string) :
  all_chars p a = true ->
  match b with String c _ => p c = false | EmptyString => True end ->
  span p (a ++ b) = (a, b).
Proof.
  intros Ha Hb. induction a as [|c a IH]; simpl in *.
  - destruct b as [|c b]; simpl; [reflexivity | now rewrite Hb].
  - apply andb_true_iff in Ha as [Hc Ha]. now rewrite Hc, (IH Ha).
Qed.

Lemma span_none (s : string) :
  match s with String c _ => p c = false | EmptyString => True end ->
  span p s = ("", s).
Proof. intros H. exact (span_run "" s eq_refl H). Qed.

End SpanFacts.

Section StripFacts.

Lemma lstrip_span (s : string) : lstrip s = snd (span isspace s).
Proof.
  induction s as [|c s IH]; simpl; [reflexivity|].
  destruct (isspace c); [|reflexivity].
  destruct (span isspace s); simpl in *; exact IH.
Qed.

Lemma lstrip_idem (s : string) : lstrip (lstrip s) = lstrip s.
Proof.
  induction s as [|c s IH]; simpl; [reflexivity|].
  destruct (isspace c) eqn:E; [exact IH|]. simpl. now rewrite E.
Qed.

Lemma strip_lstrip (s : string) : strip (lstrip s) = strip s.
Proof. unfold strip. now rewrite lstrip_idem. Qed.

End StripFacts.

Section CitationFacts.

Lemma isspace_not_hash (w : ascii) : isspace w = true -> is_hash w = false.
Proof.
  unfold is_hash. destruct (Ascii.eqb_spec w hash) as [->|]; [|reflexivity].
  discriminate.
Qed.

(** No hash, no match of [#{1,4}\s+]. *)
Lemma hashes_space_no_hash (s : string) :
  all_chars (fun c => negb (is_hash c)) s = true ->
  forall k, hashes_space (drop k s) = None.
Proof.
  revert s.
  assert (H0 : forall s, all_chars (fun c => negb (is_hash c)) s = true ->
                         hashes_space s = None).
  { intros s Hs. unfold hashes_space.
    rewrite (span_none is_hash s).
    - destruct (span isspace s); reflexivity.
    - destruct s as [|c s]; [exact I|]. simpl in Hs.
      apply andb_true_iff in Hs as [Hc _]. now apply negb_true_iff in Hc. }
  intros s Hs k. apply H0. revert s Hs.
  induction k as [|k IH]; intros s Hs; [now rewrite drop_0|].
  destruct s as [|c s]; [exact Hs|]. simpl in *.
  apply andb_true_iff in Hs as [_ Hs]. now apply IH.
Qed.

Lemma all_chars_lstrip (p : ascii -> bool) (s : string) :
  all_chars p s = true -> all_chars p (lstrip s) = true.
Proof.
  induction s as [|c s IH]; simpl; [easy|].
  intros H. apply andb_true_iff in H as [Hc Hs].
  destruct (isspace c); [now apply IH|]. simpl. now rewrite Hc, Hs.
Qed.

(** A heading of the usual shape: one to four hashes, white space and a
    text with no hash in it.  The substitution leaves the text, without
    the white space in front of it. *)
Lemma re_sub_hashes_space_heading (hashes : string) (w : ascii) (rest : string) :
  all_chars is_hash hashes = true ->
  1 <= String.length hashes <= 4 ->
  isspace w = true ->
  all_chars (fun c => negb (is_hash c)) rest = true ->
  re_sub hashes_space (hashes ++ String w rest) = lstrip rest.
Proof.
  intros Hh Hlen Hw Hrest.
  destruct hashes as [|h hashes']; [simpl in Hlen; lia|].
  assert (Hspan : span is_hash (String h hashes' ++ String w rest)
                  = (String h hashes', String w rest)).
  { apply span_run; [exact Hh | now apply isspace_not_hash]. }
  assert (Hws : String w rest = fst (span isspace (String w rest)) ++ lstrip rest).
  { simpl. rewrite Hw. rewrite lstrip_span.
    pose proof (span_append isspace rest) as Ha.
    destruct (span isspace rest) as [a b]; simpl in *. now rewrite Ha. }
  remember (fst (span isspace (String w rest))) as ws eqn:Ews.
  assert (Hwslen : 1 <= String.length ws).
  { subst ws. simpl. rewrite Hw. destruct (span isspace rest); simpl; lia. }
  assert (Hm : hashes_space (String h hashes' ++ String w rest)
               = Some ("", String.length (String h hashes') + String.length ws)).
  { unfold hashes_space. rewrite Hspan.
    destruct (span isspace (String w rest)) as [a b] eqn:E. simpl in Ews. subst a.
    destruct (Nat.leb_spec 1 (String.length (String h hashes'))); [|lia].
    destruct (Nat.leb_spec (String.length (String h hashes')) 4); [|lia].
    destruct (Nat.leb_spec 1 (String.length ws)); [|lia].
    reflexivity. }
  change (String h hashes' ++ String w rest)
    with (String h (hashes' ++ String w rest)) in Hm |- *.
  rewrite (re_sub_match _ _ _ _ _ Hm). simpl.
  rewrite Nat.sub_0_r.
  replace (drop (String.length hashes' + String.length ws) (hashes' ++ String w rest))
    with (lstrip rest).
  - apply re_sub_no_match. apply hashes_space_no_hash.
    now apply all_chars_lstrip.
  - rewrite <- drop_drop, drop_append.
    rewrite Hws at 1. now rewrite drop_append.
Qed.

End CitationFacts.

(** C8, as the claim states it, fails: the substitution is not tied to the
    start of the heading, so a hash inside the heading text goes as well. *)
Lemma C8_counterexample :
  ~ (forall heading,
        re_search section_number heading = None ->
        _extract_citation heading = "US Tax Code [" ++ without_leading_hashes heading ++ "]").
Proof.
  intros H. specialize (H "# Item # 5" eq_refl).
  vm_compute in H. discriminate H.
Qed.

(** C8 (amended): the heading of the claim gives the citation of the claim;
    a heading with no section number gives [US Tax Code [..]] around the
    heading with every run of one to four hashes before white space taken
    out, white space included, and trimmed; for a heading made of one to
    four hashes, white space and a text with no hash, that is the trimmed
    text, the heading of the claim's words. *)
Theorem C8_citation :
  _extract_citation ("## " ++ SECT ++ "63(c) Standard Deduction")
  = "26 USC " ++ SECT ++ "63(c) [Standard Deduction]"
  /\ (forall heading,
         re_search section_number heading = None ->
         _extract_citation heading
         = "US Tax Code [" ++ strip (re_sub hashes_space heading) ++ "]")
  /\ (forall (hashes : string) (w : ascii) (rest : string),
         all_chars is_hash hashes = true ->
         1 <= String.length hashes <= 4 ->
         isspace w = true ->
         all_chars (fun c => negb (is_hash c)) rest = true ->
         re_search section_number (hashes ++ String w rest) = None ->
         _extract_citation (hashes ++ String w rest)
         = "US Tax Code [" ++ strip rest ++ "]"
         /\ strip rest = without_leading_hashes (hashes ++ String w rest)).
Proof.
  split; [vm_compute; reflexivity|].
  assert (Hgen : forall heading,
         re_search section_number heading = None ->
         _extract_citation heading
         = "US Tax Code [" ++ strip (re_sub hashes_space heading) ++ "]").
  { intros heading Hs. unfold _extract_citation. now rewrite Hs. }
  split; [exact Hgen|].
  intros hashes w rest Hh Hlen Hw Hrest Hs. split.
  - rewrite (Hgen _ Hs), re_sub_hashes_space_heading by assumption.
    now rewrite strip_lstrip.
  - unfold without_leading_hashes.
    rewrite (span_run is_hash hashes (String w rest) Hh (isspace_not_hash w Hw)).
    unfold strip. simpl. now rewrite Hw.
Qed.

Lemma C8_citation_witness :
  _extract_citation "## General Provisions" = "US Tax Code [General Provisions]".
Proof.
  refine (proj1 (proj2 (proj2 C8_citation) "##" " "%char "General Provisions"
                       eq_refl _ eq_refl eq_refl eq_refl)).
  simpl; lia.
Defined.

(* ================================================================== *)
(** * The retrieval layer *)
(* ================================================================== *)

Section RetrievalFacts.

Lemma length_take (n : nat) (s : string) : String.length (take n s) <= n.
Proof.
  revert s; induction n as [|n IH]; intros [|c s]; simpl; try lia.
  specialize (IH s). lia.
Qed.

Lemma insert_by_relevance_Forall (P : RelevantSection -> Prop) x l :
  P x -> Forall P l -> Forall P (insert_by_relevance x l).
Proof.
  intros Hx Hl. induction Hl as [|y l Hy Hl IH]; simpl.
  - now constructor.
  - destruct (Nat.ltb (relevance x) (relevance y)); repeat constructor; assumption.
Qed.

Lemma sort_by_relevance_Forall (P : RelevantSection -> Prop) l :
  Forall P l -> Forall P (sort_by_relevance l).
Proof.
  induction 1 as [|x l Hx Hl IH]; simpl; [constructor|].
  now apply insert_by_relevance_Forall.
Qed.

Lemma insert_by_relevance_sorted x l :
  StronglySorted by_relevance l ->
  StronglySorted by_relevance (insert_by_relevance x l).
Proof.
  induction 1 as [|y l Hs IH Hy]; simpl.
  - repeat constructor.
  - destruct (Nat.ltb_spec (relevance x) (relevance y)) as [Hlt|Hge].
    + constructor; [exact IH|].
      apply insert_by_relevance_Forall; [unfold by_relevance; lia | exact Hy].
    + constructor; [now constructor|].
      constructor; [exact Hge|].
      eapply Forall_impl; [|exact Hy]. unfold by_relevance. intros a Ha. lia.
Qed.

Lemma sort_by_relevance_sorted l : StronglySorted by_relevance (sort_by_relevance l).
Proof.
  induction l as [|x l IH]; simpl; [constructor|].
  now apply insert_by_relevance_sorted.
Qed.

Lemma Forall_firstn {A : Type} (P : A -> Prop) (n : nat) (l : list A) :
  Forall P l -> Forall P (firstn n l).
Proof.
  intros H. revert n. induction H as [|x l Hx Hl IH]; intros [|n]; simpl;
    constructor; auto.
Qed.

Lemma StronglySorted_firstn {A : Type} (R : A -> A -> Prop) (n : nat) (l : list A) :
  StronglySorted R l -> StronglySorted R (firstn n l).
Proof.
  intros H. revert n. induction H as [|x l Hs IH Hx]; intros [|n]; simpl;
    try constructor; auto using Forall_firstn.
Qed.

Lemma scored_sections_Forall (key_terms : list string) (sections : list (string * string)) :
  Forall (fun r =>
            String.length (content r) <= 500
            /\ 0 < relevance r
            /\ exists h c, In (h, c) sections
                           /\ heading r = h /\ content r = take 500 c
                           /\ citation r = _extract_citation h
                           /\ relevance r = relevance_score key_terms h c)
         (scored_sections key_terms sections).
Proof.
  unfold scored_sections. apply Forall_flat_map. apply Forall_forall.
  intros [h c] Hin.
  destruct (Nat.ltb_spec 0 (relevance_score key_terms h c)) as [Hpos|Hzero];
    [|constructor].
  constructor; [|constructor]. cbn [content heading citation relevance].
  split; [apply length_take|]. split; [exact Hpos|].
  exists h, c. repeat split. exact Hin.
Qed.

End RetrievalFacts.

(** C9: the search returns three records at most, the more relevant first,
    each made from a section the pattern found, with the first 500
    characters of its content. *)
Theorem C9_relevant_sections (tax_code_content question : string) :
  let result := _find_relevant_sections tax_code_content question in
  List.length result <= 3
  /\ StronglySorted by_relevance result
  /\ Forall (fun r =>
               String.length (content r) <= 500
               /\ exists h c,
                   In (h, c) (re_findall section_block tax_code_content)
                   /\ heading r = h /\ content r = take 500 c)
            result.
Proof.
  unfold _find_relevant_sections. cbv zeta.
  split; [apply firstn_le_length|].
  split.
  - apply StronglySorted_firstn. apply sort_by_relevance_sorted.
  - apply Forall_firstn, sort_by_relevance_Forall.
    eapply Forall_impl; [|apply scored_sections_Forall].
    intros r (Hlen & _ & h & c & Hin & Hh & Hc & _).
    split; [exact Hlen|]. now exists h, c.
Qed.

(* ================================================================== *)
(** * The paragraph splitter *)
(* ================================================================== *)

Section SplitFacts.

Variable sep : string.
Hypothesis sep_not_empty : sep <> "".

Lemma split_from_drop (k : nat) (s : string) :
  split_from sep k s = split sep (drop k s).
Proof.
  revert k; induction s as [|c s IH]; intros [|k]; try reflexivity.
  simpl. apply IH.
Qed.

Lemma split_not_nil (s : string) : split sep s <> [].
Proof.
  unfold split. induction s as [|c s IH]; simpl; [discriminate|].
  destruct (startswith sep (String c s)); [discriminate|].
  destruct (split_from sep 0 s); [contradiction | discriminate].
Qed.

Lemma startswith_drop (p s : string) :
  startswith p s = true -> s = p ++ drop (String.length p) s.
Proof.
  revert s; induction p as [|a p IH]; intros s H; simpl.
  - reflexivity.
  - destruct s as [|b s]; simpl in H; [discriminate|].
    apply andb_true_iff in H as [Hab H].
    apply Ascii.eqb_eq in Hab. subst b. simpl. f_equal. now apply IH.
Qed.

(** The two equations of [split]. *)
Lemma split_at_sep (c : ascii) (s : string) :
  startswith sep (String c s) = true ->
  split sep (String c s) = "" :: split sep (drop (String.length sep - 1) s).
Proof.
  intros H. unfold split at 1. simpl. rewrite H. now rewrite split_from_drop.
Qed.

Lemma split_copy (c : ascii) (s : string) :
  startswith sep (String c s) = false ->
  split sep (String c s) = cons_head c (split sep s).
Proof. intros H. unfold split. simpl. now rewrite H. Qed.

Lemma join_cons (x : string) (l : list string) :
  l <> [] -> join sep (x :: l) = x ++ sep ++ join sep l.
Proof. destruct l; [contradiction | reflexivity]. Qed.

Lemma join_cons_head (c : ascii) (l : list string) :
  l <> [] -> join sep (cons_head c l) = String c (join sep l).
Proof.
  destruct l as [|x [|y l]]; [contradiction | reflexivity | reflexivity].
Qed.

(** Joining the pieces of a split with the separator gives the text back. *)
Lemma join_split (s : string) : join sep (split sep s) = s.
Proof.
  remember (String.length s) as n eqn:Hn. revert s Hn.
  induction n as [n IH] using lt_wf_ind. intros s Hn.
  destruct s as [|c s]; [reflexivity|].
  destruct (startswith sep (String c s)) eqn:E.
  - rewrite (split_at_sep c s E), join_cons by apply split_not_nil.
    simpl. rewrite (IH (String.length (drop (String.length sep - 1) s))).
    + symmetry. etransitivity; [exact (startswith_drop _ _ E)|].
      destruct sep as [|a sep']; [contradiction|]. simpl. now rewrite Nat.sub_0_r.
    + rewrite length_drop. subst n. simpl. lia.
    + reflexivity.
  - rewrite (split_copy c s E), join_cons_head by apply split_not_nil.
    f_equal. apply (IH (String.length s)); [subst n; simpl; lia | reflexivity].
Qed.

Lemma join_app_cons (a : list string) (x : string) (b : list string) :
  b <> [] -> join sep (a ++ x :: b) = join sep (a ++ [x]) ++ sep ++ join sep b.
Proof.
  intros Hb. induction a as [|y a IH]; simpl app.
  - now rewrite join_cons.
  - rewrite !join_cons; [|destruct a; discriminate|destruct a; discriminate].
    rewrite IH. now rewrite !append_assoc.
Qed.

(** Two pieces side by side are joined as one piece with the separator
    inside. *)
Lemma join_merge (a : list string) (x y : string) (b : list string) :
  join sep (a ++ [x ++ sep ++ y] ++ b) = join sep (a ++ [x; y] ++ b).
Proof.
  induction a as [|z a IH]; simpl app.
  - destruct b as [|w b]; [reflexivity|].
    rewrite !join_cons by discriminate. now rewrite !append_assoc.
  - rewrite !join_cons; [|destruct a; discriminate|destruct a; discriminate].
    simpl app in IH. now rewrite IH.
Qed.

End SplitFacts.

Section ChunkFacts.

Variable max_chunk_size : Z.

Lemma split_by_paragraphs_eq (text : string) :
  split_by_paragraphs text max_chunk_size =
  close_chunks (fold_left (add_paragraph max_chunk_size) (split (NL ++ NL) text) ([], "")).
Proof.
  reflexivity.
Qed.

(** While no paragraph is empty and a chunk is being filled, the chunks
    joined are the chunks so far, the chunk in hand and the paragraphs to
    come, joined. *)
Lemma fold_add_paragraph_join (paragraphs chunks : list string) (current_chunk : string) :
  Forall (fun para => para <> "") paragraphs ->
  current_chunk <> "" ->
  join (NL ++ NL)
       (close_chunks (fold_left (add_paragraph max_chunk_size) paragraphs
                                (chunks, current_chunk)))
  = join (NL ++ NL) (chunks ++ [current_chunk] ++ paragraphs).
Proof.
  intros Hp. revert chunks current_chunk.
  induction Hp as [|para paragraphs Hpara Hp IH]; intros chunks current_chunk Hc.
  - simpl. destruct current_chunk; [contradiction|reflexivity].
  - cbn [fold_left]. unfold add_paragraph at 2.
    destruct current_chunk as [|c0 cur]; [contradiction|]. cbn [truthy].
    destruct (_ && true).
    + rewrite IH by exact Hpara. now rewrite <- app_assoc.
    + rewrite IH by discriminate.
      rewrite append_assoc.
      apply (join_merge (NL ++ NL) chunks (String c0 cur) para paragraphs).
Qed.

End ChunkFacts.

(** C10, as the claim states it, fails: an empty paragraph at the start of
    the text is dropped with the blank line after it. *)
Lemma C10_counterexample :
  ~ (forall (text : string) (max_chunk_size : Z),
        (0 < max_chunk_size)%Z ->
        join (NL ++ NL) (split_by_paragraphs text max_chunk_size) = text).
Proof.
  intros H. specialize (H (NL ++ NL ++ "abc") 5000%Z eq_refl).
  vm_compute in H. discriminate H.
Qed.

(** C10 (amended): when no paragraph of the text is empty (and for the empty
    text), the chunks joined with a blank line are the text, whatever the
    maximum chunk size. *)
Theorem C10_chunks_round_trip (text : string) (max_chunk_size : Z) :
  text = "" \/ Forall (fun para => para <> "") (split (NL ++ NL) text) ->
  join (NL ++ NL) (split_by_paragraphs text max_chunk_size) = text.
Proof.
  intros [->|Hp].
  { rewrite split_by_paragraphs_eq. cbn [split split_from fold_left].
    unfold add_paragraph. cbn [truthy]. now rewrite Bool.andb_false_r. }
  rewrite split_by_paragraphs_eq.
  pose proof (join_split (NL ++ NL) ltac:(discriminate) text) as Hjs.
  destruct (split (NL ++ NL) text) as [|para paragraphs] eqn:E.
  - now apply split_not_nil in E.
  - pose proof (Forall_inv Hp) as Hpara. pose proof (Forall_inv_tail Hp) as Hrest.
    cbn [fold_left]. unfold add_paragraph at 2. cbn [truthy andb].
    rewrite Bool.andb_false_r. cbn [append].
    rewrite fold_add_paragraph_join by assumption.
    exact Hjs.
Qed.

Lemma C10_chunks_round_trip_witness :
  join (NL ++ NL)
       (split_by_paragraphs ("abc" ++ NL ++ NL ++ "def" ++ NL ++ NL ++ "ghi") 9%Z)
  = "abc" ++ NL ++ NL ++ "def" ++ NL ++ NL ++ "ghi".
Proof.
  apply (C10_chunks_round_trip ("abc" ++ NL ++ NL ++ "def" ++ NL ++ NL ++ "ghi") 9%Z).
  right. vm_compute. repeat constructor; discriminate.
Defined.

(* ================================================================== *)
(** * The calls of the renderer during a walk *)
(* ================================================================== *)

Section WalkLog.

(** Induction on a tree, with the property known for the children. *)
Lemma Element_ind' (P : Element -> Prop) :
  (forall tag pre a tx cs tl, Forall P cs -> P (Elem tag pre a tx cs tl)) ->
  forall e, P e.
Proof.
  intros H.
  exact (fix go (e : Element) : P e :=
           match e with
           | Elem tag pre a tx cs tl =>
               H tag pre a tx cs tl
                 ((fix all (l : list Element) : Forall P l :=
                     match l with
                     | [] => Forall_nil P
                     | c :: l' => Forall_cons c (go c) (all l')
                     end) cs)
           end).
Qed.

Variable walk_log : path -> option string -> Element -> nat -> string * list path.
Variable walk : option string -> Element -> nat -> string.

(** The text of the logged loops is the text of the loops. *)
Lemma walk_children_log_text here i parent keep level cs :
  Forall (fun c => forall h p l, fst (walk_log h p c l) = walk p c l) cs ->
  fst (walk_children_log walk_log here i parent keep level cs)
  = walk_children walk parent keep level cs.
Proof.
  intros H. revert i. induction H as [|c cs Hc Hcs IH]; intros i; simpl.
  - reflexivity.
  - destruct (keep c); simpl; now rewrite ?Hc, IH.
Qed.

Lemma walk_note_children_log_text here i parent keep level cs :
  Forall (fun c => forall h p l, fst (walk_log h p c l) = walk p c l) cs ->
  fst (walk_note_children_log walk_log here i parent keep level cs)
  = walk_note_children walk parent keep level cs.
Proof.
  intros H. revert i. induction H as [|c cs Hc Hcs IH]; intros i; simpl.
  - reflexivity.
  - destruct (keep c); simpl; now rewrite ?Hc, IH.
Qed.

Lemma render_tag_log_text here parent e level :
  Forall (fun c => forall h p l, fst (walk_log h p c l) = walk p c l) (echildren e) ->
  fst (render_tag_log walk_log here parent e level) = render_tag walk parent e level.
Proof.
  intros H. unfold render_tag_log, render_tag.
  destruct (String.eqb (get_tag_name e) "title" && _); [reflexivity|].
  destruct (String.eqb (get_tag_name e) "section").
  { unfold render_section_log, render_section. cbn [fst].
    now rewrite walk_children_log_text. }
  destruct (String.eqb (get_tag_name e) "subsection").
  { unfold render_section_log, render_section. cbn [fst].
    now rewrite walk_children_log_text. }
  destruct (String.eqb (get_tag_name e) "paragraph").
  { unfold render_paragraph_log, render_paragraph. cbn [fst].
    now rewrite walk_children_log_text. }
  destruct (String.eqb (get_tag_name e) "subparagraph").
  { unfold render_paragraph_log, render_paragraph. cbn [fst].
    now rewrite walk_children_log_text. }
  destruct (String.eqb (get_tag_name e) "p"); [reflexivity|].
  destruct (String.eqb (get_tag_name e) "content" || String.eqb (get_tag_name e) "chapeau");
    [reflexivity|].
  destruct (String.eqb (get_tag_name e) "table"); [reflexivity|].
  destruct (String.eqb (get_tag_name e) "note" || String.eqb (get_tag_name e) "notes").
  { unfold render_note_log, render_note. cbn [fst].
    now rewrite walk_note_children_log_text. }
  reflexivity.
Qed.

Lemma element_to_markdown_log_text here parent e level :
  Forall (fun c => forall h p l, fst (walk_log h p c l) = walk p c l) (echildren e) ->
  fst (element_to_markdown_log walk_log here parent e level)
  = element_to_markdown_open walk parent e level.
Proof.
  intros H. unfold element_to_markdown_log, element_to_markdown_open.
  destruct (_ && _); [reflexivity|]. cbn [fst].
  now rewrite render_tag_log_text.
Qed.

End WalkLog.

Section WalkCalls.

(** The logged walk gives the text of the walk. *)
Lemma process_xml_tree_log_text (e : Element) :
  forall here parent level,
    fst (process_xml_tree_log here parent e level) = process_xml_tree parent e level.
Proof.
  induction e as [tag pre a tx cs tl IH] using Element_ind'.
  intros here parent level.
  change (process_xml_tree_log here parent (Elem tag pre a tx cs tl) level)
    with (let r := element_to_markdown_log process_xml_tree_log here parent
                                           (Elem tag pre a tx cs tl) level in
          let c := if should_process_children (Elem tag pre a tx cs tl)
                   then walk_children_log process_xml_tree_log here 0 (Some tag)
                                          (fun _ => true) (S level) cs
                   else ("", []) in
          (fst r ++ fst c, (snd r ++ snd c)%list)).
  cbv zeta. cbn [fst].
  rewrite process_xml_tree_eq. unfold element_to_markdown.
  rewrite (element_to_markdown_log_text process_xml_tree_log process_xml_tree)
    by exact IH.
  f_equal. cbn [etag echildren].
  destruct (should_process_children _); [|reflexivity].
  now apply walk_children_log_text.
Qed.

(** The loops agree when they keep the same children. *)
Lemma walk_children_log_keep walk_log here i parent keep keep' level cs :
  (forall c, In c cs -> keep c = keep' c) ->
  walk_children_log walk_log here i parent keep level cs
  = walk_children_log walk_log here i parent keep' level cs.
Proof.
  revert i. induction cs as [|c cs IH]; intros i H; simpl; [reflexivity|].
  rewrite (H c (or_introl eq_refl)), IH; [reflexivity|].
  intros c' Hc'. apply H. now right.
Qed.

Lemma walk_children_log_none walk_log here i parent level cs :
  walk_children_log walk_log here i parent (fun _ => false) level cs = ("", []).
Proof. revert i. induction cs as [|c cs IH]; intros i; simpl; [reflexivity|apply IH]. Qed.

Lemma walk_note_children_log_calls walk_log here i parent keep level cs :
  snd (walk_note_children_log walk_log here i parent keep level cs)
  = snd (walk_children_log walk_log here i parent keep level cs).
Proof.
  revert i. induction cs as [|c cs IH]; intros i; simpl; [reflexivity|].
  destruct (keep c); simpl; now rewrite IH.
Qed.

(** The calls of one walk: the renderer on the node, then the walks of the
    children that [walked_child] names, handed over by the renderer's
    branch or by the walker's loop, never by both. *)
Lemma process_xml_tree_log_calls here parent (e : Element) level :
  snd (process_xml_tree_log here parent e level)
  = here :: snd (walk_children_log process_xml_tree_log here 0 (Some (etag e))
                                   (walked_child e) (S level) (echildren e)).
Proof.
  destruct e as [tag pre a tx cs tl].
  change (process_xml_tree_log here parent (Elem tag pre a tx cs tl) level)
    with (let r := element_to_markdown_log process_xml_tree_log here parent
                                           (Elem tag pre a tx cs tl) level in
          let c := if should_process_children (Elem tag pre a tx cs tl)
                   then walk_children_log process_xml_tree_log here 0 (Some tag)
                                          (fun _ => true) (S level) cs
                   else ("", []) in
          (fst r ++ fst c, (snd r ++ snd c)%list)).
  cbv zeta. cbn [snd etag echildren].
  set (e := Elem tag pre a tx cs tl).
  unfold element_to_markdown_log, render_tag_log, walked_child, should_process_children,
    skip_children_tags, structural_tags, mem.
  cbn [existsb].
  change (get_tag_name e) with (get_tag_name_of tag).
  destruct (String.eqb_spec (get_tag_name_of tag) "section") as [E1|E1].
  { rewrite E1. cbn. rewrite andb_false_r. cbn. now rewrite app_nil_r. }
  destruct (String.eqb_spec (get_tag_name_of tag) "subsection") as [E2|E2].
  { rewrite E2. cbn. rewrite andb_false_r. cbn. now rewrite app_nil_r. }
  destruct (String.eqb_spec (get_tag_name_of tag) "paragraph") as [E3|E3].
  { rewrite E3. cbn. rewrite andb_false_r. cbn. now rewrite app_nil_r. }
  destruct (String.eqb_spec (get_tag_name_of tag) "subparagraph") as [E4|E4].
  { rewrite E4. cbn. rewrite andb_false_r. cbn. now rewrite app_nil_r. }
  destruct (String.eqb_spec (get_tag_name_of tag) "table") as [E5|E5].
  { rewrite E5. cbn. rewrite andb_false_r. cbn.
    now rewrite walk_children_log_none. }
  destruct (String.eqb_spec (get_tag_name_of tag) "list") as [E6|E6].
  { rewrite E6. cbn. rewrite andb_false_r. cbn.
    now rewrite walk_children_log_none. }
  destruct (String.eqb_spec (get_tag_name_of tag) "note") as [E7|E7].
  { rewrite E7. cbn. rewrite andb_false_r. cbn.
    rewrite walk_note_children_log_calls. now rewrite app_nil_r. }
  destruct (String.eqb_spec (get_tag_name_of tag) "notes") as [E8|E8].
  { rewrite E8. cbn. rewrite andb_false_r. cbn.
    rewrite walk_note_children_log_calls. now rewrite app_nil_r. }
  cbn [orb negb].
  destruct (negb _ && negb _); [reflexivity|].
  destruct (String.eqb (get_tag_name_of tag) "title" && _); [reflexivity|].
  destruct (String.eqb (get_tag_name_of tag) "p"); [reflexivity|].
  destruct (String.eqb (get_tag_name_of tag) "content"
            || String.eqb (get_tag_name_of tag) "chapeau"); reflexivity.
Qed.

End WalkCalls.

Section CallCount.

Lemma walk_children_log_prefix walk_log here i parent keep level cs q :
  Forall (fun c => forall h p l q, In q (snd (walk_log h p c l)) -> has_prefix h q) cs ->
  In q (snd (walk_children_log walk_log here i parent keep level cs)) ->
  exists j p, q = (here ++ j :: p)%list /\ i <= j.
Proof.
  intros H. revert i. induction H as [|c cs Hc Hcs IH]; intros i Hin; simpl in Hin.
  - contradiction.
  - assert (Hrest : In q (snd (walk_children_log walk_log here (S i) parent keep level cs))
                    -> exists j p, q = (here ++ j :: p)%list /\ i <= j).
    { intros Hq. destruct (IH _ Hq) as (j & p & -> & Hj). exists j, p. split; [reflexivity|lia]. }
    destruct (keep c); [|now apply Hrest].
    cbn [snd] in Hin. apply in_app_or in Hin as [Hin|Hin]; [|now apply Hrest].
    destruct (Hc _ _ _ _ Hin) as [p ->].
    exists i, p. split; [now rewrite <- app_assoc|lia].
Qed.

Lemma process_xml_tree_log_prefix (e : Element) :
  forall h p l q, In q (snd (process_xml_tree_log h p e l)) -> has_prefix h q.
Proof.
  induction e as [tag pre a tx cs tl IH] using Element_ind'.
  intros h p l q Hin. rewrite process_xml_tree_log_calls in Hin.
  destruct Hin as [<-|Hin].
  - exists []. now rewrite app_nil_r.
  - destruct (walk_children_log_prefix _ _ _ _ _ _ _ _ IH Hin) as (j & p' & -> & _).
    now exists (j :: p').
Qed.

Lemma app_cons_inj (h : path) (i j : nat) (p q : path) :
  (h ++ i :: p = h ++ j :: q)%list -> i = j /\ p = q.
Proof. intros H. apply app_inv_head in H. now inversion H. Qed.

(** In the log of a loop, the paths through the child at position [i] are
    those of the walk of that child, when the loop keeps it. *)
Lemma walk_children_log_count walk_log here k parent keep level cs i p :
  Forall (fun c => forall h p l q, In q (snd (walk_log h p c l)) -> has_prefix h q) cs ->
  count_occ path_eq_dec (snd (walk_children_log walk_log here k parent keep level cs))
            (here ++ i :: p)%list
  = if Nat.leb k i
    then match nth_error cs (i - k) with
         | Some c =>
             if keep c
             then count_occ path_eq_dec (snd (walk_log (here ++ [i])%list parent c level))
                            (here ++ i :: p)%list
             else 0
         | None => 0
         end
    else 0.
Proof.
  intros H. revert k. induction H as [|c cs Hc Hcs IH]; intros k.
  - simpl. destruct (Nat.leb k i); [|reflexivity]. now destruct (i - k).
  - cbn [walk_children_log].
    assert (Hhead : forall k', k' <> i ->
              count_occ path_eq_dec (snd (walk_log (here ++ [k'])%list parent c level))
                        (here ++ i :: p)%list = 0).
    { intros k' Hk. apply count_occ_not_In. intros Hin.
      destruct (Hc _ _ _ _ Hin) as [p' Hp']. rewrite <- app_assoc in Hp'.
      apply app_cons_inj in Hp' as [Hi _]. congruence. }
    destruct (Nat.leb_spec k i) as [Hle|Hlt].
    + destruct (Nat.eq_dec k i) as [->|Hne].
      * rewrite Nat.sub_diag. cbn [nth_error].
        destruct (keep c); cbn [snd]; rewrite ?count_occ_app, IH;
          destruct (Nat.leb_spec (S i) i); try lia; reflexivity.
      * replace (i - k) with (S (i - S k)) by lia. cbn [nth_error].
        destruct (keep c); cbn [snd]; rewrite ?count_occ_app, ?Hhead, IH by exact Hne;
          destruct (Nat.leb_spec (S k) i); try lia; reflexivity.
    + destruct (keep c); cbn [snd]; rewrite ?count_occ_app, ?Hhead, IH by lia;
        destruct (Nat.leb_spec (S k) i); try lia; reflexivity.
Qed.

(** The renderer is called once on a node the walk reaches, and on no
    other. *)
Lemma process_xml_tree_log_count (e : Element) :
  forall here parent level p,
    count_occ path_eq_dec (snd (process_xml_tree_log here parent e level)) (here ++ p)%list
    = if reached e p then 1 else 0.
Proof.
  induction e as [tag pre a tx cs tl IH] using Element_ind'.
  intros here parent level p. rewrite process_xml_tree_log_calls.
  assert (Hpre : Forall (fun c => forall h p l q,
                   In q (snd (process_xml_tree_log h p c l)) -> has_prefix h q) cs).
  { apply Forall_forall. intros c _. apply process_xml_tree_log_prefix. }
  destruct p as [|i p].
  - rewrite app_nil_r, count_occ_cons_eq by reflexivity. cbn [reached]. f_equal.
    apply count_occ_not_In. intros Hin.
    destruct (walk_children_log_prefix _ _ _ _ _ _ _ _ Hpre Hin) as (j & p' & Hq & _).
    apply (f_equal (@List.length nat)) in Hq. rewrite length_app in Hq. simpl in Hq. lia.
  - rewrite count_occ_cons_neq.
    2:{ intros Hq. apply (f_equal (@List.length nat)) in Hq.
        rewrite length_app in Hq. simpl in Hq. lia. }
    cbn [etag echildren].
    rewrite (walk_children_log_count _ _ _ _ _ _ _ _ _ Hpre).
    cbn [Nat.leb]. rewrite Nat.sub_0_r. cbn [reached echildren].
    destruct (nth_error cs i) as [c|] eqn:Ec; [|reflexivity].
    destruct (walked_child (Elem tag pre a tx cs tl) c); [|reflexivity].
    cbn [andb].
    replace (here ++ i :: p)%list with ((here ++ [i]) ++ p)%list
      by now rewrite <- app_assoc.
    apply nth_error_In in Ec. rewrite Forall_forall in IH.
    apply (IH c Ec).
Qed.

End CallCount.

(** C3, as the claim states it, fails: the renderer is never called on the
    [num] child of a section; the section reads the number itself. *)
Lemma C3_counterexample :
  ~ (forall (root : Element) (p : path) (e : Element),
        node_at root p = Some e ->
        count_occ path_eq_dec (renderer_calls root) p = 1).
Proof.
  intros H.
  specialize (H sample_section [0] (leaf "num" (SECT ++ "63")) eq_refl).
  vm_compute in H. discriminate H.
Qed.

(** C3 (amended): no node is rendered twice.  The renderer is called once on
    every node that is reached from the root through walked children, and
    never on another node; the children of a node are walked by the walker
    when the node's tag is outside the container set, and otherwise by the
    node's own branch, which leaves out [num] and [heading] (section,
    subsection), [num] and [content] (paragraph, subparagraph), [heading]
    (note, notes), and every child of a table or a list.  An absent node
    gives the empty string. *)
Theorem C3_rendered_at_most_once (root : Element) :
  (forall p : path,
      count_occ path_eq_dec (renderer_calls root) p = if reached root p then 1 else 0)
  /\ NoDup (renderer_calls root)
  /\ fst (process_xml_tree_log [] None root 0) = process_xml_tree None root 0
  /\ (should_process_children root = true <->
      ~ In (get_tag_name root) skip_children_tags)
  /\ process_xml_tree_opt None None 0 = "".
Proof.
  assert (Hcount : forall p : path,
      count_occ path_eq_dec (renderer_calls root) p = if reached root p then 1 else 0).
  { intros p. exact (process_xml_tree_log_count root [] None 0 p). }
  split; [exact Hcount|].
  split.
  { apply (NoDup_count_occ path_eq_dec). intros p. rewrite Hcount.
    destruct (reached root p); lia. }
  split; [apply process_xml_tree_log_text|].
  split; [|reflexivity].
  unfold should_process_children, mem. rewrite negb_true_iff.
  split.
  - intros Hf Hin.
    assert (Ht : existsb (String.eqb (get_tag_name root)) skip_children_tags = true).
    { apply existsb_exists. exists (get_tag_name root).
      split; [exact Hin | apply String.eqb_refl]. }
    congruence.
  - intros Hnot. apply not_true_is_false. intros Ht.
    apply existsb_exists in Ht as (x & Hin & Hx).
    apply String.eqb_eq in Hx. subst x. exact (Hnot Hin).
Qed.

(* ================================================================== *)
(** * The clean-up pass applied twice *)
(* ================================================================== *)

Section TakeFacts.

Lemma take_append (a b : string) : take (String.length a) (a ++ b) = a.
Proof. induction a as [|c a IH]; simpl; [now destruct b | now rewrite IH]. Qed.

Lemma take_drop (n : nat) (s : string) : take n s ++ drop n s = s.
Proof.
  revert s; induction n as [|n IH]; intros [|c s]; simpl; try reflexivity.
  now rewrite IH.
Qed.

Lemma span_take (p : ascii -> bool) (s : string) :
  take (String.length (fst (span p s))) s = fst (span p s).
Proof. rewrite <- (span_append p s) at 2. apply take_append. Qed.

Lemma span_drop (p : ascii -> bool) (s : string) :
  drop (String.length (fst (span p s))) s = snd (span p s).
Proof. rewrite <- (span_append p s) at 2. apply drop_append. Qed.

(** What follows a span does not start with a character of the span. *)
Lemma span_snd_head (p : ascii -> bool) (s : string) :
  match snd (span p s) with String c _ => p c = false | EmptyString => True end.
Proof.
  induction s as [|c s IH]; simpl; [exact I|].
  destruct (p c) eqn:E; [|simpl; exact E].
  destruct (span p s); simpl in *; exact IH.
Qed.

Lemma span_cons_true (p : ascii -> bool) (c : ascii) (s : string) :
  p c = true -> span p (String c s) = (String c (fst (span p s)), snd (span p s)).
Proof. intros H. simpl. rewrite H. now destruct (span p s). Qed.

Lemma span_cons_false (p : ascii -> bool) (c : ascii) (s : string) :
  p c = false -> span p (String c s) = ("", String c s).
Proof. intros H. simpl. now rewrite H. Qed.

End TakeFacts.

Section NeverFacts.

Variable m : string -> option (string * nat).

Lemma never_cons (c : ascii) (s : string) :
  never m (String c s) <-> m (String c s) = None /\ never m s.
Proof.
  split.
  - intros H. split; [exact (H 0)|]. intros k. exact (H (S k)).
  - intros [H0 H] [|k]; [exact H0 | exact (H k)].
Qed.

Lemma never_drop (n : nat) (s : string) : never m s -> never m (drop n s).
Proof. intros H k. rewrite drop_drop. apply H. Qed.

Lemma never_fixed (s : string) : never m s -> re_sub m s = s.
Proof. apply re_sub_no_match. Qed.

(** The pattern matches nowhere in [a ++ b] when it does not match at the
    places of [a] and matches nowhere in [b]. *)
Lemma never_app (a b : string) :
  (forall k, k < String.length a -> m (drop k (a ++ b)) = None) ->
  never m b -> never m (a ++ b).
Proof.
  intros Ha Hb k. destruct (Nat.lt_ge_cases k (String.length a)) as [Hlt|Hge].
  - now apply Ha.
  - replace k with (String.length a + (k - String.length a)) by lia.
    rewrite <- drop_drop, drop_append. apply Hb.
Qed.

End NeverFacts.

Section SqueezeFacts.

Variable d : ascii -> bool.

Lemma squeeze_refl (s : string) : squeeze d s s.
Proof. induction s; constructor; assumption. Qed.

Lemma squeeze_app (a a' b b' : string) :
  squeeze d a a' -> squeeze d b b' -> squeeze d (a ++ b) (a' ++ b').
Proof.
  intros Ha Hb. induction Ha as [|c s s' _ IH|c s s' Hd _ IH]; simpl.
  - exact Hb.
  - now constructor.
  - now constructor.
Qed.

Lemma squeeze_empty_l (s' : string) : squeeze d "" s' -> s' = "".
Proof. intros H. now inversion H. Qed.

(** A squeezed text starts with the character the text starts with. *)
Lemma squeeze_head (s s' : string) :
  squeeze d s s' ->
  match s, s' with
  | EmptyString, EmptyString => True
  | String c _, String c' _ => c = c'
  | _, _ => False
  end.
Proof.
  intros H. induction H as [|c s s' _ _|c s s' _ _ IH]; simpl in *; auto.
Qed.

Lemma squeeze_last (s s' : string) :
  squeeze d s s' -> last_char s = last_char s'.
Proof.
  intros H. induction H as [|c s s' H IH|c s s' _ H IH].
  - reflexivity.
  - pose proof (squeeze_head _ _ H) as Hh.
    destruct s as [|x s], s' as [|x' s']; try contradiction; [reflexivity|].
    exact IH.
  - exact IH.
Qed.

(** The places of the squeezed text are places of the text. *)
Lemma squeeze_suffix (s s' : string) :
  squeeze d s s' -> forall k, exists j, squeeze d (drop j s) (drop k s').
Proof.
  intros H. induction H as [|c s s' H IH|c s s' Hd H IH]; intros k.
  - exists 0. rewrite (drop_empty k). apply squeeze_nil.
  - destruct k as [|k].
    + exists 0. now constructor.
    + destruct (IH k) as [j Hj]. now exists (S j).
  - destruct (IH k) as [j Hj]. now exists (S j).
Qed.

(** A run at the start of the squeezed text comes from a run at the start of
    the text that is as long at least, and what follows the one is squeezed
    from what follows the other. *)
Lemma squeeze_span (p : ascii -> bool) (s s' : string) :
  squeeze d s s' ->
  String.length (fst (span p s')) <= String.length (fst (span p s))
  /\ (fst (span p s) = "" -> fst (span p s') = "")
  /\ squeeze d (snd (span p s)) (snd (span p s')).
Proof.
  intros H. induction H as [|c s s' H IH|c s s' Hd H IH].
  - simpl. repeat split; auto. constructor.
  - destruct (p c) eqn:E.
    + rewrite !span_cons_true by exact E. simpl.
      destruct IH as (IH1 & _ & IH3). repeat split; [lia|discriminate|exact IH3].
    + rewrite !span_cons_false by exact E. simpl.
      repeat split; auto. now constructor.
  - destruct (p c) eqn:E.
    + rewrite (span_cons_true p c (String c s)) by exact E.
      rewrite (span_cons_true p c s) in * by exact E. simpl in *.
      destruct IH as (IH1 & IH2 & IH3). repeat split; [lia|discriminate|exact IH3].
    + rewrite (span_cons_false p c (String c s)) by exact E.
      rewrite (span_cons_false p c s) in IH by exact E. simpl in *.
      destruct IH as (IH1 & IH2 & IH3). repeat split; [lia|exact IH2|].
      now constructor.
Qed.

(** [re.sub] squeezes when each replacement is squeezed from its match. *)
Lemma re_sub_squeeze (m : string -> option (string * nat)) :
  (forall t repl n, m t = Some (repl, n) -> 1 <= n /\ squeeze d (take n t) repl) ->
  forall s, squeeze d s (re_sub m s).
Proof.
  intros Hm s.
  remember (String.length s) as len eqn:Hlen. revert s Hlen.
  induction len as [len IH] using lt_wf_ind. intros s Hlen.
  destruct s as [|c s]; [constructor|].
  destruct (m (String c s)) as [[repl n]|] eqn:E.
  - rewrite (re_sub_match m c s repl n E).
    destruct (Hm _ _ _ E) as [Hn Hsq].
    rewrite <- (take_drop n (String c s)) at 1.
    apply squeeze_app; [exact Hsq|].
    destruct n as [|n]; [lia|]. simpl. rewrite Nat.sub_0_r.
    apply (IH (String.length (drop n s))); [|reflexivity].
    rewrite length_drop. subst len. simpl. lia.
  - rewrite (re_sub_copy m c s E). constructor.
    apply (IH (String.length s)); [subst len; simpl; lia | reflexivity].
Qed.

(** A property of the places of a text that squeezing cannot bring about
    stays away from the squeezed text. *)
Lemma never_squeeze (m : string -> option (string * nat)) (s s' : string) :
  (forall t t', squeeze d t t' -> m t' <> None -> exists j, m (drop j t) <> None) ->
  squeeze d s s' -> never m s -> never m s'.
Proof.
  intros Hm Hsq Hs k.
  destruct (squeeze_suffix _ _ Hsq k) as [j Hj].
  destruct (m (drop k s')) eqn:E; [|reflexivity].
  destruct (Hm _ _ Hj) as [j' Hj']; [congruence|].
  exfalso. apply Hj'. rewrite drop_drop. apply Hs.
Qed.

End SqueezeFacts.

Section RunFacts.

Variable p : ascii -> bool.
Variable x : ascii.
Hypothesis p_only : forall c, p c = true -> c = x.
Hypothesis p_x : p x = true.

Lemma all_chars_repeat (a : string) :
  all_chars p a = true -> a = repeat_char (String.length a) x.
Proof.
  induction a as [|c a IH]; simpl; [reflexivity|].
  intros H. apply andb_true_iff in H as [Hc Ha].
  now rewrite (p_only c Hc), <- IH.
Qed.

(** The text is its first run of [x], then the rest. *)
Lemma span_repeat (s : string) :
  s = repeat_char (String.length (fst (span p s))) x ++ snd (span p s).
Proof.
  rewrite <- (all_chars_repeat _ (span_all p s)). symmetry. apply span_append.
Qed.

Lemma span_repeat_app (n : nat) (r : string) :
  match r with String c _ => p c = false | EmptyString => True end ->
  span p (repeat_char n x ++ r) = (repeat_char n x, r).
Proof.
  intros Hr. apply span_run; [|exact Hr].
  induction n as [|n IH]; simpl; [reflexivity|]. now rewrite p_x, IH.
Qed.

Lemma length_repeat_char (n : nat) : String.length (repeat_char n x) = n.
Proof. induction n; simpl; congruence. Qed.

Lemma drop_repeat (k n : nat) (r : string) :
  k <= n -> drop k (repeat_char n x ++ r) = repeat_char (n - k) x ++ r.
Proof.
  revert n; induction k as [|k IH]; intros n Hk.
  - now rewrite Nat.sub_0_r.
  - destruct n as [|n]; [lia|]. simpl. apply IH. lia.
Qed.

Variable d : ascii -> bool.
Hypothesis d_x : d x = true.

(** A run is squeezed to a shorter run that is not empty. *)
Lemma squeeze_repeat (n k : nat) :
  1 <= k <= n -> squeeze d (repeat_char n x) (repeat_char k x).
Proof.
  revert k. induction n as [|n IH]; intros k Hk; [lia|].
  destruct (Nat.eq_dec k (S n)) as [->|Hne]; [apply squeeze_refl|].
  destruct n as [|n]; [lia|].
  simpl. apply squeeze_drop; [exact d_x|].
  apply (IH k). lia.
Qed.

End RunFacts.

Section MatcherFacts.

Lemma is_nl_only (c : ascii) : is_nl c = true -> c = nl.
Proof. apply Ascii.eqb_eq. Qed.

Lemma is_space_only (c : ascii) : is_space c = true -> c = space.
Proof. apply Ascii.eqb_eq. Qed.

Lemma newlines3_Some (t repl : string) (n : nat) :
  newlines3 t = Some (repl, n) ->
  repl = NL ++ NL /\ n = String.length (fst (span is_nl t)) /\ 3 <= n.
Proof.
  unfold newlines3.
  destruct (Nat.leb_spec 3 (String.length (fst (span is_nl t)))) as [Hle|Hlt];
    [|discriminate].
  intros H. inversion H. subst. auto.
Qed.

Lemma newlines3_None (t : string) :
  newlines3 t = None <-> String.length (fst (span is_nl t)) < 3.
Proof.
  unfold newlines3.
  destruct (Nat.leb_spec 3 (String.length (fst (span is_nl t)))); split;
    intros; try discriminate; try lia; reflexivity.
Qed.

Lemma spaces2_Some (t repl : string) (n : nat) :
  spaces2 t = Some (repl, n) ->
  repl = " " /\ n = String.length (fst (span is_space t)) /\ 2 <= n.
Proof.
  unfold spaces2.
  destruct (Nat.leb_spec 2 (String.length (fst (span is_space t)))) as [Hle|Hlt];
    [|discriminate].
  intros H. inversion H. subst. auto.
Qed.

Lemma spaces2_None (t : string) :
  spaces2 t = None <-> String.length (fst (span is_space t)) < 2.
Proof.
  unfold spaces2.
  destruct (Nat.leb_spec 2 (String.length (fst (span is_space t)))); split;
    intros; try discriminate; try lia; reflexivity.
Qed.

(** The shape of a match of [\n\n(#+\s)]. *)
Lemma blank_before_heading_Some (t repl : string) (n : nat) :
  blank_before_heading t = Some (repl, n) ->
  exists hashes w after,
    t = String nl (String nl (hashes ++ String w after))
    /\ span is_hash (hashes ++ String w after) = (hashes, String w after)
    /\ 1 <= String.length hashes /\ isspace w = true
    /\ repl = String nl (hashes ++ String w "")
    /\ n = String.length hashes + 3.
Proof.
  unfold blank_before_heading.
  destruct t as [|a [|b rest]]; try discriminate.
  destruct (is_nl a) eqn:Ea; [|discriminate].
  destruct (is_nl b) eqn:Eb; [|discriminate]. cbn [andb].
  apply is_nl_only in Ea, Eb. subst a b.
  pose proof (span_append is_hash rest) as Happ.
  destruct (span is_hash rest) as [hashes after] eqn:Es. cbn [fst snd] in Happ.
  destruct hashes as [|h hashes]; [discriminate|].
  destruct after as [|w after]; [discriminate|].
  destruct (isspace w) eqn:Ew; [|discriminate].
  intros H. inversion H. subst repl n.
  exists (String h hashes), w, after.
  rewrite Happ. repeat split; try assumption; try reflexivity. simpl. lia.
Qed.

Lemma blank_before_heading_intro (n : nat) (w : ascii) (after : string) :
  1 <= n -> isspace w = true ->
  blank_before_heading (String nl (String nl (repeat_char n hash ++ String w after)))
  = Some (String nl (repeat_char n hash ++ String w ""), n + 3).
Proof.
  intros Hn Hw. unfold blank_before_heading. cbn [is_nl andb].
  change (Ascii.eqb nl nl) with true. cbn [andb].
  rewrite (span_repeat_app is_hash hash (Ascii.eqb_refl hash) n (String w after)
             (isspace_not_hash w Hw)).
  destruct n as [|n]; [lia|]. cbn [repeat_char]. rewrite Hw.
  cbn [String.length]. now rewrite (length_repeat_char hash n).
Qed.

End MatcherFacts.

Section StepFacts.

Lemma span_snd_nil (p : ascii -> bool) (s : string) :
  fst (span p (snd (span p s))) = "".
Proof.
  rewrite (span_none p (snd (span p s)) (span_snd_head p s)). reflexivity.
Qed.

(** Each substitution of the pass is a squeeze. *)
Lemma collapse_newlines_squeeze (s : string) : squeeze is_nl s (collapse_newlines s).
Proof.
  apply re_sub_squeeze. intros t repl n H.
  apply newlines3_Some in H as (-> & -> & Hn). split; [lia|].
  rewrite span_take.
  rewrite (all_chars_repeat is_nl nl is_nl_only _ (span_all is_nl t)).
  apply (squeeze_repeat nl is_nl eq_refl _ 2). lia.
Qed.

Lemma collapse_spaces_squeeze (s : string) : squeeze is_space s (collapse_spaces s).
Proof.
  apply re_sub_squeeze. intros t repl n H.
  apply spaces2_Some in H as (-> & -> & Hn). split; [lia|].
  rewrite span_take.
  rewrite (all_chars_repeat is_space space is_space_only _ (span_all is_space t)).
  apply (squeeze_repeat space is_space eq_refl _ 1). lia.
Qed.

Lemma tighten_headings_squeeze (s : string) : squeeze is_nl s (tighten_headings s).
Proof.
  apply re_sub_squeeze. intros t repl n H.
  apply blank_before_heading_Some in H
    as (hashes & w & after & -> & _ & Hh & _ & -> & ->).
  split; [lia|].
  replace (String.length hashes + 3) with (S (S (String.length (hashes ++ String w ""))))
    by (rewrite length_append; simpl; lia).
  cbn [take].
  replace (hashes ++ String w after) with ((hashes ++ String w "") ++ after)
    by now rewrite append_assoc.
  rewrite take_append.
  apply squeeze_drop; [reflexivity | apply squeeze_refl].
Qed.

Variable d : ascii -> bool.

(** Squeezing makes no run of three newlines, no run of two spaces and no
    blank line before a heading that was not there. *)
Lemma squeeze_newlines3 (t t' : string) :
  squeeze d t t' -> newlines3 t' <> None -> newlines3 t <> None.
Proof.
  intros Hsq Hm Hn. apply Hm. apply newlines3_None. apply newlines3_None in Hn.
  pose proof (squeeze_span d is_nl _ _ Hsq) as (Hlen & _). lia.
Qed.

Lemma squeeze_spaces2 (t t' : string) :
  squeeze d t t' -> spaces2 t' <> None -> spaces2 t <> None.
Proof.
  intros Hsq Hm Hn. apply Hm. apply spaces2_None. apply spaces2_None in Hn.
  pose proof (squeeze_span d is_space _ _ Hsq) as (Hlen & _). lia.
Qed.

Lemma squeeze_blank_before_heading (t t' : string) :
  squeeze d t t' -> blank_before_heading t' <> None ->
  2 <= String.length (fst (span is_nl t))
  /\ blank_before_heading (drop (String.length (fst (span is_nl t)) - 2) t) <> None.
Proof.
  intros Hsq Hm.
  destruct (blank_before_heading t') as [[repl n]|] eqn:E; [clear Hm|congruence].
  apply blank_before_heading_Some in E
    as (hashes & w & after & -> & Hspan & Hh & Hw & _ & _).
  pose proof (squeeze_span d is_nl _ _ Hsq) as (Hlen & _ & Hrest).
  assert (Hnl : span is_nl (String nl (String nl (hashes ++ String w after)))
                = (NL ++ NL, hashes ++ String w after)).
  { apply (span_run is_nl (NL ++ NL)); [reflexivity|].
    destruct hashes as [|h hashes]; [simpl in Hh; lia|].
    simpl in Hspan. destruct (is_hash h) eqn:Eh; [|discriminate].
    apply Ascii.eqb_eq in Eh. now subst h. }
  rewrite Hnl in Hlen, Hrest. cbn [fst snd] in Hlen, Hrest. simpl in Hlen.
  split; [exact Hlen|].
  set (r := snd (span is_nl t)) in *.
  pose proof (squeeze_span d is_hash _ _ Hrest) as (Hlen2 & _ & Hrest2).
  rewrite Hspan in Hlen2, Hrest2. cbn [fst snd] in Hlen2, Hrest2.
  pose proof (squeeze_head d _ _ Hrest2) as Hhead.
  destruct (snd (span is_hash r)) as [|w' after'] eqn:Er; [contradiction|]. subst w'.
  set (m := String.length (fst (span is_nl t))) in *.
  assert (Ht : drop (m - 2) t = String nl (String nl r)).
  { pose proof (span_repeat is_nl nl is_nl_only t) as Hs. fold m r in Hs.
    rewrite Hs, (drop_repeat nl) by lia.
    replace (m - (m - 2)) with 2 by lia. reflexivity. }
  rewrite Ht.
  rewrite (span_repeat is_hash hash (fun c => proj1 (Ascii.eqb_eq c hash)) r), Er.
  rewrite blank_before_heading_intro; [discriminate | lia | exact Hw].
Qed.

Lemma never_newlines3_squeeze (s s' : string) :
  squeeze d s s' -> never newlines3 s -> never newlines3 s'.
Proof.
  apply never_squeeze. intros t t' Hsq Hm. exists 0.
  now apply (squeeze_newlines3 t t').
Qed.

Lemma never_blank_before_heading_squeeze (s s' : string) :
  squeeze d s s' -> never blank_before_heading s -> never blank_before_heading s'.
Proof.
  apply never_squeeze. intros t t' Hsq Hm.
  eexists. exact (proj2 (squeeze_blank_before_heading t t' Hsq Hm)).
Qed.

End StepFacts.

Section StepResults.

(** After the first step there is no run of three newlines. *)
Lemma collapse_newlines_never (s : string) : never newlines3 (collapse_newlines s).
Proof.
  remember (String.length s) as len eqn:Hlen. revert s Hlen.
  induction len as [len IH] using lt_wf_ind. intros s Hlen.
  destruct s as [|c s]; [intros k; now rewrite drop_empty|].
  destruct (newlines3 (String c s)) as [[repl n]|] eqn:E.
  - unfold collapse_newlines. rewrite (re_sub_match _ c s repl n E).
    apply newlines3_Some in E as (-> & Hn & Hn3).
    replace (drop (n - 1) s) with (snd (span is_nl (String c s))).
    2:{ rewrite <- span_drop, <- Hn. destruct n; [lia|]. simpl. now rewrite Nat.sub_0_r. }
    set (r := snd (span is_nl (String c s))).
    assert (Hr : fst (span is_nl (re_sub newlines3 r)) = "").
    { apply (squeeze_span is_nl is_nl _ _ (collapse_newlines_squeeze r)).
      apply span_snd_nil. }
    assert (Hrec : never newlines3 (re_sub newlines3 r)).
    { apply (IH (String.length r)); [|reflexivity].
      unfold r. rewrite <- span_drop, length_drop, <- Hn. subst len.
      cbn [String.length]. lia. }
    cbn [NL append]. apply never_cons. split.
    { apply newlines3_None. rewrite !span_cons_true by reflexivity. cbn [fst snd].
      rewrite Hr. simpl. lia. }
    apply never_cons. split; [|exact Hrec].
    apply newlines3_None. rewrite !span_cons_true by reflexivity. cbn [fst snd].
    rewrite Hr. simpl. lia.
  - unfold collapse_newlines. rewrite (re_sub_copy _ c s E).
    apply never_cons. split.
    + apply newlines3_None. apply newlines3_None in E.
      destruct (is_nl c) eqn:Ec.
      * rewrite span_cons_true in * by exact Ec. cbn [fst] in *.
        pose proof (squeeze_span is_nl is_nl _ _ (collapse_newlines_squeeze s)) as (Hl & _).
        unfold collapse_newlines in Hl. simpl in *. lia.
      * rewrite span_cons_false by exact Ec. simpl. lia.
    + apply (IH (String.length s)); [subst len; simpl; lia | reflexivity].
Qed.

(** After the last step there is no run of two spaces. *)
Lemma collapse_spaces_never (s : string) : never spaces2 (collapse_spaces s).
Proof.
  remember (String.length s) as len eqn:Hlen. revert s Hlen.
  induction len as [len IH] using lt_wf_ind. intros s Hlen.
  destruct s as [|c s]; [intros k; now rewrite drop_empty|].
  destruct (spaces2 (String c s)) as [[repl n]|] eqn:E.
  - unfold collapse_spaces. rewrite (re_sub_match _ c s repl n E).
    apply spaces2_Some in E as (-> & Hn & Hn2).
    replace (drop (n - 1) s) with (snd (span is_space (String c s))).
    2:{ rewrite <- span_drop, <- Hn. destruct n; [lia|]. simpl. now rewrite Nat.sub_0_r. }
    set (r := snd (span is_space (String c s))).
    assert (Hr : fst (span is_space (re_sub spaces2 r)) = "").
    { apply (squeeze_span is_space is_space _ _ (collapse_spaces_squeeze r)).
      apply span_snd_nil. }
    cbn [append]. apply never_cons. split.
    { apply spaces2_None. rewrite span_cons_true by reflexivity. cbn [fst snd].
      rewrite Hr. simpl. lia. }
    apply (IH (String.length r)); [|reflexivity].
    unfold r. rewrite <- span_drop, length_drop, <- Hn. subst len.
      cbn [String.length]. lia.
  - unfold collapse_spaces. rewrite (re_sub_copy _ c s E).
    apply never_cons. split.
    + apply spaces2_None. apply spaces2_None in E.
      destruct (is_space c) eqn:Ec.
      * rewrite span_cons_true in * by exact Ec. cbn [fst] in *.
        pose proof (squeeze_span is_space is_space _ _ (collapse_spaces_squeeze s)) as (Hl & _).
        unfold collapse_spaces in Hl. simpl in *. lia.
      * rewrite span_cons_false by exact Ec. simpl. lia.
    + apply (IH (String.length s)); [subst len; simpl; lia | reflexivity].
Qed.

End StepResults.

Section TightenFacts.

Lemma blank_before_heading_head (c : ascii) (t : string) :
  is_nl c = false -> blank_before_heading (String c t) = None.
Proof. intros H. unfold blank_before_heading. destruct t; now rewrite ?H. Qed.

Lemma blank_before_heading_second (c : ascii) (t : string) :
  is_nl c = false -> blank_before_heading (String nl (String c t)) = None.
Proof. intros H. unfold blank_before_heading. now rewrite H, andb_false_r. Qed.

Lemma never_after_hashes (hashes rest : string) :
  all_chars is_hash hashes = true ->
  never blank_before_heading rest -> never blank_before_heading (hashes ++ rest).
Proof.
  intros Hh Hrest. induction hashes as [|h hashes IH]; [exact Hrest|].
  simpl in Hh. apply andb_true_iff in Hh as [Hc Hh].
  apply Ascii.eqb_eq in Hc. subst h.
  cbn [append]. apply never_cons. split; [|now apply IH].
  now apply blank_before_heading_head.
Qed.

Lemma last_char_app_one (a : string) (w : ascii) : last_char (a ++ String w "") = w.
Proof.
  induction a as [|c a IH]; [reflexivity|].
  cbn [append last_char]. destruct (a ++ String w "") eqn:E; [|exact IH].
  destruct a; discriminate.
Qed.

(** After the third step no blank line is left before a heading, when the
    text had no run of three newlines and no blank line before a line of
    bare hashes. *)
Lemma tighten_headings_never (s : string) :
  never newlines3 s -> never blank_before_bare_hashes s ->
  never blank_before_heading (tighten_headings s).
Proof.
  remember (String.length s) as len eqn:Hlen. revert s Hlen.
  induction len as [len IH] using lt_wf_ind. intros s Hlen Hn3 Hbare.
  destruct s as [|c s]; [intros k; now rewrite drop_empty|].
  unfold tighten_headings.
  destruct (blank_before_heading (String c s)) as [[repl n]|] eqn:E.
  - rewrite (re_sub_match _ c s repl n E).
    pose proof (Hbare 0) as Hb0. cbn [drop] in Hb0.
    unfold blank_before_bare_hashes in Hb0. rewrite E in Hb0.
    apply blank_before_heading_Some in E
      as (hashes & w & after & Hs & Hspan & Hh & Hw & -> & ->).
    injection Hs as -> ->.
    replace (String nl (hashes ++ String w "")) with (String nl hashes ++ String w "")
      in Hb0 by reflexivity.
    rewrite last_char_app_one in Hb0.
    destruct (is_nl w) eqn:Ew; [discriminate|].
    replace (drop (String.length hashes + 3 - 1) (String nl (hashes ++ String w after)))
      with after.
    2:{ replace (String.length hashes + 3 - 1)
          with (S (String.length (hashes ++ String w ""))) 
          by (rewrite length_append; simpl; lia).
        cbn [drop].
        replace (hashes ++ String w after) with ((hashes ++ String w "") ++ after)
          by now rewrite append_assoc.
        now rewrite drop_append. }
    assert (Hafter : never blank_before_heading (re_sub blank_before_heading after)).
    { apply (IH (String.length after)).
      - subst len. cbn [String.length]. rewrite length_append. simpl. lia.
      - reflexivity.
      - replace after with
          (drop (S (S (String.length (hashes ++ String w ""))))
                (String nl (String nl ((hashes ++ String w "") ++ after))))
          by (cbn [drop]; now rewrite drop_append).
        apply never_drop. now rewrite append_assoc.
      - replace after with
          (drop (S (S (String.length (hashes ++ String w ""))))
                (String nl (String nl ((hashes ++ String w "") ++ after))))
          by (cbn [drop]; now rewrite drop_append).
        apply never_drop. now rewrite append_assoc. }
    cbn [append]. rewrite append_assoc. cbn [append].
    apply never_cons. split.
    { destruct hashes as [|h hashes]; [simpl in Hh; lia|].
      cbn [append]. apply blank_before_heading_second.
      simpl in Hspan. destruct (is_hash h) eqn:Eh; [|discriminate].
      apply Ascii.eqb_eq in Eh. now subst h. }
    apply never_after_hashes.
    { pose proof (span_all is_hash (hashes ++ String w after)) as Ha.
      now rewrite Hspan in Ha. }
    apply never_cons. split; [now apply blank_before_heading_head | exact Hafter].
  - rewrite (re_sub_copy _ c s E).
    apply never_cons in Hn3 as [Hn0 Hn3]. apply never_cons in Hbare as [_ Hbare].
    apply never_cons. split.
    + destruct (blank_before_heading (String c (re_sub blank_before_heading s))) eqn:E';
        [exfalso|reflexivity].
      assert (Hsq : squeeze is_nl (String c s) (String c (re_sub blank_before_heading s))).
      { constructor. apply tighten_headings_squeeze. }
      destruct (squeeze_blank_before_heading is_nl _ _ Hsq) as [Hlen2 Hfire];
        [congruence|].
      apply newlines3_None in Hn0.
      replace (String.length (fst (span is_nl (String c s))) - 2) with 0 in Hfire by lia.
      cbn [drop] in Hfire. congruence.
    + apply (IH (String.length s)); [subst len; simpl; lia | reflexivity | | ]; assumption.
Qed.

End TightenFacts.

Section LineFacts.

(** The two equations of the split into lines. *)
Lemma lines_cons (c : ascii) (s : string) :
  split NL (String c s) =
  if is_nl c then "" :: split NL s else cons_head c (split NL s).
Proof.
  assert (Hs : startswith NL (String c s) = is_nl c).
  { unfold NL, is_nl. cbn [startswith]. rewrite andb_true_r. apply Ascii.eqb_sym. }
  destruct (is_nl c) eqn:E.
  - rewrite (split_at_sep NL c s) by exact Hs. reflexivity.
  - apply split_copy. exact Hs.
Qed.

Lemma lines_hd_tl (s : string) :
  split NL s = hd "" (split NL s) :: tl (split NL s).
Proof.
  pose proof (split_not_nil NL s) as H. destruct (split NL s); [contradiction|reflexivity].
Qed.

Lemma lines_nl_free (s : string) : Forall (fun l => nl_free l = true) (split NL s).
Proof.
  induction s as [|c s IH]; [repeat constructor|].
  rewrite lines_cons. destruct (is_nl c) eqn:E; [now constructor|].
  rewrite lines_hd_tl in IH |- *. inversion IH as [|? ? Hh Ht]. subst.
  cbn [cons_head]. constructor; [|exact Ht].
  unfold nl_free in *. simpl. now rewrite E.
Qed.

Lemma lines_single (l : string) : nl_free l = true -> split NL l = [l].
Proof.
  induction l as [|c l IH]; [reflexivity|].
  unfold nl_free. simpl. intros H. apply andb_true_iff in H as [Hc Hl].
  rewrite lines_cons. apply negb_true_iff in Hc. rewrite Hc.
  now rewrite (IH Hl).
Qed.

(** A newline cuts the lines of a text in two. *)
Lemma lines_app (a b : string) :
  split NL (a ++ String nl b) = (split NL a ++ split NL b)%list.
Proof.
  induction a as [|c a IH]; cbn [append].
  - now rewrite lines_cons.
  - rewrite !lines_cons, IH. destruct (is_nl c); [reflexivity|].
    rewrite (lines_hd_tl a). reflexivity.
Qed.

Lemma split_join (L : list string) :
  L <> [] -> Forall (fun l => nl_free l = true) L -> split NL (join NL L) = L.
Proof.
  intros Hne H. induction H as [|l L Hl HL IH]; [contradiction|].
  destruct L as [|l2 L].
  - now apply lines_single.
  - rewrite (join_cons NL l (l2 :: L)) by discriminate.
    change (NL ++ join NL (l2 :: L)) with (String nl (join NL (l2 :: L))).
    rewrite lines_app, (lines_single l Hl), IH by discriminate. reflexivity.
Qed.

Variable d : ascii -> bool.

Lemma squeeze_none (l l' : string) :
  all_chars (fun c => negb (d c)) l = true -> squeeze d l l' -> l' = l.
Proof.
  intros Hl Hsq. induction Hsq as [|c s s' _ IH|c s s' Hd _ _].
  - reflexivity.
  - simpl in Hl. apply andb_true_iff in Hl as [_ Hl]. now rewrite IH.
  - simpl in Hl. rewrite Hd in Hl. discriminate.
Qed.

(** What holds of every line of a text holds of every line of the squeezed
    text, when squeezing a line keeps it. *)
Lemma squeeze_lines (Q : string -> Prop) (s s' : string) :
  (forall l l', nl_free l = true -> squeeze d l l' -> Q l -> Q l') ->
  squeeze d s s' ->
  Forall Q (split NL s) -> Forall Q (split NL s').
Proof.
  intros HQ Hsq.
  assert (H : squeeze d (hd "" (split NL s)) (hd "" (split NL s'))
              /\ (Forall Q (tl (split NL s)) -> Forall Q (tl (split NL s')))).
  { induction Hsq as [|c s s' Hsq IH|c s s' Hd Hsq IH].
    - split; [constructor | auto].
    - rewrite !lines_cons. destruct IH as [IH1 IH2].
      destruct (is_nl c).
      + split; [constructor|]. cbn [tl]. intros HF.
        rewrite lines_hd_tl in HF. rewrite lines_hd_tl.
        inversion HF as [|? ? Hh Ht]. subst. constructor; [|now apply IH2].
        refine (HQ _ _ _ IH1 Hh).
        pose proof (lines_nl_free s) as Hfree. rewrite lines_hd_tl in Hfree.
        now inversion Hfree.
      + rewrite (lines_hd_tl s), (lines_hd_tl s'). cbn [cons_head hd tl].
        split; [now constructor | exact IH2].
    - rewrite !lines_cons in *. destruct IH as [IH1 IH2].
      destruct (is_nl c).
      + cbn [hd tl] in *. split; [exact IH1|].
        intros HF. apply IH2. now inversion HF.
      + rewrite (lines_hd_tl s) in *. cbn [cons_head hd tl] in *.
        split; [now constructor | exact IH2]. }
  destruct H as [H1 H2]. intros HF.
  rewrite lines_hd_tl in HF. rewrite lines_hd_tl.
  inversion HF as [|? ? Hh Ht]. subst. constructor; [|now apply H2].
  refine (HQ _ _ _ H1 Hh).
  pose proof (lines_nl_free s) as Hfree. rewrite lines_hd_tl in Hfree.
  now inversion Hfree.
Qed.

End LineFacts.

Section StrippedFacts.

Lemma all_chars_rstrip (p : ascii -> bool) (s : string) :
  all_chars p s = true -> all_chars p (rstrip s) = true.
Proof.
  induction s as [|c s IH]; [easy|]. simpl.
  intros H. apply andb_true_iff in H as [Hc Hs]. specialize (IH Hs).
  destruct (rstrip s) as [|x r].
  - destruct (isspace c); simpl; [reflexivity | now rewrite Hc].
  - simpl in *. now rewrite Hc.
Qed.

Lemma all_chars_strip (p : ascii -> bool) (s : string) :
  all_chars p s = true -> all_chars p (strip s) = true.
Proof. intros H. now apply all_chars_rstrip, all_chars_lstrip. Qed.

Lemma all_chars_last (p : ascii -> bool) (c : ascii) (s : string) :
  all_chars p (String c s) = true -> p (last_char (String c s)) = true.
Proof.
  revert c. induction s as [|x s IH]; intros c H; simpl in H.
  - now apply andb_true_iff in H as [Hc _].
  - apply andb_true_iff in H as [_ H]. exact (IH x H).
Qed.

Lemma rstrip_fixed (c : ascii) (s : string) :
  isspace (last_char (String c s)) = false -> rstrip (String c s) = String c s.
Proof.
  revert c. induction s as [|x s IH]; intros c H.
  - simpl in *. now rewrite H.
  - change (last_char (String c (String x s))) with (last_char (String x s)) in H.
    change (rstrip (String c (String x s)))
      with (match rstrip (String x s) with
            | "" => if isspace c then "" else String c ""
            | r => String c r
            end).
    now rewrite (IH x H).
Qed.

Lemma rstrip_last (s : string) :
  match rstrip s with
  | String c r => isspace (last_char (String c r)) = false
  | EmptyString => True
  end.
Proof.
  induction s as [|c s IH]; [exact I|]. simpl.
  destruct (rstrip s) as [|x r].
  - destruct (isspace c) eqn:E; [exact I | exact E].
  - exact IH.
Qed.

Lemma rstrip_head (c : ascii) (s : string) :
  match rstrip (String c s) with
  | String x _ => x = c
  | EmptyString => True
  end.
Proof. simpl. destruct (rstrip s); [destruct (isspace c)|]; easy. Qed.

Lemma lstrip_head (s : string) :
  match lstrip s with
  | String c _ => isspace c = false
  | EmptyString => True
  end.
Proof.
  induction s as [|c s IH]; [exact I|]. simpl.
  destruct (isspace c) eqn:E; [exact IH | exact E].
Qed.

(** A line with no white space at its ends is left alone by [strip], and
    [strip] gives such a line. *)
Lemma strip_fixed (l : string) : is_stripped l = true -> strip l = l.
Proof.
  destruct l as [|c l]; [reflexivity|]. unfold is_stripped, strip.
  intros H. apply andb_true_iff in H as [Hc Hl].
  apply negb_true_iff in Hc, Hl.
  cbn [lstrip]. rewrite Hc. now apply rstrip_fixed.
Qed.

Lemma strip_is_stripped (l : string) : is_stripped (strip l) = true.
Proof.
  unfold strip. pose proof (lstrip_head l) as Hh.
  destruct (lstrip l) as [|c u]; [reflexivity|].
  pose proof (rstrip_head c u) as Hx. pose proof (rstrip_last (String c u)) as Hl.
  destruct (rstrip (String c u)) as [|x r]; [reflexivity|]. subst x.
  unfold is_stripped. now rewrite Hh, Hl.
Qed.

Lemma strip_idem (l : string) : strip (strip l) = strip l.
Proof. apply strip_fixed, strip_is_stripped. Qed.

Lemma is_stripped_squeeze (d : ascii -> bool) (l l' : string) :
  squeeze d l l' -> is_stripped l = true -> is_stripped l' = true.
Proof.
  intros Hsq. pose proof (squeeze_head d _ _ Hsq) as Hh.
  pose proof (squeeze_last d _ _ Hsq) as Hl.
  destruct l as [|c l], l' as [|c' l']; try contradiction; [reflexivity|].
  subst c'. unfold is_stripped. now rewrite Hl.
Qed.

(** The lines of the second step's result are the lines stripped. *)
Lemma strip_lines_lines (s : string) :
  split NL (strip_lines s) = map strip (split NL s).
Proof.
  unfold strip_lines. apply split_join.
  - pose proof (split_not_nil NL s). destruct (split NL s); [contradiction|discriminate].
  - apply Forall_map. eapply Forall_impl; [|apply lines_nl_free].
    intros l Hl. unfold nl_free in *. now apply all_chars_strip.
Qed.

Lemma strip_lines_stripped (s : string) :
  Forall (fun l => is_stripped l = true) (split NL (strip_lines s)).
Proof.
  rewrite strip_lines_lines. apply Forall_map, Forall_forall.
  intros l _. apply strip_is_stripped.
Qed.

(** The second step leaves a text of stripped lines as it is. *)
Lemma strip_lines_fixed (s : string) :
  Forall (fun l => is_stripped l = true) (split NL s) -> strip_lines s = s.
Proof.
  intros H. unfold strip_lines.
  replace (map strip (split NL s)) with (split NL s).
  - apply join_split. discriminate.
  - induction H as [|l L Hl _ IH]; [reflexivity|].
    simpl. now rewrite (strip_fixed l Hl), <- IH.
Qed.

End StrippedFacts.

Section BlankLineFacts.

Lemma never_newlines3_nl_free (a b : string) :
  nl_free a = true -> never newlines3 b -> never newlines3 (a ++ b).
Proof.
  intros Ha Hb. induction a as [|c a IH]; [exact Hb|].
  unfold nl_free in Ha. simpl in Ha. apply andb_true_iff in Ha as [Hc Ha].
  apply negb_true_iff in Hc.
  cbn [append]. apply never_cons. split; [|now apply IH].
  apply newlines3_None. rewrite span_cons_false by exact Hc. simpl. lia.
Qed.

Lemma never_newlines3_empty : never newlines3 "".
Proof. intros k. now rewrite drop_empty. Qed.

Lemma span_nl_free (l rest : string) :
  nl_free l = true -> l <> "" -> fst (span is_nl (l ++ rest)) = "".
Proof.
  intros Hl Hne. destruct l as [|c l]; [contradiction|].
  unfold nl_free in Hl. simpl in Hl. apply andb_true_iff in Hl as [Hc _].
  apply negb_true_iff in Hc. cbn [append]. now rewrite span_cons_false.
Qed.

Lemma join_cons_nl (l : string) (L : list string) :
  L <> [] -> join NL (l :: L) = l ++ String nl (join NL L).
Proof. intros H. now rewrite (join_cons NL l L H). Qed.

(** Whether a text has a run of three newlines depends on which of its
    lines are empty, and on nothing else. *)
Lemma same_blank_newlines3 (L L' : list string) :
  Forall2 same_blank L L' ->
  Forall (fun l => nl_free l = true) L -> Forall (fun l => nl_free l = true) L' ->
  String.length (fst (span is_nl (join NL L)))
  = String.length (fst (span is_nl (join NL L')))
  /\ (never newlines3 (join NL L) -> never newlines3 (join NL L')).
Proof.
  intros H. induction H as [|l l' L L' Hl HL IH]; intros HF HF'.
  - split; [reflexivity | auto].
  - inversion HF as [|? ? Hfree HFt]. inversion HF' as [|? ? Hfree' HFt']. subst.
    destruct (IH HFt HFt') as [IHlen IHnever].
    inversion HL as [|x x' M M' _ _]; subst.
    + unfold join. cbn [String.concat]. split.
      * destruct l as [|c l], l' as [|c' l'].
        -- reflexivity.
        -- destruct Hl as [Hl _]. now specialize (Hl eq_refl).
        -- destruct Hl as [_ Hl]. now specialize (Hl eq_refl).
        -- rewrite <- (append_nil_r (String c l)), <- (append_nil_r (String c' l')).
           now rewrite !span_nl_free.
      * intros _. rewrite <- (append_nil_r l').
        apply never_newlines3_nl_free; [exact Hfree' | apply never_newlines3_empty].
    + rewrite (join_cons_nl l (x :: M)), (join_cons_nl l' (x' :: M')) by discriminate.
      assert (Hrun : String.length (fst (span is_nl (l ++ String nl (join NL (x :: M)))))
                     = String.length (fst (span is_nl (l' ++ String nl (join NL (x' :: M')))))).
      { destruct l as [|c l], l' as [|c' l'].
        - cbn [append]. rewrite !span_cons_true by reflexivity. cbn [fst].
          cbn [String.length]. now rewrite IHlen.
        - destruct Hl as [Hl _]. now specialize (Hl eq_refl).
        - destruct Hl as [_ Hl]. now specialize (Hl eq_refl).
        - now rewrite !span_nl_free. }
      split; [exact Hrun|].
      intros Hn.
      apply (never_drop newlines3 (String.length l)) in Hn. rewrite drop_append in Hn.
      apply never_cons in Hn as [Hn0 Hn].
      apply never_newlines3_nl_free; [exact Hfree'|].
      apply never_cons. split; [|now apply IHnever].
      apply newlines3_None. apply newlines3_None in Hn0.
      rewrite span_cons_true in * by reflexivity. cbn [fst String.length] in *.
      rewrite <- IHlen. exact Hn0.
Qed.

(** The second step makes no run of three newlines when no line is made of
    white space only. *)
Lemma strip_lines_never (s : string) :
  Forall (fun l => whitespace_only l = false) (split NL s) ->
  never newlines3 s -> never newlines3 (strip_lines s).
Proof.
  intros Hws Hn. unfold strip_lines.
  rewrite <- (join_split NL ltac:(discriminate) s) in Hn.
  refine (proj2 (same_blank_newlines3 (split NL s) (map strip (split NL s)) _ _ _) Hn).
  - clear Hn. induction Hws as [|l L Hl _ IH]; constructor; [|exact IH].
    unfold same_blank. split; [now intros ->|].
    intros Hs. unfold whitespace_only in Hl. rewrite Hs in Hl.
    destruct l; [reflexivity | discriminate].
  - apply lines_nl_free.
  - apply Forall_map. eapply Forall_impl; [|apply lines_nl_free].
    intros l Hl. unfold nl_free in *. now apply all_chars_strip.
Qed.

(** No blank line comes before a line of bare hashes when no line is made of
    hashes only. *)
Lemma hash_only_never (s : string) :
  Forall (fun l => hash_only l = false) (split NL s) ->
  never blank_before_bare_hashes s.
Proof.
  intros H k. unfold blank_before_bare_hashes.
  destruct (blank_before_heading (drop k s)) as [[repl n]|] eqn:E; [|reflexivity].
  destruct (is_nl (last_char repl)) eqn:El; [exfalso|reflexivity].
  apply blank_before_heading_Some in E
    as (hashes & w & after & Hs & Hspan & Hh & Hw & -> & _).
  replace (String nl (hashes ++ String w "")) with (String nl hashes ++ String w "")
    in El by reflexivity.
  rewrite last_char_app_one in El. apply is_nl_only in El. subst w.
  assert (Hall : all_chars is_hash hashes = true).
  { pose proof (span_all is_hash (hashes ++ String nl after)) as Ha.
    now rewrite Hspan in Ha. }
  assert (Hin : In hashes (split NL s)).
  { rewrite <- (take_drop k s), Hs.
    rewrite lines_app, lines_cons. cbn [is_nl]. change (Ascii.eqb nl nl) with true.
    cbv iota. rewrite lines_app.
    apply in_or_app. right. right. apply in_or_app. left.
    rewrite lines_single; [now left|].
    unfold nl_free. clear -Hall. induction hashes as [|h hs IH]; [reflexivity|].
    simpl in *. apply andb_true_iff in Hall as [Hc Hall].
    apply Ascii.eqb_eq in Hc. subst h. now rewrite IH. }
  rewrite Forall_forall in H. specialize (H _ Hin).
  destruct hashes as [|h hashes]; [simpl in Hh; lia|].
  assert (Hst : strip (String h hashes) = String h hashes).
  { apply strip_fixed. unfold is_stripped.
    pose proof (all_chars_last is_hash h hashes Hall) as Hlast.
    simpl in Hall. apply andb_true_iff in Hall as [Hc _].
    apply Ascii.eqb_eq in Hc, Hlast. rewrite Hlast. now subst h. }
  unfold hash_only in H. rewrite Hst, Hall in H. discriminate.
Qed.

End BlankLineFacts.

(** C5, as the claim states it, fails: stripping the lines comes after the
    newlines were collapsed, so lines of white space leave a run of three
    newlines that only a second pass collapses. *)
Lemma C5_counterexample :
  ~ (forall s : string, postprocess (postprocess s) = postprocess s).
Proof.
  intros H. specialize (H ("a" ++ NL ++ " " ++ NL ++ " " ++ NL ++ "b")).
  vm_compute in H. discriminate H.
Qed.

(** C5 (amended): on a text with no line made of white space only and no
    line made of hashes only, the pass applied twice gives what it gives
    applied once.  The result of the first pass has no run of three
    newlines, only stripped lines, no blank line before a heading and no
    run of two spaces, so each step of the second pass leaves it as it
    is. *)
Theorem C5_postprocess_idempotent (s : string) :
  Forall (fun line => whitespace_only line = false) (split NL s) ->
  Forall (fun line => hash_only line = false) (split NL s) ->
  postprocess (postprocess s) = postprocess s.
Proof.
  intros Hws Hhash. unfold postprocess.
  set (x1 := collapse_newlines s).
  set (x2 := strip_lines x1).
  set (x3 := tighten_headings x2).
  set (x4 := collapse_spaces x3).
  assert (Hkeep : forall (Q : string -> Prop) l l',
            nl_free l = true -> squeeze is_nl l l' -> Q l -> Q l').
  { intros Q l l' Hfree Hsq HQ. now rewrite (squeeze_none is_nl l l' Hfree Hsq). }
  assert (A1 : never newlines3 x1) by apply collapse_newlines_never.
  assert (W1 : Forall (fun line => whitespace_only line = false) (split NL x1)).
  { exact (squeeze_lines is_nl _ s x1 (Hkeep _) (collapse_newlines_squeeze s) Hws). }
  assert (H1 : Forall (fun line => hash_only line = false) (split NL x1)).
  { exact (squeeze_lines is_nl _ s x1 (Hkeep _) (collapse_newlines_squeeze s) Hhash). }
  assert (A2 : never newlines3 x2) by now apply strip_lines_never.
  assert (B2 : Forall (fun l => is_stripped l = true) (split NL x2))
    by apply strip_lines_stripped.
  assert (H2 : Forall (fun line => hash_only line = false) (split NL x2)).
  { unfold x2. rewrite strip_lines_lines. apply Forall_map.
    eapply Forall_impl; [|exact H1].
    intros l Hl. unfold hash_only in *. now rewrite strip_idem. }
  assert (C3 : never blank_before_heading x3).
  { apply tighten_headings_never; [exact A2 | now apply hash_only_never]. }
  assert (A3 : never newlines3 x3).
  { exact (never_newlines3_squeeze is_nl x2 x3 (tighten_headings_squeeze x2) A2). }
  assert (B3 : Forall (fun l => is_stripped l = true) (split NL x3)).
  { exact (squeeze_lines is_nl _ x2 x3 (Hkeep _) (tighten_headings_squeeze x2) B2). }
  assert (D4 : never spaces2 x4) by apply collapse_spaces_never.
  assert (A4 : never newlines3 x4).
  { exact (never_newlines3_squeeze is_space x3 x4 (collapse_spaces_squeeze x3) A3). }
  assert (C4 : never blank_before_heading x4).
  { exact (never_blank_before_heading_squeeze is_space x3 x4
             (collapse_spaces_squeeze x3) C3). }
  assert (B4 : Forall (fun l => is_stripped l = true) (split NL x4)).
  { refine (squeeze_lines is_space _ x3 x4 _ (collapse_spaces_squeeze x3) B3).
    intros l l' _. apply is_stripped_squeeze. }
  unfold collapse_newlines at 1. rewrite (never_fixed _ _ A4).
  rewrite (strip_lines_fixed _ B4).
  unfold tighten_headings at 1. rewrite (never_fixed _ _ C4).
  unfold collapse_spaces at 1. now rewrite (never_fixed _ _ D4).
Qed.

Lemma C5_postprocess_idempotent_witness :
  postprocess (postprocess ("a    b  " ++ NL ++ NL ++ NL ++ NL ++ "## x   y"))
  = postprocess ("a    b  " ++ NL ++ NL ++ NL ++ NL ++ "## x   y").
Proof.
  apply C5_postprocess_idempotent; vm_compute; repeat constructor.
Defined.

(* ================================================================== *)
(** * Further properties of the converter *)
(* ================================================================== *)

Section TagFacts.

Variable x : ascii.

Lemma has_char_cons (c : ascii) (s : string) :
  contains (String x "") (String c s) = Ascii.eqb x c || contains (String x "") s.
Proof. cbn [contains startswith]. now rewrite andb_true_r. Qed.

Lemma split_char_cons (c : ascii) (s : string) :
  split (String x "") (String c s) =
  if Ascii.eqb x c then "" :: split (String x "") s
  else cons_head c (split (String x "") s).
Proof.
  assert (Hs : startswith (String x "") (String c s) = Ascii.eqb x c).
  { cbn [startswith]. apply andb_true_r. }
  destruct (Ascii.eqb x c) eqn:E.
  - rewrite (split_at_sep (String x "") c s) by exact Hs. reflexivity.
  - apply split_copy. exact Hs.
Qed.

Lemma split_char_free (s : string) :
  contains (String x "") s = false -> split (String x "") s = [s].
Proof.
  induction s as [|c s IH]; [reflexivity|].
  rewrite has_char_cons, split_char_cons. intros H.
  apply orb_false_iff in H as [Hc Hs]. now rewrite Hc, (IH Hs).
Qed.

Lemma split_char_app (a b : string) :
  split (String x "") (a ++ String x b)
  = (split (String x "") a ++ split (String x "") b)%list.
Proof.
  induction a as [|c a IH]; cbn [append].
  - now rewrite split_char_cons, Ascii.eqb_refl.
  - rewrite !split_char_cons, IH. destruct (Ascii.eqb x c); [reflexivity|].
    pose proof (split_not_nil (String x "") a) as Hne.
    destruct (split (String x "") a); [contradiction|reflexivity].
Qed.

Lemma split_char_pieces (s : string) :
  Forall (fun piece => contains (String x "") piece = false) (split (String x "") s).
Proof.
  induction s as [|c s IH]; [repeat constructor|].
  rewrite split_char_cons. destruct (Ascii.eqb x c) eqn:E; [now constructor|].
  pose proof (split_not_nil (String x "") s) as Hne.
  destruct (split (String x "") s) as [|l L]; [contradiction|].
  inversion IH as [|? ? Hl HL]. subst. cbn [cons_head].
  constructor; [|exact HL]. now rewrite has_char_cons, E, Hl.
Qed.

Lemma contains_app_char (a b : string) :
  contains (String x "") (a ++ String x b) = true.
Proof.
  induction a as [|c a IH]; cbn [append].
  - now rewrite has_char_cons, Ascii.eqb_refl.
  - rewrite has_char_cons, IH. apply orb_true_r.
Qed.

End TagFacts.

(** X1: [get_tag_name] leaves a tag with no closing brace as it is, takes
    the local name out of [{namespace}local], and what it gives never has a
    closing brace in it (so that resolving twice is resolving once). *)
Theorem get_tag_name_resolves (tag : string) :
  (contains "}" tag = false -> get_tag_name_of tag = tag)
  /\ (forall ns local,
         contains "}" ns = false -> contains "}" local = false ->
         tag = ns ++ "}" ++ local -> get_tag_name_of tag = local)
  /\ contains "}" (get_tag_name_of tag) = false
  /\ get_tag_name_of (get_tag_name_of tag) = get_tag_name_of tag.
Proof.
  assert (H1 : forall t, contains "}" t = false -> get_tag_name_of t = t).
  { intros t H. unfold get_tag_name_of. now rewrite H. }
  assert (H3 : contains "}" (get_tag_name_of tag) = false).
  { unfold get_tag_name_of. destruct (contains "}" tag) eqn:E; [|exact E].
    pose proof (split_char_pieces "}"%char tag) as HF.
    rewrite Forall_forall in HF.
    destruct (nth_in_or_default 1 (split "}" tag) "") as [Hin|Hd].
    - now apply HF.
    - now rewrite Hd. }
  split; [apply H1|]. split; [|split; [exact H3 | now apply H1]].
  intros ns local Hns Hlocal ->. unfold get_tag_name_of.
  change (ns ++ "}" ++ local) with (ns ++ String "}"%char local).
  rewrite contains_app_char, split_char_app.
  now rewrite (split_char_free _ ns Hns), (split_char_free _ local Hlocal).
Qed.

Lemma get_tag_name_resolves_witness :
  get_tag_name_of "{http://xml.house.gov/schemas/uslm/1.0}section" = "section".
Proof.
  exact (proj1 (proj2 (get_tag_name_resolves _))
               "{http://xml.house.gov/schemas/uslm/1.0" "section"
               eq_refl eq_refl eq_refl).
Defined.

Section LevelFacts.

Variables walk1 walk2 : option string -> Element -> nat -> string.

Lemma walk_children_ext parent keep level1 level2 cs :
  Forall (fun c => forall p l1 l2, walk1 p c l1 = walk2 p c l2) cs ->
  walk_children walk1 parent keep level1 cs = walk_children walk2 parent keep level2 cs.
Proof.
  induction 1 as [|c cs Hc _ IH]; simpl; [reflexivity|].
  destruct (keep c); now rewrite ?(Hc parent level1 level2), IH.
Qed.

Lemma walk_note_children_ext parent keep level1 level2 cs :
  Forall (fun c => forall p l1 l2, walk1 p c l1 = walk2 p c l2) cs ->
  walk_note_children walk1 parent keep level1 cs
  = walk_note_children walk2 parent keep level2 cs.
Proof.
  induction 1 as [|c cs Hc _ IH]; simpl; [reflexivity|].
  destruct (keep c); now rewrite ?(Hc parent level1 level2), IH.
Qed.

Lemma element_to_markdown_open_ext parent e level1 level2 :
  Forall (fun c => forall p l1 l2, walk1 p c l1 = walk2 p c l2) (echildren e) ->
  element_to_markdown_open walk1 parent e level1
  = element_to_markdown_open walk2 parent e level2.
Proof.
  intros H. unfold element_to_markdown_open, render_tag, render_section,
    render_paragraph, render_note.
  rewrite !(walk_children_ext _ _ (S level1) (S level2) _ H).
  rewrite !(walk_note_children_ext _ _ (S level1) (S level2) _ H).
  reflexivity.
Qed.

End LevelFacts.

(** X2: the text of a walk does not depend on the nesting level it is
    started with: the level is handed down and never read. *)
Theorem process_xml_tree_level (e : Element) :
  forall parent level1 level2,
    process_xml_tree parent e level1 = process_xml_tree parent e level2.
Proof.
  induction e as [tag pre a tx cs tl IH] using Element_ind'.
  intros parent level1 level2. rewrite !process_xml_tree_eq.
  unfold element_to_markdown.
  rewrite (element_to_markdown_open_ext process_xml_tree process_xml_tree
             parent _ level1 level2) by exact IH.
  f_equal. destruct (should_process_children _); [|reflexivity].
  now apply walk_children_ext.
Qed.

Section ChildTextFacts.

Lemma get_child_text_in_spec (cs : list Element) (child_tag : string) :
  (get_child_text_in cs child_tag = ""
   \/ exists c t, In c cs /\ get_tag_name c = child_tag /\ etext c = Some t
                  /\ t <> "" /\ get_child_text_in cs child_tag = strip t)
  /\ is_stripped (get_child_text_in cs child_tag) = true
  /\ (Forall (fun c => get_tag_name c <> child_tag) cs ->
      get_child_text_in cs child_tag = "").
Proof.
  induction cs as [|c cs (IH1 & IH2 & IH3)]; [repeat split; auto|].
  cbn [get_child_text_in].
  destruct (String.eqb_spec (get_tag_name c) child_tag) as [Etag|Etag]; cbn [andb].
  - destruct (etext c) as [t|] eqn:Et; cbn [or_empty truthy].
    + destruct t as [|x t]; cbn [truthy].
      * split; [|split; [exact IH2|]].
        -- destruct IH1 as [IH1|(c' & t' & Hin & H)]; [now left|].
           right. exists c', t'. split; [now right | exact H].
        -- intros HF. inversion HF. contradiction.
      * split; [|split; [apply strip_is_stripped|]].
        -- right. exists c, (String x t). repeat split; auto; [now left | discriminate].
        -- intros HF. inversion HF. contradiction.
    + split; [|split; [exact IH2|]].
      * destruct IH1 as [IH1|(c' & t' & Hin & H)]; [now left|].
        right. exists c', t'. split; [now right | exact H].
      * intros HF. inversion HF. contradiction.
  - split; [|split; [exact IH2|]].
    + destruct IH1 as [IH1|(c' & t' & Hin & H)]; [now left|].
      right. exists c', t'. split; [now right | exact H].
    + intros HF. inversion HF. now apply IH3.
Qed.

End ChildTextFacts.

(** X3: [get_child_text] gives the empty string when no child has the tag;
    otherwise it gives the empty string or the stripped text of a child
    that has the tag and a text; what it gives has no white space at its
    ends; and a first child with the tag and a text decides, also when
    that text is white space only. *)
Theorem get_child_text_result (e : Element) (child_tag : string) :
  (Forall (fun c => get_tag_name c <> child_tag) (echildren e) ->
   get_child_text e child_tag = "")
  /\ (get_child_text e child_tag = ""
      \/ exists c t, In c (echildren e) /\ get_tag_name c = child_tag
                     /\ etext c = Some t /\ get_child_text e child_tag = strip t)
  /\ is_stripped (get_child_text e child_tag) = true
  /\ (forall c cs t,
         echildren e = c :: cs -> get_tag_name c = child_tag ->
         etext c = Some t -> t <> "" ->
         get_child_text e child_tag = strip t).
Proof.
  unfold get_child_text.
  destruct (get_child_text_in_spec (echildren e) child_tag) as (H1 & H2 & H3).
  split; [exact H3|]. split; [|split; [exact H2|]].
  - destruct H1 as [H1|(c & t & Hin & Htag & Ht & _ & Hr)]; [now left|].
    right. now exists c, t.
  - intros c cs t -> Htag Ht Hne.
    apply get_child_text_in_hit; try assumption.
    destruct t; [contradiction|reflexivity].
Qed.

Lemma get_child_text_result_witness :
  get_child_text (Elem "section" None [] None [leaf "num" "   "; leaf "num" "5"] None) "num" = "".
Proof.
  exact (proj2 (proj2 (proj2 (get_child_text_result
           (Elem "section" None [] None [leaf "num" "   "; leaf "num" "5"] None) "num")))
           (leaf "num" "   ") [leaf "num" "5"] "   " eq_refl eq_refl eq_refl
           ltac:(discriminate)).
Defined.

Section ParagraphFacts.

Lemma strip_head (c : ascii) (s : string) :
  isspace c = false -> truthy (strip (String c s)) = true.
Proof.
  intros H. unfold strip. cbn [lstrip]. rewrite H.
  pose proof (rstrip_head c s) as Hh. cbn [rstrip] in *.
  destruct (rstrip s); [now rewrite H|reflexivity].
Qed.

Lemma truthy_strip (t : string) : truthy (strip t) = true -> truthy t = true.
Proof. destruct t; [discriminate|reflexivity]. Qed.

Lemma element_to_markdown_paragraph (parent : option string) (e : Element) (level : nat) :
  get_tag_name e = "paragraph" ->
  element_to_markdown parent e level =
  render_paragraph process_xml_tree "" e level ++ tail_text e.
Proof.
  intros Htag.
  unfold element_to_markdown, element_to_markdown_open, render_tag.
  rewrite Htag. cbn. now rewrite andb_false_r.
Qed.

Lemma process_xml_tree_paragraph (parent : option string) (e : Element) (level : nat) :
  get_tag_name e = "paragraph" ->
  process_xml_tree parent e level = element_to_markdown parent e level.
Proof.
  intros Htag. rewrite process_xml_tree_eq.
  unfold should_process_children. rewrite Htag. cbn.
  apply append_nil_r.
Qed.

(** A reference with a target and a text, and no child, is walked into a
    link. *)
Lemma process_xml_tree_ref (parent : option string) (r : Element) (level : nat)
      (t href : string) :
  get_tag_name r = "ref" -> echildren r = [] -> etext r = Some t ->
  truthy (strip t) = true -> attr_get (eattrib r) "href" = href -> truthy href = true ->
  process_xml_tree parent r level
  = "[" ++ strip t ++ "](" ++ href ++ ")" ++ tail_text r.
Proof.
  intros Htag Hcs Ht Hst Hhref Hth.
  rewrite process_xml_tree_eq, Hcs.
  unfold should_process_children. rewrite Htag. cbn [mem existsb skip_children_tags].
  cbn. rewrite append_nil_r.
  unfold element_to_markdown, element_to_markdown_open, render_tag.
  rewrite Htag, Ht. cbn [or_empty]. rewrite Hst. cbn.
  rewrite Hhref, Hth. cbn.
  f_equal. rewrite append_assoc. cbn. f_equal. f_equal. f_equal.
  now rewrite append_assoc.
Qed.

Lemma is_stripped_link (t href : string) :
  is_stripped ("[" ++ t ++ "](" ++ href ++ ")") = true.
Proof.
  assert (Hl : last_char ("[" ++ t ++ "](" ++ href ++ ")") = ")"%char).
  { replace ("[" ++ t ++ "](" ++ href ++ ")") with (("[" ++ t ++ "](" ++ href) ++ ")")
      by (now rewrite !append_assoc).
    apply last_char_app_one. }
  cbn [append] in *. unfold is_stripped. now rewrite Hl.
Qed.

(** The line of a paragraph that has a number. *)
Lemma paragraph_line (prefix n c extra : string) :
  truthy n = true -> truthy c = true ->
  (forall x rest, prefix ++ "**" = String x rest -> isspace x = false) ->
  (let result :=
     (if truthy n then prefix ++ "**" ++ n ++ "** " else "")
     ++ (if truthy c then c ++ " " else "") ++ extra in
   if truthy (strip result) then result ++ NL else result)
  = prefix ++ "**" ++ n ++ "** " ++ c ++ " " ++ extra ++ NL.
Proof.
  intros Hn Hc Hp. cbv zeta. rewrite Hn, Hc.
  assert (Hs : truthy (strip ((prefix ++ "**" ++ n ++ "** ") ++ (c ++ " ") ++ extra)) = true).
  { replace ((prefix ++ "**" ++ n ++ "** ") ++ (c ++ " ") ++ extra)
      with ((prefix ++ "**") ++ (n ++ "** ") ++ (c ++ " ") ++ extra)
      by (now rewrite !append_assoc).
    destruct (prefix ++ "**") as [|x rest] eqn:E.
    - destruct prefix; discriminate.
    - cbn [append]. apply strip_head. exact (Hp x rest eq_refl). }
  rewrite Hs. now rewrite !append_assoc.
Qed.

End ParagraphFacts.

(** X4: a paragraph is rendered by its own branch and the walker adds
    nothing to it.  With a number and a content it is the number in bold,
    the content, a space and a newline (the texts stripped); with a
    reference behind them, the link stands on the same line, before the
    newline. *)
Theorem paragraph_rendering (parent : option string) (e : Element) (level : nat) :
  get_tag_name e = "paragraph" ->
  process_xml_tree parent e level = element_to_markdown parent e level
  /\ (forall n c tn tc,
         echildren e = [n; c] ->
         get_tag_name n = "num" -> etext n = Some tn -> truthy (strip tn) = true ->
         get_tag_name c = "content" -> etext c = Some tc -> truthy (strip tc) = true ->
         element_to_markdown parent e level
         = "**" ++ strip tn ++ "** " ++ strip tc ++ " " ++ NL ++ tail_text e)
  /\ (forall n c r tn tc tr href,
         echildren e = [n; c; r] ->
         get_tag_name n = "num" -> etext n = Some tn -> truthy (strip tn) = true ->
         get_tag_name c = "content" -> etext c = Some tc -> truthy (strip tc) = true ->
         get_tag_name r = "ref" -> echildren r = [] -> etext r = Some tr ->
         truthy (strip tr) = true ->
         attr_get (eattrib r) "href" = href -> truthy href = true ->
         tail_text r = "" ->
         element_to_markdown parent e level
         = "**" ++ strip tn ++ "** " ++ strip tc ++ " "
           ++ "[" ++ strip tr ++ "](" ++ href ++ ")" ++ NL ++ tail_text e).
Proof.
  intros Htag. split; [now apply process_xml_tree_paragraph|].
  assert (Hnum : forall n cs tn,
            echildren e = n :: cs -> get_tag_name n = "num" -> etext n = Some tn ->
            truthy (strip tn) = true -> get_child_text e "num" = strip tn).
  { intros n cs tn Hcs Hn Htn Hs. unfold get_child_text. rewrite Hcs.
    apply get_child_text_in_hit; auto using truthy_strip. }
  assert (Hcontent : forall n c cs tc,
            echildren e = n :: c :: cs -> get_tag_name n = "num" ->
            get_tag_name c = "content" -> etext c = Some tc ->
            truthy (strip tc) = true -> get_child_text e "content" = strip tc).
  { intros n c cs tc Hcs Hn Hc Htc Hs. unfold get_child_text. rewrite Hcs.
    rewrite get_child_text_in_other by (now rewrite Hn).
    apply get_child_text_in_hit; auto using truthy_strip. }
  assert (Hprefix : forall x rest, "" ++ "**" = String x rest -> isspace x = false).
  { intros x rest H. now inversion H. }
  split.
  - intros n c tn tc Hcs Hn Htn Hsn Hc Htc Hsc.
    rewrite (element_to_markdown_paragraph parent e level Htag).
    unfold render_paragraph.
    rewrite (Hnum n [c] tn Hcs Hn Htn Hsn), (Hcontent n c [] tc Hcs Hn Hc Htc Hsc).
    rewrite Hcs. cbn [walk_children]. unfold tag_not_in. rewrite Hn, Hc.
    cbn [mem existsb String.eqb Ascii.eqb Bool.eqb orb negb].
    change (strip "") with "".
    pose proof (paragraph_line "" (strip tn) (strip tc) "" Hsn Hsc Hprefix) as Hl.
    cbv zeta in Hl. rewrite Hl.
    repeat (rewrite ?append_assoc; cbn [append]). reflexivity.
  - intros n c r tn tc tr href Hcs Hn Htn Hsn Hc Htc Hsc Hr Hrcs Htr Hsr Hhref Hth Htail.
    rewrite (element_to_markdown_paragraph parent e level Htag).
    unfold render_paragraph.
    rewrite (Hnum n [c; r] tn Hcs Hn Htn Hsn), (Hcontent n c [r] tc Hcs Hn Hc Htc Hsc).
    rewrite Hcs. cbn [walk_children]. unfold tag_not_in. rewrite Hn, Hc, Hr.
    cbn [mem existsb String.eqb Ascii.eqb Bool.eqb orb negb].
    rewrite (process_xml_tree_ref _ r _ tr href Hr Hrcs Htr Hsr Hhref Hth), Htail.
    rewrite !append_nil_r.
    rewrite (strip_fixed _ (is_stripped_link (strip tr) href)).
    pose proof (paragraph_line "" (strip tn) (strip tc)
                               ("[" ++ strip tr ++ "](" ++ href ++ ")") Hsn Hsc Hprefix) as Hl.
    cbv zeta in Hl. rewrite Hl.
    repeat (rewrite ?append_assoc; cbn [append]). reflexivity.
Qed.

Lemma paragraph_rendering_witness :
  element_to_markdown None sample_paragraph 0
  = "**(1)** In general [see note](https://x)" ++ NL.
Proof.
  exact (proj2 (proj2 (paragraph_rendering None sample_paragraph 0 eq_refl))
               (leaf "num" "(1)") (leaf "content" "In general")
               (Elem "ref" None [("href", "https://x")] (Some "see note") [] None)
               "(1)" "In general" "see note" "https://x"
               eq_refl eq_refl eq_refl eq_refl eq_refl eq_refl eq_refl
               eq_refl eq_refl eq_refl eq_refl eq_refl eq_refl eq_refl).
Defined.

(* ================================================================== *)
(** * The table converter *)
(* ================================================================== *)

Section SoupFacts.
































(** A table of the plain shape is made of ordinary tags. *)
Lemma lower_char_letter (c : ascii) :
  is_ascii_letter (lower_char c) = true -> is_ascii_letter c = true.
Proof. destruct c as [[] [] [] [] [] [] [] []]; vm_compute; intros H; congruence. Qed.

Lemma lower_char_name_char (c : ascii) :
  is_name_char (lower_char c) = true -> is_name_char c = true.
Proof. destruct c as [[] [] [] [] [] [] [] []]; vm_compute; intros H; congruence. Qed.

Lemma is_tag_name_lower (s : string) :
  is_tag_name (lower s) = true -> is_tag_name s = true.
Proof.
  destruct s as [|c s]; [discriminate|]. cbn [lower is_tag_name].
  intros H. apply andb_true_iff in H as [Hc Hs].
  rewrite (lower_char_letter c Hc). cbn [andb].
  induction s as [|d s IH]; [reflexivity|].
  cbn [lower all_chars] in *. apply andb_true_iff in Hs as [Hd Hs].
  now rewrite (lower_char_name_char d Hd), IH.
Qed.

Lemma table_name_ordinary (e : Element) :
  In (soup_name e) ["table"; "thead"; "tbody"; "tr"; "th"; "td"] ->
  ordinary_tag e = true.
Proof.
  intros H. unfold ordinary_tag. apply andb_true_iff. split.
  - apply is_tag_name_lower. fold (soup_name e).
    destruct H as [<-|[<-|[<-|[<-|[<-|[<-|[]]]]]]]; reflexivity.
  - destruct H as [<-|[<-|[<-|[<-|[<-|[<-|[]]]]]]]; reflexivity.
Qed.

Lemma descendants_children (e : Element) :
  descendants e = flat_map (fun c => c :: descendants c) (echildren e).
Proof. destruct e; reflexivity. Qed.

Lemma descendants_row (name : string) (row : Element) :
  cell_row name row -> descendants row = echildren row.
Proof.
  intros [_ Hcells]. rewrite descendants_children.
  induction Hcells as [|c cs [_ Hleaf] _ IH]; [reflexivity|].
  cbn [flat_map]. rewrite (descendants_children c), Hleaf. cbn [flat_map app].
  now rewrite IH.
Qed.

Lemma row_ordinary (name : string) (row : Element) :
  In name ["th"; "td"] -> cell_row name row ->
  forallb ordinary_tag (row :: descendants row) = true.
Proof.
  intros Hname Hrow. rewrite (descendants_row name row Hrow).
  destruct Hrow as [Hr Hcells]. cbn [forallb].
  rewrite (table_name_ordinary row) by (rewrite Hr; cbn; tauto). cbn [andb].
  apply forallb_forall. intros c Hc.
  destruct (proj1 (Forall_forall _ _) Hcells c Hc) as [Hn _].
  apply table_name_ordinary. rewrite Hn.
  destruct Hname as [<-|[<-|[]]]; cbn; tauto.
Qed.

Lemma table_shape_plain (t thead hrow tbody : Element) :
  soup_name t = "table" -> echildren t = [thead; tbody] ->
  header_group thead hrow -> body_group tbody ->
  html_plain t = true.
Proof.
  intros Ht Hcs (Hh & Hhcs & Hhrow) (Hb & Hrows).
  unfold html_plain. cbn [forallb].
  rewrite (table_name_ordinary t) by (rewrite Ht; cbn; tauto). cbn [andb].
  rewrite descendants_children, Hcs. cbn [flat_map]. rewrite app_nil_r.
  cbn [app forallb]. rewrite forallb_app. cbn [forallb].
  rewrite (table_name_ordinary thead) by (rewrite Hh; cbn; tauto).
  rewrite (table_name_ordinary tbody) by (rewrite Hb; cbn; tauto). cbn [andb].
  apply andb_true_iff. split.
  - rewrite descendants_children, Hhcs. cbn [flat_map]. rewrite app_nil_r.
    apply (row_ordinary "th" hrow); [cbn; tauto | exact Hhrow].
  - rewrite descendants_children.
    induction Hrows as [|row rows Hrow _ IH]; [reflexivity|].
    cbn [flat_map]. change (row :: descendants row ++ ?l)%list
      with ((row :: descendants row) ++ l)%list.
    rewrite forallb_app, IH, andb_true_r.
    apply (row_ordinary "td" row); [cbn; tauto | exact Hrow].
Qed.

End SoupFacts.







(** X6: the list converter selects items by their bare tag.  When no node
    below the list has the tag [item] as it stands (as in a document whose
    tags all carry a namespace) it gives the empty string, and a node whose
    resolved tag is [list] is then rendered as its tail alone. *)
Theorem convert_list_bare_items (parent : option string) (e : Element) (level : nat) :
  Forall (fun d => etag d <> "item") (descendants e) ->
  convert_list e = ""
  /\ (get_tag_name e = "list" ->
      process_xml_tree parent e level = tail_text e).
Proof.
  intros H.
  assert (Hc : convert_list e = "").
  { unfold convert_list, xpath_descendants.
    replace (filter (fun d => String.eqb (etag d) "item") (descendants e)) with (@nil Element);
      [reflexivity|].
    induction H as [|d ds Hd _ IH]; [reflexivity|].
    cbn [filter]. apply String.eqb_neq in Hd. now rewrite Hd. }
  split; [exact Hc|].
  intros Htag. rewrite process_xml_tree_eq.
  unfold should_process_children. rewrite Htag.
  cbn [mem existsb skip_children_tags]. cbn. rewrite append_nil_r.
  unfold element_to_markdown, element_to_markdown_open, render_tag.
  rewrite Htag, Hc. cbn. now rewrite andb_false_r.
Qed.

Lemma convert_list_bare_items_witness :
  convert_list sample_namespaced_list = ""
  /\ process_xml_tree None sample_namespaced_list 0 = "".
Proof.
  assert (H : Forall (fun d => etag d <> "item") (descendants sample_namespaced_list)).
  { repeat constructor. discriminate. }
  split.
  - exact (proj1 (convert_list_bare_items None sample_namespaced_list 0 H)).
  - exact (proj2 (convert_list_bare_items None sample_namespaced_list 0 H) eq_refl).
Defined.

(* ================================================================== *)
(** * What the clean-up pass guarantees for every text *)
(* ================================================================== *)

Section CleanUpFacts.

Lemma never_spaces2_contains (s : string) :
  never spaces2 s -> contains "  " s = false.
Proof.
  induction s as [|c s IH]; [reflexivity|].
  intros H. apply never_cons in H as [H0 H].
  cbn [contains]. rewrite (IH H), orb_false_r.
  apply spaces2_None in H0.
  destruct (startswith "  " (String c s)) eqn:E; [exfalso|reflexivity].
  cbn [startswith] in E. destruct s as [|c2 s]; [now rewrite andb_false_r in E|].
  rewrite andb_true_r in E. apply andb_true_iff in E as [E1 E2].
  apply Ascii.eqb_eq in E1, E2. subst c c2.
  rewrite !span_cons_true in H0 by reflexivity. cbn [fst String.length] in H0. lia.
Qed.

Lemma never_newlines3_contains (s : string) :
  never newlines3 s -> contains (NL ++ NL ++ NL) s = false.
Proof.
  induction s as [|c s IH]; [reflexivity|].
  intros H. apply never_cons in H as [H0 H].
  cbn [contains]. rewrite (IH H), orb_false_r.
  apply newlines3_None in H0.
  destruct (startswith (NL ++ NL ++ NL) (String c s)) eqn:E; [exfalso|reflexivity].
  cbn [NL append startswith] in E.
  destruct s as [|c2 [|c3 s]]; try (rewrite ?andb_false_r in E; discriminate).
  rewrite andb_true_r in E.
  apply andb_true_iff in E as [E1 E]. apply andb_true_iff in E as [E2 E3].
  apply Ascii.eqb_eq in E1, E2, E3. subst c c2 c3.
  rewrite !span_cons_true in H0 by reflexivity. cbn [fst String.length] in H0. lia.
Qed.

(** The lines of the result are stripped, whatever the text. *)
Lemma postprocess_stripped (s : string) :
  Forall (fun l => is_stripped l = true) (split NL (postprocess s)).
Proof.
  unfold postprocess.
  set (x2 := strip_lines (collapse_newlines s)).
  assert (B2 : Forall (fun l => is_stripped l = true) (split NL x2))
    by apply strip_lines_stripped.
  assert (B3 : Forall (fun l => is_stripped l = true) (split NL (tighten_headings x2))).
  { refine (squeeze_lines is_nl _ x2 _ _ (tighten_headings_squeeze x2) B2).
    intros l l' _. apply is_stripped_squeeze. }
  refine (squeeze_lines is_space _ _ _ _ (collapse_spaces_squeeze _) B3).
  intros l l' _. apply is_stripped_squeeze.
Qed.

Lemma squeeze_keep_lines (Q : string -> Prop) (s s' : string) :
  squeeze is_nl s s' -> Forall Q (split NL s) -> Forall Q (split NL s').
Proof.
  apply squeeze_lines. intros l l' Hfree Hsq HQ.
  now rewrite (squeeze_none is_nl l l' Hfree Hsq).
Qed.

(** With no line of white space only, the result has no run of three
    newlines. *)
Lemma postprocess_never_newlines3 (s : string) :
  Forall (fun line => whitespace_only line = false) (split NL s) ->
  never newlines3 (postprocess s).
Proof.
  intros Hws. unfold postprocess.
  apply (never_newlines3_squeeze is_space _ _ (collapse_spaces_squeeze _)).
  apply (never_newlines3_squeeze is_nl _ _ (tighten_headings_squeeze _)).
  apply strip_lines_never; [|apply collapse_newlines_never].
  exact (squeeze_keep_lines _ s _ (collapse_newlines_squeeze s) Hws).
Qed.

Lemma postprocess_never_blank_heading (s : string) :
  Forall (fun line => whitespace_only line = false) (split NL s) ->
  Forall (fun line => hash_only line = false) (split NL s) ->
  never blank_before_heading (postprocess s).
Proof.
  intros Hws Hhash. unfold postprocess.
  apply (never_blank_before_heading_squeeze is_space _ _ (collapse_spaces_squeeze _)).
  pose proof (squeeze_keep_lines _ s _ (collapse_newlines_squeeze s) Hws) as W1.
  pose proof (squeeze_keep_lines _ s _ (collapse_newlines_squeeze s) Hhash) as H1.
  apply tighten_headings_never.
  - apply strip_lines_never; [exact W1 | apply collapse_newlines_never].
  - apply hash_only_never. rewrite strip_lines_lines. apply Forall_map.
    eapply Forall_impl; [|exact H1].
    intros l Hl. unfold hash_only in *. now rewrite strip_idem.
Qed.

End CleanUpFacts.

(** X7: whatever the text, every line of the cleaned text is free of white
    space at both ends, and the cleaned text has no two spaces in a row. *)
Theorem postprocess_lines_and_spaces (s : string) :
  Forall (fun line => strip line = line) (split NL (postprocess s))
  /\ contains "  " (postprocess s) = false.
Proof.
  split.
  - eapply Forall_impl; [|apply postprocess_stripped]. intros l. apply strip_fixed.
  - apply never_spaces2_contains. unfold postprocess. apply collapse_spaces_never.
Qed.

(** X8: when no line of the text is made of white space only, the cleaned
    text has no three newlines in a row; when no line is made of hashes
    only either, the pattern of a blank line before a heading matches
    nowhere in it. *)
Theorem postprocess_blank_lines (s : string) :
  Forall (fun line => whitespace_only line = false) (split NL s) ->
  contains (NL ++ NL ++ NL) (postprocess s) = false
  /\ (Forall (fun line => hash_only line = false) (split NL s) ->
      never blank_before_heading (postprocess s)).
Proof.
  intros Hws. split.
  - now apply never_newlines3_contains, postprocess_never_newlines3.
  - intros Hhash. now apply postprocess_never_blank_heading.
Qed.

Lemma postprocess_blank_lines_witness :
  contains (NL ++ NL ++ NL)
           (postprocess ("a    b  " ++ NL ++ NL ++ NL ++ NL ++ "## x   y")) = false.
Proof.
  apply (postprocess_blank_lines ("a    b  " ++ NL ++ NL ++ NL ++ NL ++ "## x   y")).
  vm_compute. repeat constructor.
Defined.

Section NonSpaceFacts.

Lemma filter_chars_app (p : ascii -> bool) (a b : string) :
  filter_chars p (a ++ b) = filter_chars p a ++ filter_chars p b.
Proof.
  induction a as [|c a IH]; [reflexivity|]. cbn [append filter_chars].
  destruct (p c); cbn [append]; now rewrite IH.
Qed.

Lemma filter_chars_squeeze (d : ascii -> bool) (s s' : string) :
  (forall c, d c = true -> isspace c = true) ->
  squeeze d s s' -> filter_chars not_space s' = filter_chars not_space s.
Proof.
  intros Hd Hsq. induction Hsq as [|c s s' _ IH|c s s' Hc _ IH].
  - reflexivity.
  - cbn [filter_chars]. now rewrite IH.
  - rewrite IH. cbn [filter_chars]. unfold not_space. now rewrite (Hd c Hc).
Qed.

Lemma filter_chars_lstrip (s : string) :
  filter_chars not_space (lstrip s) = filter_chars not_space s.
Proof.
  induction s as [|c s IH]; [reflexivity|]. cbn [lstrip filter_chars].
  unfold not_space at 2. destruct (isspace c) eqn:E; [exact IH|].
  cbn [filter_chars negb]. unfold not_space at 1. now rewrite E.
Qed.

Lemma filter_chars_rstrip (s : string) :
  filter_chars not_space (rstrip s) = filter_chars not_space s.
Proof.
  induction s as [|c s IH]; [reflexivity|]. cbn [rstrip].
  destruct (rstrip s) as [|x r].
  - cbn [filter_chars] in IH. cbn [filter_chars]. rewrite <- IH.
    unfold not_space. destruct (isspace c) eqn:E; cbn [filter_chars negb];
      [reflexivity|]. unfold not_space. now rewrite E.
  - change (filter_chars not_space (String c (String x r)))
      with (if not_space c then String c (filter_chars not_space (String x r))
            else filter_chars not_space (String x r)).
    cbn [filter_chars] in IH |- *. now rewrite IH.
Qed.

Lemma filter_chars_join_strip (L : list string) :
  filter_chars not_space (join NL (map strip L)) = filter_chars not_space (join NL L).
Proof.
  induction L as [|l L IH]; [reflexivity|].
  assert (Hs : filter_chars not_space (strip l) = filter_chars not_space l).
  { unfold strip. now rewrite filter_chars_rstrip, filter_chars_lstrip. }
  destruct L as [|l2 L]; [exact Hs|].
  cbn [map]. rewrite (join_cons NL (strip l)), (join_cons NL l) by discriminate.
  cbn [map] in IH. rewrite !filter_chars_app, Hs. now rewrite IH.
Qed.

End NonSpaceFacts.

(** X9: the clean-up pass only takes white space away: the characters of the
    cleaned text that are not white space are those of the text, in their
    order. *)
Theorem postprocess_keeps_text (s : string) :
  filter_chars not_space (postprocess s) = filter_chars not_space s.
Proof.
  unfold postprocess.
  rewrite (filter_chars_squeeze is_space _ _ ltac:(now intros c ->%is_space_only)
             (collapse_spaces_squeeze _)).
  rewrite (filter_chars_squeeze is_nl _ _ ltac:(now intros c ->%is_nl_only)
             (tighten_headings_squeeze _)).
  unfold strip_lines. rewrite filter_chars_join_strip.
  rewrite (join_split NL ltac:(discriminate)).
  exact (filter_chars_squeeze is_nl _ _ ltac:(now intros c ->%is_nl_only)
           (collapse_newlines_squeeze s)).
Qed.

(* ================================================================== *)
(** * The search and the answers of the agent *)
(* ================================================================== *)

Section KeyTermFacts.

Lemma split_ws_from_words (cur : option string) (s : string) :
  match cur with
  | Some w => w <> "" /\ all_chars not_space w = true
  | None => True
  end ->
  Forall (fun w => w <> "" /\ all_chars not_space w = true) (split_ws_from cur s).
Proof.
  revert cur. induction s as [|c s IH]; intros cur Hcur; cbn [split_ws_from].
  - destruct cur; [now constructor | constructor].
  - destruct (isspace c) eqn:E.
    + destruct cur; [constructor; [exact Hcur|]|]; now apply IH.
    + apply IH. destruct cur as [w|].
      * destruct Hcur as [Hne Hall]. split; [destruct w; discriminate|].
        clear -Hall E. induction w as [|x w IHw]; cbn [append all_chars] in *.
        -- unfold not_space. now rewrite E.
        -- apply andb_true_iff in Hall as [Hx Hw]. now rewrite Hx, IHw.
      * split; [discriminate|]. cbn [all_chars]. unfold not_space. now rewrite E.
Qed.

End KeyTermFacts.

(** X10: the key terms of a question are the tax terms that occur in it,
    upper or lower case, in the order of the list; when none occurs, they
    are the words of the question (runs of characters that are not white
    space) of more than four characters that are not question words.  A
    shorter word is never a key term unless it is a tax term. *)
Theorem extract_key_terms_sound (question : string) :
  let found :=
    filter (fun term => contains (lower term) (lower question)) tax_terms in
  (found <> [] -> _extract_key_terms question = found)
  /\ (found = [] ->
      Forall (fun word =>
                In word (split_ws question) /\ 4 < String.length word
                /\ mem (lower word) question_words = false
                /\ all_chars not_space word = true)
             (_extract_key_terms question))
  /\ Forall (fun term => In term tax_terms \/ 4 < String.length term)
            (_extract_key_terms question).
Proof.
  cbv zeta. unfold _extract_key_terms.
  set (found := filter (fun term => contains (lower term) (lower question)) tax_terms).
  assert (Hwords : Forall (fun word =>
                In word (split_ws question) /\ 4 < String.length word
                /\ mem (lower word) question_words = false
                /\ all_chars not_space word = true)
             (filter (fun word => Nat.ltb 4 (String.length word)
                                  && negb (mem (lower word) question_words))
                     (split_ws question))).
  { apply Forall_forall. intros w Hin. apply filter_In in Hin as [Hin Hw].
    apply andb_true_iff in Hw as [Hlen Hmem].
    apply Nat.ltb_lt in Hlen. apply negb_true_iff in Hmem.
    repeat split; try assumption.
    pose proof (split_ws_from_words None question I) as HF.
    rewrite Forall_forall in HF. exact (proj2 (HF w Hin)). }
  split; [|split].
  - intros Hne. destruct found; [contradiction|reflexivity].
  - intros ->. exact Hwords.
  - destruct found as [|t ts] eqn:E.
    + eapply Forall_impl; [|exact Hwords]. intros w (_ & Hlen & _). now right.
    + apply Forall_forall. intros w Hin. left.
      assert (Hf : In w found) by now rewrite E.
      unfold found in Hf. now apply filter_In in Hf as [Hf _].
Qed.

Lemma extract_key_terms_sound_witness :
  _extract_key_terms "What is the standard deduction amount?" = ["deduction"].
Proof.
  refine (proj1 (extract_key_terms_sound "What is the standard deduction amount?") _).
  vm_compute. discriminate.
Defined.

Section FindAllFacts.

Context {A : Type}.
Variable m : string -> option (A * nat).

Lemma re_findall_from_drop (k : nat) (s : string) :
  re_findall_from m k s = re_findall m (drop k s).
Proof.
  revert k; induction s as [|c s IH]; intros [|k]; try reflexivity.
  simpl. apply IH.
Qed.

Lemma re_findall_match (c : ascii) (s : string) (v : A) (n : nat) :
  m (String c s) = Some (v, n) ->
  re_findall m (String c s) = v :: re_findall m (drop (n - 1) s).
Proof.
  intros Hm. unfold re_findall at 1. simpl. rewrite Hm.
  now rewrite re_findall_from_drop.
Qed.

Lemma re_findall_skip (c : ascii) (s : string) :
  m (String c s) = None -> re_findall m (String c s) = re_findall m s.
Proof. intros Hm. unfold re_findall. simpl. now rewrite Hm. Qed.

(** What holds of every match, at every place of the text, holds of every
    match found. *)
Lemma re_findall_Forall (P : A -> Prop) (s : string) :
  (forall k v n, m (drop k s) = Some (v, n) -> P v) ->
  Forall P (re_findall m s).
Proof.
  remember (String.length s) as len eqn:Hlen. revert s Hlen.
  induction len as [len IH] using lt_wf_ind. intros s Hlen H.
  destruct s as [|c s]; [constructor|].
  destruct (m (String c s)) as [[v n]|] eqn:E.
  - rewrite (re_findall_match c s v n E). constructor; [exact (H 0 v n E)|].
    apply (IH (String.length (drop (n - 1) s))).
    + rewrite length_drop. subst len. simpl. lia.
    + reflexivity.
    + intros k v' n' Hk. apply (H (S (n - 1 + k)) v' n'). cbn [drop].
      now rewrite <- drop_drop.
  - rewrite (re_findall_skip c s E).
    apply (IH (String.length s)); [subst len; simpl; lia | reflexivity|].
    intros k v' n' Hk. exact (H (S k) v' n' Hk).
Qed.

Lemma re_findall_none (s : string) :
  (forall k, m (drop k s) = None) -> re_findall m s = [].
Proof.
  induction s as [|c s IH]; intros H; [reflexivity|].
  rewrite re_findall_skip by exact (H 0). apply IH. intros k. exact (H (S k)).
Qed.

End FindAllFacts.

Section SectionBlockFacts.

Lemma startswith_app (a b : string) : startswith a (a ++ b) = true.
Proof. induction a as [|c a IH]; [reflexivity|]. cbn. now rewrite Ascii.eqb_refl. Qed.

Lemma lazy_until_heading_prefix (s : string) :
  startswith (lazy_until_heading s) s = true.
Proof.
  induction s as [|c s IH]; [reflexivity|]. cbn [lazy_until_heading].
  destruct (heading_ahead (String c s)); [reflexivity|].
  cbn [startswith]. now rewrite Ascii.eqb_refl.
Qed.

(** The shape of a match of the section pattern. *)
Lemma section_block_Some (t h c : string) (n : nat) :
  section_block t = Some ((h, c), n) ->
  exists (k : nat) (w : ascii) (line : string),
    1 <= k <= 4 /\ isspace w = true /\ line <> "" /\ nl_free line = true
    /\ h = repeat_char k hash ++ String w line
    /\ c <> ""
    /\ startswith (h ++ NL ++ NL ++ c) t = true.
Proof.
  unfold section_block.
  pose proof (span_append is_hash t) as Happ.
  pose proof (span_all is_hash t) as Hall.
  destruct (span is_hash t) as [hashes a1] eqn:Es. cbn [fst snd] in *.
  destruct (Nat.leb_spec 1 (String.length hashes)) as [Hk1|]; [|discriminate].
  destruct (Nat.leb_spec (String.length hashes) 4) as [Hk4|]; [|discriminate].
  cbn [andb].
  destruct a1 as [|w a2]; [discriminate|].
  destruct (isspace w) eqn:Ew; [|discriminate].
  pose proof (span_append (fun c => negb (is_nl c)) a2) as Happ2.
  pose proof (span_all (fun c => negb (is_nl c)) a2) as Hall2.
  pose proof (span_snd_head (fun c => negb (is_nl c)) a2) as Hhd.
  destruct (span (fun c => negb (is_nl c)) a2) as [line a3] eqn:Es2. cbn [fst snd] in *.
  destruct line as [|l0 line]; [discriminate|].
  destruct a3 as [|n1 [|n2 [|c0 a5]]]; try discriminate.
  destruct (is_nl n2) eqn:En2; [|discriminate].
  intros H. inversion H. subst h c n. clear H.
  apply negb_false_iff in Hhd. apply is_nl_only in Hhd, En2. subst n1 n2.
  exists (String.length hashes), w, (String l0 line).
  rewrite <- (all_chars_repeat is_hash hash (fun c => proj1 (Ascii.eqb_eq c hash)) _ Hall).
  repeat split; try assumption; try discriminate.
  rewrite <- Happ, <- Happ2.
  replace ((hashes ++ String w (String l0 line)) ++ NL ++ NL
           ++ String c0 (lazy_until_heading a5))
    with (hashes ++ String w (String l0 line ++ String nl (String nl (String c0
            (lazy_until_heading a5)))))
    by (cbn [NL append]; rewrite append_assoc; reflexivity).
  clear. induction hashes as [|x hs IH]; cbn [append startswith].
  - rewrite !Ascii.eqb_refl. cbn [andb].
    induction line as [|y line IHl]; cbn [append startswith];
      rewrite ?Ascii.eqb_refl; cbn [andb]; [apply lazy_until_heading_prefix | exact IHl].
  - now rewrite Ascii.eqb_refl.
Qed.

End SectionBlockFacts.

(** X11: every section the pattern finds has a heading made of one to four
    hashes, one white-space character and a line that is not empty, and a
    content that is not empty; heading, blank line and content stand in the
    text as they are found. *)
Theorem found_sections_shape (tax_code_content : string) :
  Forall (fun '(h, c) =>
            (exists (k : nat) (w : ascii) (line : string),
                1 <= k <= 4 /\ isspace w = true /\ line <> "" /\ nl_free line = true
                /\ h = repeat_char k hash ++ String w line)
            /\ c <> ""
            /\ exists i, startswith (h ++ NL ++ NL ++ c) (drop i tax_code_content) = true)
         (re_findall section_block tax_code_content).
Proof.
  apply re_findall_Forall. intros i [h c] n H.
  apply section_block_Some in H as (k & w & line & Hk & Hw & Hl & Hf & Hh & Hc & Hs).
  split; [now exists k, w, line|]. split; [exact Hc | now exists i].
Qed.

Section RankingFacts.

Lemma insert_by_relevance_In (x y : RelevantSection) (l : list RelevantSection) :
  In y (insert_by_relevance x l) <-> y = x \/ In y l.
Proof.
  induction l as [|z l IH]; cbn [insert_by_relevance].
  - split; intros [H|H]; auto; try contradiction. now left.
  - destruct (Nat.ltb (relevance x) (relevance z)); cbn [In]; [rewrite IH|]; intuition.
Qed.

Lemma sort_by_relevance_In (y : RelevantSection) (l : list RelevantSection) :
  In y (sort_by_relevance l) <-> In y l.
Proof.
  induction l as [|x l IH]; [reflexivity|].
  cbn [sort_by_relevance fold_right]. fold (sort_by_relevance l).
  rewrite insert_by_relevance_In, IH. cbn [In]. intuition.
Qed.

Lemma insert_by_relevance_length (x : RelevantSection) (l : list RelevantSection) :
  List.length (insert_by_relevance x l) = S (List.length l).
Proof.
  induction l as [|z l IH]; [reflexivity|]. cbn [insert_by_relevance].
  destruct (Nat.ltb _ _); cbn [List.length]; now rewrite ?IH.
Qed.

Lemma sort_by_relevance_length (l : list RelevantSection) :
  List.length (sort_by_relevance l) = List.length l.
Proof.
  induction l as [|x l IH]; [reflexivity|].
  cbn [sort_by_relevance fold_right]. fold (sort_by_relevance l).
  now rewrite insert_by_relevance_length, IH.
Qed.

Lemma In_firstn {A : Type} (n : nat) (l : list A) (x : A) :
  In x (firstn n l) -> In x l.
Proof.
  intros H. rewrite <- (firstn_skipn n l). apply in_or_app. now left.
Qed.

Lemma StronglySorted_app_order {A : Type} (R : A -> A -> Prop) (a b : list A) :
  StronglySorted R (a ++ b) -> forall x y, In x a -> In y b -> R x y.
Proof.
  induction a as [|z a IH]; intros Hs x y Hx Hy; [contradiction|].
  cbn [app] in Hs. apply StronglySorted_inv in Hs as [Hs Hz].
  destruct Hx as [->|Hx]; [|now apply IH].
  rewrite Forall_forall in Hz. apply Hz. apply in_or_app. now right.
Qed.

End RankingFacts.

(** X12: the sections returned are the most relevant ones.  Every record
    has a relevance of one at least and the citation of its heading; there
    are as many records as sections that score, up to three; and a section
    that scores and is not returned is not more relevant than any that
    is. *)
Theorem relevant_sections_top (tax_code_content question : string) :
  let scored :=
    scored_sections (_extract_key_terms question)
                    (re_findall section_block tax_code_content) in
  let result := _find_relevant_sections tax_code_content question in
  Forall (fun r => 1 <= relevance r /\ citation r = _extract_citation (heading r)
                   /\ In r scored) result
  /\ List.length result = Nat.min 3 (List.length scored)
  /\ (forall r, In r scored -> ~ In r result ->
                Forall (fun x => relevance r <= relevance x) result).
Proof.
  cbv zeta. unfold _find_relevant_sections.
  set (scored := scored_sections _ _).
  split; [|split].
  - apply Forall_forall. intros r Hin.
    apply In_firstn in Hin. apply (proj1 (sort_by_relevance_In _ _)) in Hin.
    pose proof (scored_sections_Forall (_extract_key_terms question)
                  (re_findall section_block tax_code_content)) as HF.
    rewrite Forall_forall in HF.
    destruct (HF r Hin) as (_ & Hpos & h & c & _ & Hh & _ & Hc & _).
    repeat split; [lia | now rewrite Hc, Hh | exact Hin].
  - now rewrite length_firstn, sort_by_relevance_length.
  - intros r Hin Hnot. apply Forall_forall. intros x Hx.
    apply (proj2 (sort_by_relevance_In _ _)) in Hin.
    rewrite <- (firstn_skipn 3 (sort_by_relevance scored)) in Hin.
    apply in_app_or in Hin as [Hin|Hin]; [contradiction|].
    pose proof (sort_by_relevance_sorted scored) as Hs.
    rewrite <- (firstn_skipn 3 (sort_by_relevance scored)) in Hs.
    exact (StronglySorted_app_order by_relevance _ _ Hs x r Hx Hin).
Qed.

Section AnswerFacts.

Lemma extract_citation_truthy (h : string) : truthy (_extract_citation h) = true.
Proof.
  unfold _extract_citation.
  destruct (re_search section_number h) as [[section group2]|]; reflexivity.
Qed.

Lemma section_block_no_hash (t : string) :
  match t with String c _ => is_hash c = false | EmptyString => True end ->
  section_block t = None.
Proof.
  intros H. unfold section_block. now rewrite (span_none is_hash t H).
Qed.

(** A text with no hash has no section. *)
Lemma re_findall_no_hash (s : string) :
  all_chars (fun c => negb (is_hash c)) s = true ->
  re_findall section_block s = [].
Proof.
  intros H. apply re_findall_none. intros k. apply section_block_no_hash.
  revert s H. induction k as [|k IH]; intros s H.
  - destruct s as [|c s]; [exact I|]. cbn [drop]. simpl in H.
    apply andb_true_iff in H as [Hc _]. now apply negb_true_iff in Hc.
  - destruct s as [|c s]; [exact I|]. cbn [drop]. apply IH.
    simpl in H. now apply andb_true_iff in H as [_ H].
Qed.

Lemma find_relevant_sections_none (tax_code_content question : string) :
  re_findall section_block tax_code_content = [] \/ _extract_key_terms question = [] ->
  _find_relevant_sections tax_code_content question = [].
Proof.
  unfold _find_relevant_sections. intros [->| ->]; [reflexivity|].
  replace (scored_sections [] (re_findall section_block tax_code_content))
    with (@nil RelevantSection); [reflexivity|].
  unfold scored_sections.
  induction (re_findall section_block tax_code_content) as [|[h c] l IH]; [reflexivity|].
  cbn [flat_map]. now rewrite <- IH.
Qed.

End AnswerFacts.

(** X13: a question with no key term, and a tax code with no hash in it,
    get the not-found answer whatever the language model would say; so does
    every question when the tax code file is missing or cannot be read. *)
Theorem query_not_found (chat : string -> option string)
        (tax_code_content : string) (history : list (string * string))
        (question : string) :
  _extract_key_terms question = []
  \/ all_chars (fun c => negb (is_hash c)) tax_code_content = true
  \/ tax_code_content = _load_tax_code FileMissing
  \/ tax_code_content = _load_tax_code FileUnreadable ->
  _find_relevant_sections tax_code_content question = []
  /\ fst (query chat tax_code_content history question) = not_found_message.
Proof.
  intros H.
  assert (Hnone : _find_relevant_sections tax_code_content question = []).
  { apply find_relevant_sections_none.
    destruct H as [H|[H|[H|H]]]; [now right| left..].
    - now apply re_findall_no_hash.
    - subst. reflexivity.
    - subst. reflexivity. }
  split; [exact Hnone|].
  unfold query. cbn [fst]. now rewrite Hnone.
Qed.

Lemma query_not_found_witness :
  fst (query (fun _ => Some "42") (_load_tax_code FileMissing) []
             "What is the standard deduction?")
  = not_found_message.
Proof.
  refine (proj2 (query_not_found _ _ _ _ _)).
  right. right. left. reflexivity.
Defined.

(** X14: when there are sections, the answer is the language model's, and
    the apology when the call fails.  The answer is returned as it is when
    a section has a citation, as every section of the search has; the
    source line is added only when no section has a citation, and then it
    names none. *)
Theorem generate_response_cases (chat : string -> option string) (question : string)
        (first : RelevantSection) (others : list RelevantSection) :
  let sections := first :: others in
  let prompt := build_prompt question (prompt_context sections) in
  (chat prompt = None -> _generate_response chat question sections = trouble_message)
  /\ (forall answer,
         chat prompt = Some answer ->
         (any_citation sections = true ->
          _generate_response chat question sections = answer)
         /\ (any_citation sections = false ->
             citation first = ""
             /\ _generate_response chat question sections
                = if contains "Source:" answer then answer
                  else answer ++ NL ++ NL ++ "Source: "))
  /\ (forall tax_code_content answer,
         _find_relevant_sections tax_code_content question = sections ->
         chat prompt = Some answer ->
         _generate_response chat question sections = answer).
Proof.
  cbv zeta. unfold _generate_response.
  split; [now intros ->|].
  assert (Hany : forall answer,
             any_citation (first :: others) = true ->
             with_source (first :: others) answer = answer).
  { intros answer H. unfold with_source. now rewrite H. }
  split.
  - intros answer ->. split; [apply Hany|].
    intros Hnone. unfold with_source. rewrite Hnone. cbn [negb].
    unfold any_citation in Hnone. cbn [existsb] in Hnone.
    apply orb_false_iff in Hnone as [Hfirst _]. apply truthy_false in Hfirst.
    split; [exact Hfirst|]. rewrite Hfirst.
    destruct (contains "Source:" answer); cbn [negb]; [reflexivity|].
    now rewrite append_nil_r.
  - intros tax_code_content answer Hfind ->. apply Hany.
    pose proof (relevant_sections_top tax_code_content question) as (HF & _).
    cbv zeta in HF. rewrite Hfind in HF. apply Forall_inv in HF as (_ & Hc & _).
    unfold any_citation. cbn [existsb]. now rewrite Hc, extract_citation_truthy.
Qed.

Lemma generate_response_cases_witness :
  _generate_response (fun _ => None) "What is income?" [sample_record] = trouble_message.
Proof.
  exact (proj1 (generate_response_cases (fun _ => None) "What is income?"
                                        sample_record []) eq_refl).
Defined.

Section CitationShape.

Lemma section_number_other (c : ascii) (t : string) :
  Ascii.eqb c sect = false -> section_number (String c t) = None.
Proof. intros H. unfold section_number. now rewrite H. Qed.

Lemma re_search_skip (a t : string) :
  all_chars (fun c => negb (Ascii.eqb c sect)) a = true ->
  re_search section_number (a ++ t) = re_search section_number t.
Proof.
  induction a as [|c a IH]; [reflexivity|]. simpl all_chars.
  intros H. apply andb_true_iff in H as [Hc Ha]. apply negb_true_iff in Hc.
  cbn [append re_search]. rewrite (section_number_other c _ Hc). now apply IH.
Qed.

Lemma all_chars_impl (p q : ascii -> bool) (s : string) :
  (forall c, p c = true -> q c = true) -> all_chars p s = true -> all_chars q s = true.
Proof.
  intros Hpq. induction s as [|c s IH]; [easy|]. simpl.
  intros H. apply andb_true_iff in H as [Hc Hs]. now rewrite (Hpq c Hc), IH.
Qed.

Lemma all_chars_app (p : ascii -> bool) (a b : string) :
  all_chars p a = true -> all_chars p b = true -> all_chars p (a ++ b) = true.
Proof.
  intros Ha Hb. induction a as [|c a IH]; [exact Hb|]. simpl in *.
  apply andb_true_iff in Ha as [Hc Ha]. now rewrite Hc, IH.
Qed.

Lemma paren_group_other (rest : string) :
  match rest with String c _ => c <> "("%char | EmptyString => True end ->
  paren_group rest = None.
Proof.
  destruct rest as [|c rest]; [reflexivity|]. intros H. unfold paren_group.
  destruct c as [[] [] [] [] [] [] [] []]; try reflexivity. contradiction.
Qed.

Lemma paren_group_some (sub rest : string) :
  sub <> "" -> all_chars (fun c => negb (Ascii.eqb c ")"%char)) sub = true ->
  paren_group (("(" ++ sub ++ ")") ++ rest) = Some (sub, String.length sub + 2).
Proof.
  intros Hne Hsub. unfold paren_group. cbn [append]. rewrite append_assoc.
  cbn [append].
  change (sub ++ String ")" rest) with (sub ++ String ")"%char rest).
  rewrite (span_run _ sub (String ")"%char rest) Hsub eq_refl).
  destruct sub; [contradiction|reflexivity].
Qed.

(** The section number at the start of [§digits(sub)rest]. *)
Lemma section_number_at (digits rest : string) (group : option string) :
  all_chars isdigit digits = true -> digits <> "" ->
  match group with
  | Some sub => sub <> "" /\ all_chars (fun c => negb (Ascii.eqb c ")"%char)) sub = true
  | None => match rest with
            | String c _ => isdigit c = false /\ c <> "("%char
            | EmptyString => True
            end
  end ->
  section_number (SECT ++ digits ++ subsection_text group ++ rest)
  = Some ((digits, group),
          1 + String.length digits + String.length (subsection_text group)).
Proof.
  intros Hd Hne Hg. unfold section_number. cbn [SECT append].
  rewrite Ascii.eqb_refl.
  assert (Hspan : span isdigit (digits ++ subsection_text group ++ rest)
                  = (digits, subsection_text group ++ rest)).
  { apply span_run; [exact Hd|].
    destruct group as [sub|]; [reflexivity|]. cbn [subsection_text append].
    destruct rest; [exact I | exact (proj1 Hg)]. }
  rewrite Hspan. destruct digits as [|d digits]; [contradiction|].
  destruct group as [sub|]; cbn [subsection_text].
  - destruct Hg as [Hsne Hsub]. rewrite (paren_group_some sub rest Hsne Hsub).
    rewrite !length_append. cbn [String.length append plus]. do 2 f_equal. lia.
  - cbn [append]. rewrite paren_group_other.
    + cbn [String.length plus]. do 2 f_equal. lia.
    + destruct rest; [exact I | exact (proj2 Hg)].
Qed.

Lemma hashes_section_number_no_hash (s : string) :
  all_chars (fun c => negb (is_hash c)) s = true ->
  forall k, hashes_section_number (drop k s) = None.
Proof.
  assert (H0 : forall s, all_chars (fun c => negb (is_hash c)) s = true ->
                         hashes_section_number s = None).
  { intros t Ht. unfold hashes_section_number.
    rewrite (span_none is_hash t).
    - destruct (span isspace t); reflexivity.
    - destruct t as [|c t]; [exact I|]. simpl in Ht.
      apply andb_true_iff in Ht as [Hc _]. now apply negb_true_iff in Hc. }
  intros Hs k. apply H0. revert s Hs.
  induction k as [|k IH]; intros s Hs; [now rewrite drop_0|].
  destruct s as [|c s]; [exact Hs|]. simpl in *.
  apply andb_true_iff in Hs as [_ Hs]. now apply IH.
Qed.

End CitationShape.

(** X15: a heading made of one to four hashes, white space, the section
    sign, a number, a subsection in parentheses or none, and a text with no
    hash has the citation [26 USC], section sign, number, subsection and,
    in brackets, the text stripped. *)
Theorem citation_of_section_heading (hashes ws digits rest : string)
        (group : option string) :
  all_chars is_hash hashes = true -> 1 <= String.length hashes <= 4 ->
  all_chars isspace ws = true -> ws <> "" ->
  all_chars isdigit digits = true -> digits <> "" ->
  all_chars (fun c => negb (is_hash c)) rest = true ->
  match group with
  | Some sub => sub <> "" /\ all_chars (fun c => negb (Ascii.eqb c ")"%char)) sub = true
  | None => match rest with
            | String c _ => isdigit c = false /\ c <> "("%char
            | EmptyString => True
            end
  end ->
  _extract_citation (hashes ++ ws ++ SECT ++ digits ++ subsection_text group ++ rest)
  = "26 USC " ++ SECT ++ digits ++ subsection_text group ++ " [" ++ strip rest ++ "]".
Proof.
  intros Hh Hlen Hws Hwne Hd Hdne Hrest Hg.
  set (tailS := SECT ++ digits ++ subsection_text group ++ rest).
  pose proof (section_number_at digits rest group Hd Hdne Hg) as Hsn. fold tailS in Hsn.
  assert (Hsearch : re_search section_number (hashes ++ ws ++ tailS)
                    = Some (digits, group)).
  { rewrite !re_search_skip.
    - unfold tailS in *. cbn [SECT append] in *. cbn [re_search]. now rewrite Hsn.
    - eapply all_chars_impl; [|exact Hws]. intros c Hc.
      destruct (Ascii.eqb_spec c sect) as [->|]; [discriminate|reflexivity].
    - eapply all_chars_impl; [|exact Hh]. intros c Hc.
      apply Ascii.eqb_eq in Hc. now subst c. }
  assert (Hspan1 : span is_hash (hashes ++ ws ++ tailS) = (hashes, ws ++ tailS)).
  { apply span_run; [exact Hh|]. destruct ws as [|w ws]; [contradiction|].
    cbn [append]. simpl in Hws. apply andb_true_iff in Hws as [Hw _].
    now apply isspace_not_hash. }
  assert (Hspan2 : span isspace (ws ++ tailS) = (ws, tailS)).
  { apply span_run; [exact Hws | reflexivity]. }
  assert (Hwl : 1 <= String.length ws) by (destruct ws; [contradiction | simpl; lia]).
  set (n := 1 + String.length digits + String.length (subsection_text group)) in *.
  assert (Hm : hashes_section_number (hashes ++ ws ++ tailS)
               = Some ("", String.length hashes + String.length ws + n)).
  { unfold hashes_section_number. rewrite Hspan1, Hspan2, Hsn.
    destruct (Nat.leb_spec 1 (String.length hashes)); [|lia].
    destruct (Nat.leb_spec (String.length hashes) 4); [|lia].
    destruct (Nat.leb_spec 1 (String.length ws)); [|lia].
    reflexivity. }
  assert (Hdrop : drop (String.length hashes + String.length ws + n)
                       (hashes ++ ws ++ tailS) = rest).
  { rewrite <- !drop_drop, !drop_append. unfold tailS, n.
    replace (SECT ++ digits ++ subsection_text group ++ rest)
      with ((SECT ++ digits ++ subsection_text group) ++ rest)
      by (now rewrite !append_assoc).
    replace (1 + String.length digits + String.length (subsection_text group))
      with (String.length (SECT ++ digits ++ subsection_text group))
      by (rewrite !length_append; simpl; lia).
    apply drop_append. }
  assert (Hsub : re_sub hashes_section_number (hashes ++ ws ++ tailS) = rest).
  { destruct hashes as [|h hashes]; [simpl in Hlen; lia|].
    cbn [append] in *. rewrite (re_sub_match _ _ _ _ _ Hm). cbn [append].
    replace (drop (String.length (String h hashes) + String.length ws + n - 1)
                  (hashes ++ ws ++ tailS)) with rest.
    - apply re_sub_no_match. now apply hashes_section_number_no_hash.
    - rewrite <- Hdrop.
      replace (String.length (String h hashes) + String.length ws + n - 1)
        with (String.length hashes + String.length ws + n)
        by (cbn [String.length]; lia).
      replace (String.length (String h hashes) + String.length ws + n)
        with (S (String.length hashes + String.length ws + n))
        by (cbn [String.length]; lia).
      reflexivity. }
  unfold _extract_citation. fold tailS. rewrite Hsearch, Hsub.
  destruct group as [sub|]; cbn [or_empty_sub subsection_text].
  - destruct Hg as [Hsne _]. destruct sub; [contradiction|]. cbn [truthy].
    now rewrite !append_assoc.
  - reflexivity.
Qed.

Lemma citation_of_section_heading_witness :
  _extract_citation ("###" ++ " " ++ SECT ++ "63" ++ "(c)" ++ " Standard Deduction")
  = "26 USC " ++ SECT ++ "63" ++ "(c)" ++ " [" ++ "Standard Deduction" ++ "]".
Proof.
  refine (citation_of_section_heading "###" " " "63" " Standard Deduction" (Some "c")
            eq_refl _ eq_refl _ eq_refl _ eq_refl _).
  - simpl; lia.
  - discriminate.
  - discriminate.
  - split; [discriminate | reflexivity].
Defined.

(* ================================================================== *)
(** * The size of the chunks *)
(* ================================================================== *)

Section ChunkSizeFacts.

Variable max_chunk_size : Z.
Variable paragraphs : list string.

(** A chunk that is closed is not empty, and it fits or is one paragraph. *)
Lemma fold_add_paragraph_ok (paras chunks : list string) (current_chunk : string) :
  incl paras paragraphs ->
  Forall (fun chunk =>
            chunk <> "" /\
            ((Z.of_nat (String.length chunk) <= max_chunk_size)%Z \/
             In chunk paragraphs)) chunks ->
  (current_chunk = "" \/
   current_chunk <> "" /\
   ((Z.of_nat (String.length current_chunk) <= max_chunk_size)%Z \/
    In current_chunk paragraphs)) ->
  Forall (fun chunk =>
            chunk <> "" /\
            ((Z.of_nat (String.length chunk) <= max_chunk_size)%Z \/
             In chunk paragraphs))
         (close_chunks (fold_left (add_paragraph max_chunk_size) paras
                                  (chunks, current_chunk))).
Proof.
  revert chunks current_chunk.
  induction paras as [|para paras IH]; intros chunks current_chunk Hin Hchunks Hcur.
  - cbn [fold_left close_chunks]. destruct current_chunk as [|c cur]; [exact Hchunks|].
    cbn [truthy]. apply Forall_app. split; [exact Hchunks|].
    constructor; [|constructor]. destruct Hcur as [Hcur|Hcur]; [discriminate|exact Hcur].
  - cbn [fold_left]. unfold add_paragraph at 2.
    assert (Hpara : In para paragraphs) by (apply Hin; now left).
    assert (Hin' : incl paras paragraphs) by (intros x Hx; apply Hin; now right).
    destruct current_chunk as [|c cur]; cbn [truthy].
    + rewrite Bool.andb_false_r. cbn [append]. apply IH; [exact Hin'|exact Hchunks|].
      destruct para as [|p para]; [now left|]. right. split; [discriminate|now right].
    + rewrite Bool.andb_true_r.
      destruct Hcur as [Hcur|Hcur]; [discriminate|].
      destruct (Z.ltb_spec max_chunk_size
                  (Z.of_nat (String.length (String c cur))
                   + Z.of_nat (String.length para) + 2)) as [Hbig|Hfits].
      * apply IH; [exact Hin'| |].
        -- apply Forall_app. split; [exact Hchunks|].
           constructor; [exact Hcur|constructor].
        -- destruct para as [|p para]; [now left|]. right.
           split; [discriminate|now right].
      * apply IH; [exact Hin'|exact Hchunks|]. right. split; [discriminate|]. left.
        rewrite !length_append. change (String.length NL) with 1. lia.
Qed.

End ChunkSizeFacts.

(** X16: every chunk of [split_by_paragraphs] is non-empty, and is at most
    [max_chunk_size] characters long unless it is one paragraph of the text
    on its own. *)
Theorem split_by_paragraphs_chunk_size (text : string) (max_chunk_size : Z) :
  Forall (fun chunk =>
            chunk <> "" /\
            ((Z.of_nat (String.length chunk) <= max_chunk_size)%Z \/
             In chunk (split (NL ++ NL) text)))
         (split_by_paragraphs text max_chunk_size).
Proof.
  rewrite split_by_paragraphs_eq.
  apply (fold_add_paragraph_ok max_chunk_size (split (NL ++ NL) text)).
  - apply incl_refl.
  - constructor.
  - now left.
Qed.

Section OneChunkFacts.

Variable max_chunk_size : Z.

Lemma join_length_head (para : string) (paras : list string) :
  String.length para <= String.length (join (NL ++ NL) (para :: paras)).
Proof.
  destruct paras as [|q paras]; [apply Nat.le_refl|].
  rewrite (join_cons (NL ++ NL) para (q :: paras)) by discriminate.
  rewrite length_append. lia.
Qed.

Lemma fold_add_paragraph_fits (paras : list string) (current_chunk : string) :
  current_chunk <> "" ->
  (Z.of_nat (String.length (join (NL ++ NL) (current_chunk :: paras)))
   <= max_chunk_size)%Z ->
  close_chunks (fold_left (add_paragraph max_chunk_size) paras ([], current_chunk))
  = [join (NL ++ NL) (current_chunk :: paras)].
Proof.
  revert current_chunk.
  induction paras as [|para paras IH]; intros current_chunk Hne Hfits.
  - cbn [fold_left close_chunks]. destruct current_chunk; [contradiction|reflexivity].
  - cbn [fold_left]. unfold add_paragraph at 2.
    pose proof (join_merge (NL ++ NL) [] current_chunk para paras) as Hm.
    cbn [app] in Hm.
    rewrite (join_cons (NL ++ NL) current_chunk (para :: paras)) in Hfits by discriminate.
    pose proof (join_length_head para paras) as Hlen.
    rewrite !length_append in Hfits. change (String.length NL) with 1 in Hfits.
    destruct current_chunk as [|c cur]; [contradiction|]. cbn [truthy].
    rewrite Bool.andb_true_r.
    destruct (Z.ltb_spec max_chunk_size
                (Z.of_nat (String.length (String c cur))
                 + Z.of_nat (String.length para) + 2)) as [Hbig|_]; [lia|].
    rewrite append_assoc. rewrite IH.
    + now rewrite Hm.
    + discriminate.
    + rewrite Hm. rewrite (join_cons (NL ++ NL) (String c cur) (para :: paras))
        by discriminate.
      rewrite !length_append. change (String.length NL) with 1. lia.
Qed.

Lemma split_first_paragraph (text : string) :
  text <> "" -> startswith (NL ++ NL) text = false ->
  exists para paras, para <> "" /\ split (NL ++ NL) text = para :: paras.
Proof.
  intros Hne Hs. destruct text as [|c text]; [contradiction|].
  rewrite (split_copy (NL ++ NL) c text Hs).
  pose proof (split_not_nil (NL ++ NL) text) as Hnil.
  destruct (split (NL ++ NL) text) as [|para paras]; [contradiction|].
  exists (String c para), paras. split; [discriminate|reflexivity].
Qed.

End OneChunkFacts.

(** X17: a text that is not empty, does not start with a blank line and is
    at most [max_chunk_size] characters long is returned as one chunk,
    unchanged. *)
Theorem split_by_paragraphs_one_chunk (text : string) (max_chunk_size : Z) :
  text <> "" -> startswith (NL ++ NL) text = false ->
  (Z.of_nat (String.length text) <= max_chunk_size)%Z ->
  split_by_paragraphs text max_chunk_size = [text].
Proof.
  intros Hne Hs Hfits. rewrite split_by_paragraphs_eq.
  pose proof (join_split (NL ++ NL) ltac:(discriminate) text) as Hjs.
  destruct (split_first_paragraph text Hne Hs) as (para & paras & Hpara & E).
  rewrite E in *. cbn [fold_left]. unfold add_paragraph at 2. cbn [truthy].
  rewrite Bool.andb_false_r. cbn [append].
  rewrite fold_add_paragraph_fits; [now rewrite Hjs|exact Hpara|now rewrite Hjs].
Qed.

Lemma split_by_paragraphs_one_chunk_witness :
  split_by_paragraphs ("abc" ++ NL ++ NL ++ "def") 5000%Z = ["abc" ++ NL ++ NL ++ "def"].
Proof.
  apply (split_by_paragraphs_one_chunk ("abc" ++ NL ++ NL ++ "def") 5000%Z).
  - discriminate.
  - reflexivity.
  - vm_compute. discriminate.
Defined.
